(** * ViewportControls: gesture events to viewport updates

    A shallow embedding of the controller class [ViewportControls]
    (modules/core/src/controllers/viewport-controls.js in deck.gl): the
    constructor, [setOptions], [toggleEvents], [handleEvent] and every
    gesture handler, with the event manager's subscription table and the
    owner's two callbacks made explicit in a world that is threaded through
    the methods.

    Numbers.  A JavaScript number is modelled by [num]: a real number, one of
    the two infinities, or NaN.  In [JsNum], arithmetic on finite numbers is
    arithmetic on [R], without rounding or overflow.  The scale of the wheel
    handler, whose bounds depend on the rounding, is also computed in double
    precision ([Binary64], [wheelScale64]).  The sign of zero is outside the
    model. *)

From Stdlib Require Import Reals Lra ZArith.
From stdpp Require Import gmap strings list fin_maps.

Open Scope R_scope.

(** ** Numbers *)

Inductive num : Type :=
| Fin (x : R)
| PInf
| NInf
| NaN.

Definition Reqb (x y : R) : bool := if Req_dec_T x y then true else false.
Definition Rltb (x y : R) : bool := if Rlt_dec x y then true else false.

Module JsNum.

(** [a === b] on numbers: NaN is equal to nothing, itself included. *)
Definition eqb (a b : num) : bool :=
  match a, b with
  | Fin x, Fin y => Reqb x y
  | PInf, PInf => true
  | NInf, NInf => true
  | _, _ => false
  end.

(** [a < b]: false as soon as one side is NaN. *)
Definition ltb (a b : num) : bool :=
  match a, b with
  | NaN, _ | _, NaN => false
  | Fin x, Fin y => Rltb x y
  | NInf, NInf => false
  | NInf, _ => true
  | _, NInf => false
  | PInf, _ => false
  | Fin _, PInf => true
  end.

Definition gtb (a b : num) : bool := ltb b a.

Definition neg (a : num) : num :=
  match a with
  | Fin x => Fin (- x)
  | PInf => NInf
  | NInf => PInf
  | NaN => NaN
  end.

Definition abs (a : num) : num :=
  match a with
  | Fin x => Fin (Rabs x)
  | PInf | NInf => PInf
  | NaN => NaN
  end.

Definition add (a b : num) : num :=
  match a, b with
  | NaN, _ | _, NaN => NaN
  | Fin x, Fin y => Fin (x + y)
  | PInf, NInf | NInf, PInf => NaN
  | PInf, _ | _, PInf => PInf
  | NInf, _ | _, NInf => NInf
  end.

Definition sub (a b : num) : num := add a (neg b).

(** The infinity that has the sign of [x], NaN for [x = 0]. *)
Definition inf_of_sign (x : R) : num :=
  if Rltb 0 x then PInf else if Rltb x 0 then NInf else NaN.

Definition mul (a b : num) : num :=
  match a, b with
  | NaN, _ | _, NaN => NaN
  | Fin x, Fin y => Fin (x * y)
  | Fin x, PInf | PInf, Fin x => inf_of_sign x
  | Fin x, NInf | NInf, Fin x => neg (inf_of_sign x)
  | PInf, PInf | NInf, NInf => PInf
  | PInf, NInf | NInf, PInf => NInf
  end.

(** Division.  A zero divisor is taken as +0. *)
Definition div (a b : num) : num :=
  match a, b with
  | NaN, _ | _, NaN => NaN
  | Fin x, Fin y => if Reqb y 0 then inf_of_sign x else Fin (x / y)
  | Fin _, PInf | Fin _, NInf => Fin 0
  | PInf, Fin y => if Rltb y 0 then NInf else PInf
  | NInf, Fin y => if Rltb y 0 then PInf else NInf
  | _, _ => NaN
  end.

(** [Math.exp] *)
Definition exp (a : num) : num :=
  match a with
  | Fin x => Fin (Rtrigo_def.exp x)
  | PInf => PInf
  | NInf => Fin 0
  | NaN => NaN
  end.

(** [Math.min], [Math.max]: NaN as soon as one argument is NaN. *)
Definition min (a b : num) : num :=
  match a, b with
  | NaN, _ | _, NaN => NaN
  | _, _ => if ltb b a then b else a
  end.

Definition max (a b : num) : num :=
  match a, b with
  | NaN, _ | _, NaN => NaN
  | _, _ => if ltb a b then b else a
  end.

Definition is_zero (a : num) : bool :=
  match a with Fin x => Reqb x 0 | _ => false end.

End JsNum.

(** ** Values and plain objects *)

(** The values that travel through the controller.  Objects, arrays and
    functions are references and are compared by identity. *)
Inductive Value : Type :=
| VUndef
| VNull
| VBool (b : bool)
| VNum (n : num)
| VStr (s : string)
| VRef (r : nat).

(** [Boolean(v)] *)
Definition truthy (v : Value) : bool :=
  match v with
  | VUndef | VNull => false
  | VBool b => b
  | VNum NaN => false
  | VNum n => negb (JsNum.is_zero n)
  | VStr EmptyString => false
  | VStr _ => true
  | VRef _ => true
  end.

(** [a === b] and [a !== b] *)
Definition strict_eq (a b : Value) : bool :=
  match a, b with
  | VUndef, VUndef => true
  | VNull, VNull => true
  | VBool x, VBool y => Bool.eqb x y
  | VNum x, VNum y => JsNum.eqb x y
  | VStr x, VStr y => String.eqb x y
  | VRef x, VRef y => Nat.eqb x y
  | _, _ => false
  end.

Definition strict_neq (a b : Value) : bool := negb (strict_eq a b).

(** [a && b] and [a || b] return one of their operands. *)
Definition js_and (a b : Value) : Value := if truthy a then b else a.
Definition js_or (a b : Value) : Value := if truthy a then a else b.

(** A destructuring default [x = d] applies when the property is
    [undefined]. *)
Definition with_default (v d : Value) : Value :=
  match v with VUndef => d | _ => v end.

(** A plain object used as a record of named properties. *)
Abbreviation Obj := (gmap string Value).

(** [o[key]] *)
Definition get (o : Obj) (key : string) : Value := default VUndef (o !! key).

(** [Object.keys(o)] *)
Definition keys (o : Obj) : list string := (map_to_list o).*1.

(** [Object.assign(target, source)]: the properties of [source] win. *)
Definition assign (target source : Obj) : Obj := source ∪ target.

(** A [null] source is skipped. *)
Definition assign_opt (target : Obj) (source : option Obj) : Obj :=
  match source with
  | Some s => assign target s
  | None => target
  end.

(** ** Gesture events *)

(** The fields of the source DOM event that the controller reads. *)
Record SrcEvent : Type := {
  metaKey : bool;
  altKey : bool;
  ctrlKey : bool;
  shiftKey : bool;
  keyCode : Z
}.

(** A gesture event as the event manager emits it.  Coordinates, deltas,
    scale and rotation are finite numbers. *)
Record Event : Type := {
  type : string;
  offsetCenter : R * R;
  deltaX : R;
  deltaY : R;
  delta : R;
  scale : R;
  rotation : R;
  rightButton : bool;
  srcEvent : SrcEvent
}.

(** ** The ViewportState class

    The controller is constructed over a class [ViewportState] (map-state.js
    and its siblings), of which it uses the constructor, the transition
    methods, the two accessors, the optional method [getViewport] and the
    test [instanceof MapState].  Every method returns a new instance. *)
Class ViewportStateClass : Type := {
  vstate : Type;
  construct : Obj -> vstate;
  isMapState : bool;
  getViewportProps : vstate -> Obj;
  getInteractiveState : vstate -> Obj;
  getViewport : option (vstate -> Value);
  panStart : vstate -> R * R -> vstate;
  pan : vstate -> R * R -> vstate;
  panEnd : vstate -> vstate;
  rotateStart : vstate -> R * R -> vstate;
  rotate : vstate -> num -> option num -> vstate;
  rotateEnd : vstate -> vstate;
  zoomStart : vstate -> R * R -> vstate;
  zoom : vstate -> R * R -> num -> vstate;
  zoomEnd : vstate -> vstate;
  zoomIn : vstate -> vstate;
  zoomOut : vstate -> vstate;
  moveLeft : vstate -> vstate;
  moveRight : vstate -> vstate;
  moveUp : vstate -> vstate;
  moveDown : vstate -> vstate;
  rotateLeft : vstate -> vstate;
  rotateRight : vstate -> vstate;
  rotateUp : vstate -> vstate;
  rotateDown : vstate -> vstate
}.

(** ** The language runtime and the imported modules

    What the controller takes from outside its file: the conversion of
    strings and of references to numbers, which belongs to the language, and
    the constant [TRANSITION_EVENTS.BREAK] of lib/transition-manager. *)
Class Host : Type := {
  string_to_number : string -> num;
  ref_to_number : nat -> num;
  TRANSITION_EVENTS_BREAK : Value
}.

(** [ToNumber(v)] *)
Definition to_number `{Host} (v : Value) : num :=
  match v with
  | VUndef => NaN
  | VNull => Fin 0
  | VBool b => if b then Fin 1 else Fin 0
  | VNum n => n
  | VStr s => string_to_number s
  | VRef r => ref_to_number r
  end.

(** ** Constants of the module *)

Definition transitionEasing : Value := VRef 1.
Definition transitionInterpolator : Value := VRef 2.

Definition NO_TRANSITION_PROPS : Obj :=
  {[ "transitionDuration" := VNum (Fin 0) ]}.

Definition LINEAR_TRANSITION_PROPS `{Host} : Obj :=
  <[ "transitionDuration" := VNum (Fin 300) ]>
  (<[ "transitionEasing" := transitionEasing ]>
  (<[ "transitionInterpolator" := transitionInterpolator ]>
  {[ "transitionInterruption" := TRANSITION_EVENTS_BREAK ]})).

Definition PITCH_MOUSE_THRESHOLD : R := 5.
Definition PITCH_ACCEL : R := 1.2.
Definition ZOOM_ACCEL : R := 0.01.

Module EVENT_TYPES.
Definition WHEEL : list string := ["wheel"].
Definition PAN : list string := ["panstart"; "panmove"; "panend"].
Definition PINCH : list string := ["pinchstart"; "pinchmove"; "pinchend"].
Definition DOUBLE_TAP : list string := ["doubletap"].
Definition KEYBOARD : list string := ["keydown"].
End EVENT_TYPES.

(** [switch (s) { case k: ...; default: ... }] on strings. *)
Fixpoint switch {A : Type} (s : string) (cases : list (string * A))
    (default : A) : A :=
  match cases with
  | [] => default
  | (k, a) :: rest => if String.eqb s k then a else switch s rest default
  end.

(** ** Methods as state transformers

    A method either returns a value or throws; the state it leaves behind is
    kept in both cases. *)
Inductive Outcome (A : Type) : Type :=
| Ret (a : A)
| Throw.

Arguments Ret {A} a.
Arguments Throw {A}.

Definition M (S A : Type) : Type := S -> Outcome A * S.

#[global] Instance M_ret {S : Type} : MRet (M S) :=
  fun A (a : A) (s : S) => (Ret a, s).

#[global] Instance M_bind {S : Type} : MBind (M S) :=
  fun A B (k : A -> M S B) (m : M S A) (s : S) =>
    match m s with
    | (Ret a, s') => k a s'
    | (Throw, s') => (Throw, s')
    end.

Definition throw {S A : Type} : M S A := fun s => (Throw, s).

(** [names.forEach(f)] *)
Fixpoint forEach {S A : Type} (l : list A) (f : A -> M S unit) : M S unit :=
  match l with
  | [] => mret tt
  | x :: rest => f x ;; forEach rest f
  end.

(** ** The controller object and its world *)

Section controls.

Context `{VS : ViewportStateClass} `{HO : Host}.

(** The fields of a [ViewportControls] instance. *)
Record Controls : Type := mkControls {
  viewState : option vstate;
  viewStateProps : option Obj;
  eventManager : Value;
  _events : option Obj;
  _state : Obj;
  events : list string;
  onViewportChange : Value;
  onStateChange : Value;
  scrollZoom : Value;
  dragPan : Value;
  dragRotate : Value;
  doubleClickZoom : Value;
  touchZoom : Value;
  touchRotate : Value;
  keyboard : Value
}.

Definition set_viewState (v : option vstate) (c : Controls) : Controls :=
  mkControls v (viewStateProps c) (eventManager c) (_events c) (_state c)
    (events c) (onViewportChange c) (onStateChange c) (scrollZoom c)
    (dragPan c) (dragRotate c) (doubleClickZoom c) (touchZoom c)
    (touchRotate c) (keyboard c).

Definition set_viewStateProps (v : option Obj) (c : Controls) : Controls :=
  mkControls (viewState c) v (eventManager c) (_events c) (_state c)
    (events c) (onViewportChange c) (onStateChange c) (scrollZoom c)
    (dragPan c) (dragRotate c) (doubleClickZoom c) (touchZoom c)
    (touchRotate c) (keyboard c).

Definition set_eventManager (v : Value) (c : Controls) : Controls :=
  mkControls (viewState c) (viewStateProps c) v (_events c) (_state c)
    (events c) (onViewportChange c) (onStateChange c) (scrollZoom c)
    (dragPan c) (dragRotate c) (doubleClickZoom c) (touchZoom c)
    (touchRotate c) (keyboard c).

Definition set__events (v : option Obj) (c : Controls) : Controls :=
  mkControls (viewState c) (viewStateProps c) (eventManager c) v (_state c)
    (events c) (onViewportChange c) (onStateChange c) (scrollZoom c)
    (dragPan c) (dragRotate c) (doubleClickZoom c) (touchZoom c)
    (touchRotate c) (keyboard c).

Definition set__state (v : Obj) (c : Controls) : Controls :=
  mkControls (viewState c) (viewStateProps c) (eventManager c) (_events c) v
    (events c) (onViewportChange c) (onStateChange c) (scrollZoom c)
    (dragPan c) (dragRotate c) (doubleClickZoom c) (touchZoom c)
    (touchRotate c) (keyboard c).

Definition set_onViewportChange (v : Value) (c : Controls) : Controls :=
  mkControls (viewState c) (viewStateProps c) (eventManager c) (_events c)
    (_state c) (events c) v (onStateChange c) (scrollZoom c)
    (dragPan c) (dragRotate c) (doubleClickZoom c) (touchZoom c)
    (touchRotate c) (keyboard c).

Definition set_onStateChange (v : Value) (c : Controls) : Controls :=
  mkControls (viewState c) (viewStateProps c) (eventManager c) (_events c)
    (_state c) (events c) (onViewportChange c) v (scrollZoom c)
    (dragPan c) (dragRotate c) (doubleClickZoom c) (touchZoom c)
    (touchRotate c) (keyboard c).

(** The seven interaction toggles, assigned together at the end of
    [setOptions]. *)
Definition set_toggles (sz dp dr dcz tz tr kb : Value) (c : Controls)
    : Controls :=
  mkControls (viewState c) (viewStateProps c) (eventManager c) (_events c)
    (_state c) (events c) (onViewportChange c) (onStateChange c)
    sz dp dr dcz tz tr kb.

(** A call that the controller makes to one of the owner's callbacks, with
    the arguments as they are at the time of the call. *)
Inductive Call : Type :=
| ViewportChange (callee : nat) (newViewport : Obj) (viewport : Value)
| StateChange (callee : nat) (state : Obj).

(** The world: the controller, the event managers' tables (the pairs of an
    event manager and an event name on which [handleEvent] is registered) and
    the calls made so far, oldest first. *)
Record World : Type := mkWorld {
  ctl : Controls;
  listeners : gset (nat * string);
  calls : list Call
}.

(** [this] *)
Definition this : M World Controls := fun w => (Ret (ctl w), w).

Definition update (f : Controls -> Controls) : M World unit :=
  fun w => (Ret tt, mkWorld (f (ctl w)) (listeners w) (calls w)).

Definition emit (c : Call) : M World unit :=
  fun w => (Ret tt, mkWorld (ctl w) (listeners w) (calls w ++ [c])).

(** [eventManager.on(eventName, this.handleEvent)] and [off]: a value that
    is not an object has no such method. *)
Definition em_on (em : Value) (eventName : string) : M World unit :=
  match em with
  | VRef r =>
      fun w => (Ret tt, mkWorld (ctl w) ({[ (r, eventName) ]} ∪ listeners w) (calls w))
  | _ => throw
  end.

Definition em_off (em : Value) (eventName : string) : M World unit :=
  match em with
  | VRef r =>
      fun w => (Ret tt, mkWorld (ctl w) (listeners w ∖ {[ (r, eventName) ]}) (calls w))
  | _ => throw
  end.

(** A call of a callback: a value that is not a function cannot be
    called. *)
Definition call_onViewportChange (f : Value) (newViewport : Obj)
    (viewport : Value) : M World unit :=
  match f with
  | VRef r => emit (ViewportChange r newViewport viewport)
  | _ => throw
  end.

Definition call_onStateChange (f : Value) (state : Obj) : M World unit :=
  match f with
  | VRef r => emit (StateChange r state)
  | _ => throw
  end.

(** Reading a property of [this.viewState] throws while it is [null]. *)
Definition with_viewState {A : Type} (k : vstate -> M World A) : M World A :=
  c ← this;
  match viewState c with
  | Some vs => k vs
  | None => throw
  end.

(** *** Event utils *)

Definition getCenter (event : Event) : R * R := offsetCenter event.

Definition isFunctionKeyPressed (event : Event) : bool :=
  let s := srcEvent event in
  metaKey s || altKey s || ctrlKey s || shiftKey s.

Definition isDragging (c : Controls) : Value := get (_state c) "isDragging".

(** *** setOptions and toggleEvents *)

Definition toggleEvents (eventNames : list string) (enabled : Value)
    : M World unit :=
  c ← this;
  if truthy (eventManager c) then
    forEach eventNames (fun eventName =>
      c ← this;
      match _events c with
      | None => throw
      | Some evs =>
          if strict_neq (get evs eventName) enabled then
            update (set__events (Some (<[ eventName := enabled ]> evs))) ;;
            if truthy enabled then em_on (eventManager c) eventName
            else em_off (eventManager c) eventName
          else mret tt
      end)
  else mret tt.

Definition setOptions (options : Obj) : M World unit :=
  c ← this;
  let onViewportChange' := get options "onViewportChange" in
  let onStateChange' := with_default (get options "onStateChange") (onStateChange c) in
  let eventManager' := with_default (get options "eventManager") (eventManager c) in
  let scrollZoom' := with_default (get options "scrollZoom") (VBool true) in
  let dragPan' := with_default (get options "dragPan") (VBool true) in
  let dragRotate' := with_default (get options "dragRotate") (VBool true) in
  let doubleClickZoom' := with_default (get options "doubleClickZoom") (VBool true) in
  let touchZoom' := with_default (get options "touchZoom") (VBool true) in
  let touchRotate' := with_default (get options "touchRotate") (VBool false) in
  let keyboard' := with_default (get options "keyboard") (VBool true) in
  update (set_onViewportChange onViewportChange') ;;
  update (set_onStateChange onStateChange') ;;
  update (set_viewStateProps (Some options)) ;;
  (if strict_neq (eventManager c) eventManager' then
     update (set_eventManager eventManager') ;;
     update (set__events (Some ∅)) ;;
     toggleEvents (events c) (VBool true)
   else mret tt) ;;
  let isInteractive := VBool (truthy onViewportChange') in
  toggleEvents EVENT_TYPES.WHEEL (js_and isInteractive scrollZoom') ;;
  toggleEvents EVENT_TYPES.PAN (js_and isInteractive (js_or dragPan' dragRotate')) ;;
  toggleEvents EVENT_TYPES.PINCH (js_and isInteractive (js_or touchZoom' touchRotate')) ;;
  toggleEvents EVENT_TYPES.DOUBLE_TAP (js_and isInteractive doubleClickZoom') ;;
  toggleEvents EVENT_TYPES.KEYBOARD (js_and isInteractive keyboard') ;;
  update (set_toggles scrollZoom' dragPan' dragRotate' doubleClickZoom'
            touchZoom' touchRotate' keyboard').

(** The instance as the constructor has it before it calls [setOptions]. *)
Definition new_controls : Controls :=
  mkControls None None VNull None {[ "isDragging" := VBool false ]} []
    VUndef VUndef VUndef VUndef VUndef VUndef VUndef VUndef VUndef.

(** [new ViewportControls(ViewportState, options)], in a world with the
    given event-manager tables and call history. *)
Definition constructor (options : Obj) (ls : gset (nat * string))
    (history : list Call) : Outcome unit * World :=
  setOptions options (mkWorld new_controls ls history).

(** *** Callback utils *)

Definition setState (newState : Obj) : M World unit :=
  update (fun c => set__state (assign (_state c) newState) c) ;;
  c ← this;
  if truthy (onStateChange c) then call_onStateChange (onStateChange c) (_state c)
  else mret tt.

(** [Object.keys(newViewport).some(key => oldViewport[key] !== newViewport[key])] *)
Definition viewport_differs (oldViewport newViewport : Obj) : bool :=
  existsb (fun key => strict_neq (get oldViewport key) (get newViewport key))
    (keys newViewport).

(** [updateViewport(newViewportState, extraProps, extraState)].  The
    callers pass [null] or an object for [extraProps]; the method has no
    [return], so the handlers that end in it return [undefined]. *)
Definition updateViewport (newViewportState : vstate) (extraProps : option Obj)
    (extraState : Obj) : M World Value :=
  with_viewState (fun vs =>
    c ← this;
    let oldViewport := getViewportProps vs in
    let newViewport :=
      assign_opt (assign ∅ (getViewportProps newViewportState)) extraProps in
    (if truthy (onViewportChange c) && viewport_differs oldViewport newViewport
     then
       let viewport :=
         match getViewport with Some f => f vs | None => VNull end in
       call_onViewportChange (onViewportChange c) newViewport viewport
     else mret tt) ;;
    setState (assign (assign ∅ (getInteractiveState newViewportState)) extraState) ;;
    mret VUndef).

(** *** Event handlers *)

Definition _onPanStart (event : Event) : M World Value :=
  let pos := getCenter event in
  with_viewState (fun vs =>
    let newViewportState := rotateStart (panStart vs pos) pos in
    updateViewport newViewportState (Some NO_TRANSITION_PROPS)
      {[ "isDragging" := VBool true ]}).

Definition _onPanEnd (event : Event) : M World Value :=
  with_viewState (fun vs =>
    let newViewportState := rotateEnd (panEnd vs) in
    updateViewport newViewportState None {[ "isDragging" := VBool false ]}).

Definition _onPanMove (event : Event) : M World Value :=
  c ← this;
  if negb (truthy (dragPan c)) then mret (VBool false)
  else
    let pos := getCenter event in
    with_viewState (fun vs =>
      let newViewportState := pan vs pos in
      updateViewport newViewportState (Some NO_TRANSITION_PROPS)
        {[ "isDragging" := VBool true ]}).

Definition _onPanRotateStandard (event : Event) : M World Value :=
  with_viewState (fun vs =>
    let width := get (getViewportProps vs) "width" in
    let height := get (getViewportProps vs) "height" in
    let deltaScaleX := JsNum.div (Fin (deltaX event)) (to_number width) in
    let deltaScaleY := JsNum.div (Fin (deltaY event)) (to_number height) in
    let newViewportState := rotate vs deltaScaleX (Some deltaScaleY) in
    updateViewport newViewportState (Some NO_TRANSITION_PROPS)
      {[ "isDragging" := VBool true ]}).

(** The pitch fraction of [_onPanRotateMap]: the value of [deltaScaleY]
    after the clamp, from the event and the viewport's [height]. *)
Definition mapDeltaScaleY (event : Event) (height : num) : num :=
  let deltaY := deltaY event in
  let centerY := snd (getCenter event) in
  let startY := centerY - deltaY in
  let deltaScaleY :=
    if Rltb 0 deltaY then
      if JsNum.gtb (JsNum.abs (JsNum.sub height (Fin startY))) (Fin PITCH_MOUSE_THRESHOLD)
      then JsNum.mul (JsNum.div (Fin deltaY) (JsNum.sub (Fin startY) height)) (Fin PITCH_ACCEL)
      else Fin 0
    else if Rltb deltaY 0 then
      if Rltb PITCH_MOUSE_THRESHOLD startY
      then Fin (1 - centerY / startY)
      else Fin 0
    else Fin 0 in
  JsNum.min (Fin 1) (JsNum.max (Fin (-1)) deltaScaleY).

Definition _onPanRotateMap (event : Event) : M World Value :=
  with_viewState (fun vs =>
    let width := get (getViewportProps vs) "width" in
    let height := get (getViewportProps vs) "height" in
    let deltaScaleX := JsNum.div (Fin (deltaX event)) (to_number width) in
    let deltaScaleY := mapDeltaScaleY event (to_number height) in
    let newViewportState := rotate vs deltaScaleX (Some deltaScaleY) in
    updateViewport newViewportState (Some NO_TRANSITION_PROPS)
      {[ "isDragging" := VBool true ]}).

(** [this.viewState instanceof MapState] *)
Definition instanceof_MapState (v : option vstate) : bool :=
  match v with
  | Some _ => isMapState
  | None => false
  end.

Definition _onPanRotate (event : Event) : M World Value :=
  c ← this;
  if negb (truthy (dragRotate c)) then mret (VBool false)
  else if instanceof_MapState (viewState c) then _onPanRotateMap event
  else _onPanRotateStandard event.

Definition _onPan (event : Event) : M World Value :=
  if isFunctionKeyPressed event || rightButton event then _onPanRotate event
  else _onPanMove event.

(** The relative scale of [_onWheel], from the wheel delta. *)
Definition wheelScale (delta : R) : num :=
  let scale :=
    JsNum.div (Fin 2)
      (JsNum.add (Fin 1)
         (JsNum.exp (JsNum.neg (JsNum.abs (JsNum.mul (Fin delta) (Fin ZOOM_ACCEL)))))) in
  if Rltb delta 0 && negb (JsNum.eqb scale (Fin 0))
  then JsNum.div (Fin 1) scale
  else scale.

Definition _onWheel (event : Event) : M World Value :=
  c ← this;
  if negb (truthy (scrollZoom c)) then mret (VBool false)
  else
    let pos := getCenter event in
    let scale := wheelScale (delta event) in
    with_viewState (fun vs =>
      let newViewportState := zoom vs pos scale in
      updateViewport newViewportState (Some NO_TRANSITION_PROPS) ∅).

Definition _onPinchStart (event : Event) : M World Value :=
  let pos := getCenter event in
  with_viewState (fun vs =>
    let newViewportState := rotateStart (zoomStart vs pos) pos in
    update (fun c =>
      set__state (<[ "startPinchRotation" := VNum (Fin (rotation event)) ]> (_state c)) c) ;;
    updateViewport newViewportState (Some NO_TRANSITION_PROPS)
      {[ "isDragging" := VBool true ]}).

Definition _onPinch (event : Event) : M World Value :=
  c ← this;
  if negb (truthy (touchZoom c)) && negb (truthy (touchRotate c))
  then mret (VBool false)
  else
    with_viewState (fun vs =>
      let zoomed :=
        if truthy (touchZoom c)
        then zoom vs (getCenter event) (Fin (scale event))
        else vs in
      let newViewportState :=
        if truthy (touchRotate c) then
          let startPinchRotation := get (_state c) "startPinchRotation" in
          rotate zoomed
            (JsNum.div
               (JsNum.neg (JsNum.sub (Fin (rotation event)) (to_number startPinchRotation)))
               (Fin 180))
            None
        else zoomed in
      updateViewport newViewportState (Some NO_TRANSITION_PROPS)
        {[ "isDragging" := VBool true ]}).

Definition _onPinchEnd (event : Event) : M World Value :=
  with_viewState (fun vs =>
    let newViewportState := rotateEnd (zoomEnd vs) in
    update (fun c =>
      set__state (<[ "startPinchRotation" := VNum (Fin 0) ]> (_state c)) c) ;;
    updateViewport newViewportState None {[ "isDragging" := VBool false ]}).

Definition _onDoubleTap (event : Event) : M World Value :=
  c ← this;
  if negb (truthy (doubleClickZoom c)) then mret (VBool false)
  else
    let pos := getCenter event in
    let isZoomOut := isFunctionKeyPressed event in
    with_viewState (fun vs =>
      let newViewportState :=
        zoom vs pos (if isZoomOut then Fin 0.5 else Fin 2) in
      updateViewport newViewportState (Some LINEAR_TRANSITION_PROPS) ∅).

Definition _onKeyDown (event : Event) : M World Value :=
  c ← this;
  if negb (truthy (keyboard c)) then mret (VBool false)
  else
    let funcKey := isFunctionKeyPressed event in
    let step (f : vstate -> vstate) : M World Value :=
      with_viewState (fun viewState =>
        updateViewport (f viewState) (Some LINEAR_TRANSITION_PROPS) ∅) in
    match keyCode (srcEvent event) with
    | 189%Z => step (fun v => if funcKey then zoomOut (zoomOut v) else zoomOut v)
    | 187%Z => step (fun v => if funcKey then zoomIn (zoomIn v) else zoomIn v)
    | 37%Z => step (fun v => if funcKey then rotateLeft v else moveLeft v)
    | 39%Z => step (fun v => if funcKey then rotateRight v else moveRight v)
    | 38%Z => step (fun v => if funcKey then rotateUp v else moveUp v)
    | 40%Z => step (fun v => if funcKey then rotateDown v else moveDown v)
    | _ => mret (VBool false)
    end.

(** *** handleEvent *)

Definition handleEvent (event : Event) : M World Value :=
  c ← this;
  update (set_viewState
            (Some (construct (assign (assign_opt ∅ (viewStateProps c)) (_state c))))) ;;
  switch (type event)
    [ ("panstart", _onPanStart event);
      ("panmove", _onPan event);
      ("panend", _onPanEnd event);
      ("pinchstart", _onPinchStart event);
      ("pinchmove", _onPinch event);
      ("pinchend", _onPinchEnd event);
      ("doubletap", _onDoubleTap event);
      ("wheel", _onWheel event);
      ("keydown", _onKeyDown event) ]
    (mret (VBool false)).

(** The world after a sequence of events, delivered one after the other. *)
Definition handleEvents (evs : list Event) (w : World) : World :=
  foldl (fun w event => snd (handleEvent event w)) w evs.

End controls.

(** The state that [handleEvent] builds for the event, and the world as the
    handlers find it. *)
Definition fresh_viewState `{VS : ViewportStateClass} (c : Controls) : vstate :=
  construct (assign (assign_opt ∅ (viewStateProps c)) (_state c)).

Definition entered `{VS : ViewportStateClass} (w : World) : World :=
  mkWorld (set_viewState (Some (fresh_viewState (ctl w))) (ctl w))
    (listeners w) (calls w).

(** The calls to [onViewportChange] and to [onStateChange] among the calls
    made. *)
Definition viewport_calls `{VS : ViewportStateClass} (l : list Call)
    : list (nat * Obj * Value) :=
  omap (fun c => match c with
                 | ViewportChange f p v => Some (f, p, v)
                 | StateChange _ _ => None
                 end) l.

Definition state_calls `{VS : ViewportStateClass} (l : list Call)
    : list (nat * Obj) :=
  omap (fun c => match c with
                 | StateChange f s => Some (f, s)
                 | ViewportChange _ _ _ => None
                 end) l.

(** * Properties *)

(** ** Numbers *)

Lemma Rltb_true (x y : R) : x < y -> Rltb x y = true.
Proof. intros H. unfold Rltb. destruct (Rlt_dec x y); [reflexivity | contradiction]. Qed.

Lemma Rltb_false (x y : R) : ~ x < y -> Rltb x y = false.
Proof. intros H. unfold Rltb. destruct (Rlt_dec x y); [contradiction | reflexivity]. Qed.

Lemma Reqb_true (x y : R) : x = y -> Reqb x y = true.
Proof. intros H. unfold Reqb. destruct (Req_dec_T x y); [reflexivity | contradiction]. Qed.

Lemma Reqb_false (x y : R) : x <> y -> Reqb x y = false.
Proof. intros H. unfold Reqb. destruct (Req_dec_T x y); [contradiction | reflexivity]. Qed.

Lemma Rltb_spec (x y : R) : Rltb x y = true <-> x < y.
Proof.
  unfold Rltb. destruct (Rlt_dec x y); split; intros; try assumption;
    try reflexivity; try discriminate; contradiction.
Qed.

(** The exponential term of the wheel formula lies in (0, 1]. *)
Lemma exp_neg_abs_bounds (d : R) :
  0 < exp (- Rabs (d * ZOOM_ACCEL)) <= 1.
Proof.
  split; [apply exp_pos |].
  pose proof (Rabs_pos (d * ZOOM_ACCEL)) as Hp.
  destruct (Req_dec (Rabs (d * ZOOM_ACCEL)) 0) as [E | E].
  - rewrite E, Ropp_0, exp_0. lra.
  - left. rewrite <- exp_0. apply exp_increasing. lra.
Qed.

Lemma exp_neg_abs_lt_1 (d : R) :
  d <> 0 -> exp (- Rabs (d * ZOOM_ACCEL)) < 1.
Proof.
  intros Hd. rewrite <- exp_0. apply exp_increasing.
  assert (0 < Rabs (d * ZOOM_ACCEL)); [| lra].
  apply Rabs_pos_lt. unfold ZOOM_ACCEL. lra.
Qed.

Lemma Rabs_mult_accel (d : R) :
  Rabs (d * ZOOM_ACCEL) = Rabs d * ZOOM_ACCEL.
Proof.
  rewrite Rabs_mult. f_equal. apply Rabs_right. unfold ZOOM_ACCEL. lra.
Qed.

(** The saturating function of the wheel delta. *)
Definition saturating (d : R) : R := 2 / (1 + exp (- (Rabs d * ZOOM_ACCEL))).

Lemma saturating_bounds (d : R) : 1 <= saturating d < 2.
Proof.
  unfold saturating. rewrite <- Rabs_mult_accel.
  destruct (exp_neg_abs_bounds d) as [H0 H1].
  set (e := exp (- Rabs (d * ZOOM_ACCEL))) in *.
  split.
  - apply Rmult_le_reg_r with (1 + e); [lra |].
    unfold Rdiv. rewrite Rmult_assoc, Rinv_l; lra.
  - apply Rmult_lt_reg_r with (1 + e); [lra |].
    unfold Rdiv. rewrite Rmult_assoc, Rinv_l; lra.
Qed.

Lemma saturating_gt_1 (d : R) : d <> 0 -> 1 < saturating d.
Proof.
  intros Hd. unfold saturating. rewrite <- Rabs_mult_accel.
  pose proof (exp_neg_abs_lt_1 d Hd) as H1.
  destruct (exp_neg_abs_bounds d) as [H0 _].
  set (e := exp (- Rabs (d * ZOOM_ACCEL))) in *.
  apply Rmult_lt_reg_r with (1 + e); [lra |].
  unfold Rdiv. rewrite Rmult_assoc, Rinv_l; lra.
Qed.

Lemma half_lt_inv_saturating (d : R) : 1 / 2 < 1 / saturating d <= 1.
Proof.
  pose proof (saturating_bounds d) as [Hl Hu].
  unfold Rdiv. rewrite !Rmult_1_l. split.
  - apply Rinv_lt_contravar; lra.
  - rewrite <- Rinv_1. apply Rinv_le_contravar; lra.
Qed.

Lemma inv_saturating_lt_1 (d : R) : d <> 0 -> 1 / saturating d < 1.
Proof.
  intros Hd. pose proof (saturating_gt_1 d Hd) as H.
  unfold Rdiv. rewrite Rmult_1_l. rewrite <- Rinv_1.
  apply Rinv_lt_contravar; lra.
Qed.

(** [wheelScale] in closed form. *)
Lemma wheelScale_nonneg (d : R) : 0 <= d -> wheelScale d = Fin (saturating d).
Proof.
  intros Hd. unfold wheelScale. cbn.
  destruct (exp_neg_abs_bounds d) as [H0 H1].
  rewrite (Reqb_false (1 + exp (- Rabs (d * ZOOM_ACCEL))) 0) by lra.
  rewrite (Rltb_false d 0) by lra. cbn.
  unfold saturating. rewrite Rabs_mult_accel. reflexivity.
Qed.

Lemma wheelScale_neg (d : R) : d < 0 -> wheelScale d = Fin (1 / saturating d).
Proof.
  intros Hd. unfold wheelScale. cbn.
  destruct (exp_neg_abs_bounds d) as [H0 H1].
  rewrite (Reqb_false (1 + exp (- Rabs (d * ZOOM_ACCEL))) 0) by lra.
  rewrite (Rltb_true d 0) by lra. cbn.
  pose proof (saturating_bounds d) as Hs. unfold saturating in Hs.
  rewrite <- Rabs_mult_accel in Hs.
  rewrite !(Reqb_false (2 / (1 + exp (- Rabs (d * ZOOM_ACCEL)))) 0) by lra.
  cbn. unfold saturating. rewrite Rabs_mult_accel. reflexivity.
Qed.

(** ** Values *)

Lemma strict_eq_eq (a b : Value) : strict_eq a b = true -> a = b.
Proof.
  destruct a as [| | x | x | x | x], b as [| | y | y | y | y];
    simpl; try discriminate; try reflexivity; intros H.
  - apply Bool.eqb_prop in H. congruence.
  - destruct x, y; simpl in H; try discriminate; try reflexivity.
    unfold Reqb in H. destruct (Req_dec_T x x0); [congruence | discriminate].
  - apply String.eqb_eq in H. congruence.
  - apply Nat.eqb_eq in H. congruence.
Qed.

Lemma strict_neq_undef (v : Value) : v <> VUndef -> strict_neq VUndef v = true.
Proof. destruct v; intros H; try reflexivity. contradiction. Qed.

(** The documented type of a callback option, and of the event manager
    option: a reference, or nothing. *)
Definition is_callback (v : Value) : bool :=
  match v with
  | VUndef | VNull | VRef _ => true
  | _ => false
  end.

Lemma truthy_js_and (b : bool) (v : Value) :
  truthy (js_and (VBool b) v) = b && truthy v.
Proof. destruct b; reflexivity. Qed.

Lemma truthy_js_or (a b : Value) :
  truthy (js_or a b) = truthy a || truthy b.
Proof. unfold js_or. destruct (truthy a) eqn:E; simpl; [exact E | reflexivity]. Qed.

Lemma with_default_not_undef (v d : Value) :
  d <> VUndef -> with_default v d <> VUndef.
Proof. destruct v; simpl; intros H; try discriminate. exact H. Qed.

Lemma js_or_not_undef (a b : Value) : b <> VUndef -> js_or a b <> VUndef.
Proof.
  unfold js_or. destruct (truthy a) eqn:E; [| tauto].
  intros _ ->. discriminate.
Qed.

Lemma js_and_bool_not_undef (b : bool) (v : Value) :
  v <> VUndef -> js_and (VBool b) v <> VUndef.
Proof. destruct b; simpl; [tauto | discriminate]. Qed.

(** ** Objects *)

Lemma get_assign (target source : Obj) (key : string) :
  get (assign target source) key =
  match source !! key with
  | Some v => v
  | None => get target key
  end.
Proof.
  unfold get, assign. rewrite lookup_union.
  destruct (source !! key), (target !! key); reflexivity.
Qed.

Lemma get_insert_eq (o : Obj) (key : string) (v : Value) :
  get (<[ key := v ]> o) key = v.
Proof. unfold get. rewrite lookup_insert_eq. reflexivity. Qed.

Lemma get_insert_ne (o : Obj) (key key' : string) (v : Value) :
  key <> key' -> get (<[ key := v ]> o) key' = get o key'.
Proof. intros H. unfold get. rewrite lookup_insert_ne by exact H. reflexivity. Qed.

Lemma elem_of_keys (o : Obj) (key : string) :
  key ∈ keys o <-> is_Some (o !! key).
Proof.
  unfold keys. rewrite list_elem_of_fmap. split.
  - intros [[k v] [-> Hin]]. apply elem_of_map_to_list in Hin. eauto.
  - intros [v Hv]. exists (key, v). split; [reflexivity |].
    apply elem_of_map_to_list. exact Hv.
Qed.

(** The comparison of [updateViewport] holds exactly when some property of
    the new object is not strictly equal to the old object's property of
    that name. *)
Lemma viewport_differs_spec (oldViewport newViewport : Obj) :
  viewport_differs oldViewport newViewport = true <->
  exists key, is_Some (newViewport !! key) /\
    strict_neq (get oldViewport key) (get newViewport key) = true.
Proof.
  unfold viewport_differs. rewrite existsb_exists. split.
  - intros [key [Hin Hne]]. exists key. split; [| exact Hne].
    apply elem_of_keys. apply list_elem_of_In. exact Hin.
  - intros [key [Hin Hne]]. exists key. split; [| exact Hne].
    apply list_elem_of_In. apply elem_of_keys. exact Hin.
Qed.

(** ** The controller *)

Ltac unfold_M :=
  unfold with_viewState, this, update, emit, throw in *;
  unfold mbind, M_bind, mret, M_ret in *;
  cbv beta iota in *.

Ltac mred := cbn [negb andb orb ctl listeners calls]; cbv beta iota.

Section controls_facts.

Context `{VS : ViewportStateClass} `{HO : Host}.

(** What [updateViewport] proposes to the owner and what it merges into
    [this._state]. *)
Definition proposed (newViewportState : vstate) (extraProps : option Obj) : Obj :=
  assign_opt (assign ∅ (getViewportProps newViewportState)) extraProps.

Definition viewport_arg (vs : vstate) : Value :=
  match getViewport with Some f => f vs | None => VNull end.

Definition merged_state (c : Controls) (newViewportState : vstate)
    (extraState : Obj) : Obj :=
  assign (_state c) (assign (assign ∅ (getInteractiveState newViewportState)) extraState).

Definition viewport_call (c : Controls) (vs newViewportState : vstate)
    (extraProps : option Obj) : list Call :=
  match onViewportChange c with
  | VRef f =>
      if viewport_differs (getViewportProps vs) (proposed newViewportState extraProps)
      then [ViewportChange f (proposed newViewportState extraProps) (viewport_arg vs)]
      else []
  | _ => []
  end.

Definition state_call (c : Controls) (state : Obj) : list Call :=
  match onStateChange c with
  | VRef g => [StateChange g state]
  | _ => []
  end.

Lemma updateViewport_spec (w : World) (vs newViewportState : vstate)
    (extraProps : option Obj) (extraState : Obj) :
  viewState (ctl w) = Some vs ->
  is_callback (onViewportChange (ctl w)) = true ->
  is_callback (onStateChange (ctl w)) = true ->
  updateViewport newViewportState extraProps extraState w =
  (Ret VUndef,
   mkWorld (set__state (merged_state (ctl w) newViewportState extraState) (ctl w))
     (listeners w)
     (calls w ++ viewport_call (ctl w) vs newViewportState extraProps
              ++ state_call (ctl w) (merged_state (ctl w) newViewportState extraState))).
Proof.
  intros Hvs Hv Hs.
  unfold updateViewport, setState, viewport_call, state_call,
    call_onViewportChange, call_onStateChange.
  fold (proposed newViewportState extraProps).
  unfold_M. 
  destruct w as [c ls cs]. cbn [ctl listeners calls] in *. rewrite Hvs.
  fold (viewport_arg vs). unfold merged_state.
  destruct (onViewportChange c) as [| | b | n | s | f] eqn:Ev; try discriminate;
    destruct (onStateChange c) as [| | b' | n' | s' | g] eqn:Es; try discriminate;
    try destruct (viewport_differs (getViewportProps vs) (proposed newViewportState extraProps));
    cbn -[assign assign_opt viewport_differs proposed viewport_arg];
    rewrite ?Ev, ?Es;
    cbn -[assign assign_opt viewport_differs proposed viewport_arg];
    rewrite ?Ev, ?Es;
    cbn -[assign assign_opt viewport_differs proposed viewport_arg];
    rewrite ?app_nil_r, <- ?app_assoc; try reflexivity.
Qed.

(** [handleEvent] builds the fresh state and dispatches on the type. *)
Lemma handleEvent_enter (event : Event) (w : World) :
  handleEvent event w =
  switch (type event)
    [ ("panstart", _onPanStart event);
      ("panmove", _onPan event);
      ("panend", _onPanEnd event);
      ("pinchstart", _onPinchStart event);
      ("pinchmove", _onPinch event);
      ("pinchend", _onPinchEnd event);
      ("doubletap", _onDoubleTap event);
      ("wheel", _onWheel event);
      ("keydown", _onKeyDown event) ]
    (mret (VBool false)) (entered w).
Proof. reflexivity. Qed.

Lemma entered_viewState (w : World) :
  viewState (ctl (entered w)) = Some (fresh_viewState (ctl w)).
Proof. reflexivity. Qed.

(** The event names of the five groups. *)
Definition recognized : list string :=
  EVENT_TYPES.WHEEL ++ EVENT_TYPES.PAN ++ EVENT_TYPES.PINCH
    ++ EVENT_TYPES.DOUBLE_TAP ++ EVENT_TYPES.KEYBOARD.

Lemma handleEvent_unrecognized (event : Event) (w : World) :
  type event ∉ recognized ->
  handleEvent event w = (Ret (VBool false), entered w).
Proof.
  intros Hty. rewrite handleEvent_enter.
  assert (H : forall k, k ∈ recognized -> String.eqb (type event) k = false).
  { intros k Hk. apply String.eqb_neq. intros E. rewrite E in Hty. contradiction. }
  unfold switch.
  rewrite !H by (unfold recognized; cbn; set_solver).
  reflexivity.
Qed.

Ltac dispatch E := rewrite handleEvent_enter, E; reflexivity.

Lemma handleEvent_panstart (event : Event) (w : World) :
  type event = "panstart" -> handleEvent event w = _onPanStart event (entered w).
Proof. intros E. dispatch E. Qed.

Lemma handleEvent_panmove (event : Event) (w : World) :
  type event = "panmove" -> handleEvent event w = _onPan event (entered w).
Proof. intros E. dispatch E. Qed.

Lemma handleEvent_panend (event : Event) (w : World) :
  type event = "panend" -> handleEvent event w = _onPanEnd event (entered w).
Proof. intros E. dispatch E. Qed.

Lemma handleEvent_pinchmove (event : Event) (w : World) :
  type event = "pinchmove" -> handleEvent event w = _onPinch event (entered w).
Proof. intros E. dispatch E. Qed.

Lemma handleEvent_doubletap (event : Event) (w : World) :
  type event = "doubletap" -> handleEvent event w = _onDoubleTap event (entered w).
Proof. intros E. dispatch E. Qed.

Lemma handleEvent_wheel (event : Event) (w : World) :
  type event = "wheel" -> handleEvent event w = _onWheel event (entered w).
Proof. intros E. dispatch E. Qed.

Lemma handleEvent_keydown (event : Event) (w : World) :
  type event = "keydown" -> handleEvent event w = _onKeyDown event (entered w).
Proof. intros E. dispatch E. Qed.

(** The handlers that act end in [updateViewport]. *)
Lemma _onWheel_enabled (event : Event) (w : World) (vs : vstate) :
  truthy (scrollZoom (ctl w)) = true ->
  viewState (ctl w) = Some vs ->
  _onWheel event w =
  updateViewport (zoom vs (getCenter event) (wheelScale (delta event)))
    (Some NO_TRANSITION_PROPS) ∅ w.
Proof.
  intros Ht Hvs. unfold _onWheel. unfold_M. mred.
  rewrite Ht. mred. rewrite Hvs. reflexivity.
Qed.

Lemma _onDoubleTap_enabled (event : Event) (w : World) (vs : vstate) :
  truthy (doubleClickZoom (ctl w)) = true ->
  viewState (ctl w) = Some vs ->
  _onDoubleTap event w =
  updateViewport
    (zoom vs (getCenter event) (if isFunctionKeyPressed event then Fin 0.5 else Fin 2))
    (Some LINEAR_TRANSITION_PROPS) ∅ w.
Proof.
  intros Ht Hvs. unfold _onDoubleTap. unfold_M. mred.
  rewrite Ht. mred. rewrite Hvs. reflexivity.
Qed.

Lemma _onPanStart_acts (event : Event) (w : World) (vs : vstate) :
  viewState (ctl w) = Some vs ->
  _onPanStart event w =
  updateViewport (rotateStart (panStart vs (getCenter event)) (getCenter event))
    (Some NO_TRANSITION_PROPS) {[ "isDragging" := VBool true ]} w.
Proof.
  intros Hvs. unfold _onPanStart. unfold_M. cbn [ctl]. rewrite Hvs. reflexivity.
Qed.

Lemma _onPanEnd_acts (event : Event) (w : World) (vs : vstate) :
  viewState (ctl w) = Some vs ->
  _onPanEnd event w =
  updateViewport (rotateEnd (panEnd vs)) None {[ "isDragging" := VBool false ]} w.
Proof.
  intros Hvs. unfold _onPanEnd. unfold_M. cbn [ctl]. rewrite Hvs. reflexivity.
Qed.

(** A [panmove] either is ignored or ends in [updateViewport] with
    [isDragging: true] and the instant transition. *)
Lemma _onPan_cases (event : Event) (w : World) (vs : vstate) :
  viewState (ctl w) = Some vs ->
  _onPan event w = (Ret (VBool false), w) \/
  exists newViewportState,
    _onPan event w =
    updateViewport newViewportState (Some NO_TRANSITION_PROPS)
      {[ "isDragging" := VBool true ]} w.
Proof.
  intros Hvs. unfold _onPan, _onPanRotate, _onPanMove.
  destruct (isFunctionKeyPressed event || rightButton event).
  - unfold_M. mred.
    destruct (truthy (dragRotate (ctl w))); mred; [| left; reflexivity].
    right. unfold instanceof_MapState. rewrite Hvs.
    destruct isMapState.
    + unfold _onPanRotateMap. unfold_M. mred. rewrite Hvs. eauto.
    + unfold _onPanRotateStandard. unfold_M. mred. rewrite Hvs. eauto.
  - unfold_M. mred.
    destruct (truthy (dragPan (ctl w))); mred; [| left; reflexivity].
    right. rewrite Hvs. eauto.
Qed.

End controls_facts.

(** ** A map-like ViewportState variant *)

Module SpecMapState.

(** Modelled from the spec: the map-like variant of ViewportState, whose
    class file (map-state.js) is not among the sources.  An instance holds
    the ViewportProps and the InteractionState it was constructed from (spec
    section 3), the accessors return them, and [zoom] multiplies the current
    zoom level by the scale and clamps the result to be at least 0 (spec
    section 4.2; no maximum is configured).  The re-anchoring of the position
    under [zoom], and the operations for which the spec fixes no formula
    (anchors, projection, step sizes), leave the instance as it is. *)
Record t : Type := mk {
  props : Obj;
  interactive : Obj
}.

Definition VIEWPORT_PROPS : list string :=
  ["longitude"; "latitude"; "zoom"; "bearing"; "pitch"; "width"; "height"].

Definition INTERACTION_STATE : list string :=
  ["isDragging"; "isPanning"; "isRotating"; "isZooming";
   "startPinchRotation"; "inTransition"].

(** The properties of [o] with a name among [fields]. *)
Definition restrict (fields : list string) (o : Obj) : Obj :=
  foldr (fun k acc =>
           match o !! k with
           | Some v => <[ k := v ]> acc
           | None => acc
           end) ∅ fields.

Definition construct (o : Obj) : t :=
  mk (restrict VIEWPORT_PROPS o) (restrict INTERACTION_STATE o).

Definition zoom `{Host} (s : t) (pos : R * R) (scale : num) : t :=
  let level := to_number (get (props s) "zoom") in
  mk (<[ "zoom" := VNum (JsNum.max (Fin 0) (JsNum.mul level scale)) ]> (props s))
     (interactive s).

Definition keep (s : t) : t := s.
Definition keep_at (s : t) (pos : R * R) : t := s.
Definition keep_rotate (s : t) (deltaScaleX : num) (deltaScaleY : option num) : t := s.

Definition class `{Host} : ViewportStateClass :=
  Build_ViewportStateClass t construct true props interactive None
    keep_at keep_at keep
    keep_at keep_rotate keep
    keep_at zoom keep
    keep keep keep keep keep keep keep keep keep keep.

End SpecMapState.

(** A host for the examples.  The examples hold numbers only, so that its
    conversions are never consulted. *)
Definition example_host : Host := {|
  string_to_number := fun _ => NaN;
  ref_to_number := fun _ => NaN;
  TRANSITION_EVENTS_BREAK := VNum (Fin 1)
|}.

Definition no_keys : SrcEvent :=
  {| metaKey := false; altKey := false; ctrlKey := false; shiftKey := false;
     keyCode := 0 |}.

Definition shift_key : SrcEvent :=
  {| metaKey := false; altKey := false; ctrlKey := false; shiftKey := true;
     keyCode := 0 |}.

(** A gesture event of the given type at [pos], nothing else set. *)
Definition gesture (ty : string) (pos : R * R) (keys : SrcEvent) : Event :=
  {| type := ty; offsetCenter := pos; deltaX := 0; deltaY := 0; delta := 0;
     scale := 1; rotation := 0; rightButton := false; srcEvent := keys |}.

Definition wheel_event (pos : R * R) (d : R) : Event :=
  {| type := "wheel"; offsetCenter := pos; deltaX := 0; deltaY := 0; delta := d;
     scale := 1; rotation := 0; rightButton := false; srcEvent := no_keys |}.

(** The owner's callbacks and event manager in the examples. *)
Definition owner_onViewportChange : Value := VRef 10.
Definition owner_onStateChange : Value := VRef 11.
Definition owner_eventManager : Value := VRef 12.


Section disabled_toggles.

Context `{VS : ViewportStateClass} `{HO : Host}.

(** The event's handler starts with a toggle test, and the toggle is off. *)
Definition toggle_disabled (c : Controls) (event : Event) : bool :=
  switch (type event)
    [ ("panmove",
       if isFunctionKeyPressed event || rightButton event
       then negb (truthy (dragRotate c))
       else negb (truthy (dragPan c)));
      ("pinchmove", negb (truthy (touchZoom c)) && negb (truthy (touchRotate c)));
      ("doubletap", negb (truthy (doubleClickZoom c)));
      ("wheel", negb (truthy (scrollZoom c)));
      ("keydown", negb (truthy (keyboard c))) ]
    false.

Lemma _onWheel_disabled (event : Event) (w : World) :
  truthy (scrollZoom (ctl w)) = false -> _onWheel event w = (Ret (VBool false), w).
Proof. intros H. unfold _onWheel. unfold_M. mred. rewrite H. reflexivity. Qed.

Lemma _onDoubleTap_disabled (event : Event) (w : World) :
  truthy (doubleClickZoom (ctl w)) = false ->
  _onDoubleTap event w = (Ret (VBool false), w).
Proof. intros H. unfold _onDoubleTap. unfold_M. mred. rewrite H. reflexivity. Qed.

Lemma _onKeyDown_disabled (event : Event) (w : World) :
  truthy (keyboard (ctl w)) = false -> _onKeyDown event w = (Ret (VBool false), w).
Proof. intros H. unfold _onKeyDown. unfold_M. mred. rewrite H. reflexivity. Qed.

Lemma _onPinch_disabled (event : Event) (w : World) :
  truthy (touchZoom (ctl w)) = false -> truthy (touchRotate (ctl w)) = false ->
  _onPinch event w = (Ret (VBool false), w).
Proof. intros H1 H2. unfold _onPinch. unfold_M. mred. rewrite H1, H2. reflexivity. Qed.

Lemma _onPanMove_disabled (event : Event) (w : World) :
  truthy (dragPan (ctl w)) = false -> _onPanMove event w = (Ret (VBool false), w).
Proof. intros H. unfold _onPanMove. unfold_M. mred. rewrite H. reflexivity. Qed.

Lemma _onPanRotate_disabled (event : Event) (w : World) :
  truthy (dragRotate (ctl w)) = false -> _onPanRotate event w = (Ret (VBool false), w).
Proof. intros H. unfold _onPanRotate. unfold_M. mred. rewrite H. reflexivity. Qed.

Lemma handleEvent_disabled (event : Event) (w : World) :
  toggle_disabled (ctl w) event = true ->
  handleEvent event w = (Ret (VBool false), entered w).
Proof.
  unfold toggle_disabled, switch. intros H.
  destruct (String.eqb_spec (type event) "panmove") as [E | _].
  { rewrite handleEvent_panmove by exact E. unfold _onPan.
    destruct (isFunctionKeyPressed event || rightButton event);
      apply negb_true_iff in H.
    - apply _onPanRotate_disabled. exact H.
    - apply _onPanMove_disabled. exact H. }
  destruct (String.eqb_spec (type event) "pinchmove") as [E | _].
  { rewrite handleEvent_pinchmove by exact E.
    apply andb_true_iff in H. destruct H as [H1 H2].
    apply negb_true_iff in H1, H2. apply _onPinch_disabled; assumption. }
  destruct (String.eqb_spec (type event) "doubletap") as [E | _].
  { rewrite handleEvent_doubletap by exact E.
    apply negb_true_iff in H. apply _onDoubleTap_disabled. exact H. }
  destruct (String.eqb_spec (type event) "wheel") as [E | _].
  { rewrite handleEvent_wheel by exact E.
    apply negb_true_iff in H. apply _onWheel_disabled. exact H. }
  destruct (String.eqb_spec (type event) "keydown") as [E | _].
  { rewrite handleEvent_keydown by exact E.
    apply negb_true_iff in H. apply _onKeyDown_disabled. exact H. }
  discriminate.
Qed.

(** C6.  An event whose type is none of wheel, panstart, panmove, panend,
    pinchstart, pinchmove, pinchend, doubletap and keydown: [handleEvent]
    returns [false], does not throw, and calls neither callback. *)
Theorem unrecognized_type_is_ignored (event : Event) (w : World) :
  type event ∉ recognized ->
  fst (handleEvent event w) = Ret (VBool false) /\
  calls (snd (handleEvent event w)) = calls w /\
  snd (handleEvent event w) = entered w.
Proof.
  intros H. rewrite (handleEvent_unrecognized event w H). repeat split.
Qed.

End disabled_toggles.

(** ** Subscriptions *)

Section subscriptions.

Context `{VS : ViewportStateClass} `{HO : Host}.

(** The bookkeeping [_events] of the controller agrees with the table of
    the event manager [r]: a name that has been toggled is registered
    exactly when the value recorded for it is truthy. *)
Definition tracked (r : nat) (evs : Obj) (ls : gset (nat * string)) : Prop :=
  forall name, get evs name <> VUndef ->
    ((r, name) ∈ ls <-> truthy (get evs name) = true).

(** The state of a controller between two method calls: [events] is the
    empty list of the constructor, and the event manager is an object, with
    which the bookkeeping agrees, or absent. *)
Definition wf_world (w : World) : Prop :=
  events (ctl w) = [] /\
  match eventManager (ctl w) with
  | VRef r => exists evs, _events (ctl w) = Some evs /\ tracked r evs (listeners w)
  | VNull | VUndef => True
  | _ => False
  end.

Lemma tracked_empty (r : nat) (ls : gset (nat * string)) : tracked r ∅ ls.
Proof. intros name H. exfalso. apply H. reflexivity. Qed.

Lemma tracked_toggle (r : nat) (evs : Obj) (ls : gset (nat * string))
    (name : string) (enabled : Value) :
  tracked r evs ls ->
  tracked r (<[ name := enabled ]> evs)
    (if truthy enabled then {[ (r, name) ]} ∪ ls else ls ∖ {[ (r, name) ]}).
Proof.
  intros Ht n Hn.
  destruct (decide (name = n)) as [-> | Hne].
  - rewrite get_insert_eq. destruct (truthy enabled); split; intros H;
      try reflexivity; try discriminate; set_solver.
  - rewrite get_insert_ne in * by exact Hne.
    specialize (Ht n Hn). rewrite <- Ht.
    destruct (truthy enabled); set_solver.
Qed.

Lemma set__events_same (c : Controls) (evs : option Obj) :
  _events c = evs -> set__events evs c = c.
Proof. intros <-. destruct c. reflexivity. Qed.

(** The loop of [toggleEvents] over an event manager that is an object. *)
Lemma forEach_toggle (enabled : Value) (r : nat) (names : list string) :
  forall (c : Controls) (evs : Obj) (ls : gset (nat * string)) (cs : list Call),
  eventManager c = VRef r ->
  _events c = Some evs ->
  tracked r evs ls ->
  exists evs' ls',
    forEach names (fun eventName =>
      c ← this;
      match _events c with
      | None => throw
      | Some evs =>
          if strict_neq (get evs eventName) enabled then
            update (set__events (Some (<[ eventName := enabled ]> evs))) ;;
            if truthy enabled then em_on (eventManager c) eventName
            else em_off (eventManager c) eventName
          else mret tt
      end) (mkWorld c ls cs)
    = (Ret tt, mkWorld (set__events (Some evs') c) ls' cs) /\
    tracked r evs' ls' /\
    (forall name, name ∈ names -> get evs' name = enabled) /\
    (forall name, name ∉ names -> get evs' name = get evs name).
Proof.
  induction names as [| name names IH]; intros c evs ls cs Hem Hev Htr.
  - exists evs, ls. split; [| split; [exact Htr | split]].
    + cbn [forEach]. unfold_M. rewrite set__events_same by exact Hev. reflexivity.
    + intros name H. set_solver.
    + reflexivity.
  - cbn [forEach]. unfold_M. mred. rewrite Hev.
    destruct (strict_neq (get evs name) enabled) eqn:Hneq.
    + mred. cbn [set__events eventManager].
      set (c1 := set__events (Some (<[ name := enabled ]> evs)) c).
      set (ls1 := if truthy enabled then {[ (r, name) ]} ∪ ls else ls ∖ {[ (r, name) ]}).
      assert (Hstep :
        (if truthy enabled then em_on (eventManager c) name else em_off (eventManager c) name)
          (mkWorld c1 ls cs) = (Ret tt, mkWorld c1 ls1 cs)).
      { rewrite Hem. unfold ls1. destruct (truthy enabled); reflexivity. }
      fold c1. rewrite Hstep. cbv beta iota.
      destruct (IH c1 (<[ name := enabled ]> evs) ls1 cs) as (evs' & ls' & Hrun & Htr' & Hin & Hout).
      { exact Hem. } { reflexivity. } { apply tracked_toggle. exact Htr. }
      exists evs', ls'. unfold_M. rewrite Hrun.
      split; [reflexivity |]. split; [exact Htr' |]. split.
      * intros n Hn. destruct (decide (n ∈ names)) as [Hn' | Hn'].
        -- apply Hin. exact Hn'.
        -- rewrite Hout by exact Hn'.
           assert (n = name) as -> by set_solver. apply get_insert_eq.
      * intros n Hn. rewrite Hout by set_solver.
        apply get_insert_ne. set_solver.
    + mred.
      destruct (IH c evs ls cs Hem Hev Htr) as (evs' & ls' & Hrun & Htr' & Hin & Hout).
      exists evs', ls'. unfold_M. rewrite Hrun.
      split; [reflexivity |]. split; [exact Htr' |]. split.
      * intros n Hn. destruct (decide (n ∈ names)) as [Hn' | Hn'].
        -- apply Hin. exact Hn'.
        -- rewrite Hout by exact Hn'.
           assert (n = name) as -> by set_solver.
           apply strict_eq_eq. unfold strict_neq in Hneq.
           apply negb_false_iff in Hneq. exact Hneq.
      * intros n Hn. apply Hout. set_solver.
Qed.



Lemma toggleEvents_ref (names : list string) (enabled : Value) (r : nat)
    (c : Controls) (evs : Obj) (ls : gset (nat * string)) (cs : list Call) :
  eventManager c = VRef r ->
  _events c = Some evs ->
  tracked r evs ls ->
  exists evs' ls',
    toggleEvents names enabled (mkWorld c ls cs)
    = (Ret tt, mkWorld (set__events (Some evs') c) ls' cs) /\
    tracked r evs' ls' /\
    (forall name, name ∈ names -> get evs' name = enabled) /\
    (forall name, name ∉ names -> get evs' name = get evs name).
Proof.
  intros Hem Hev Htr.
  destruct (forEach_toggle enabled r names c evs ls cs Hem Hev Htr)
    as (evs' & ls' & Hrun & Hrest).
  exists evs', ls'. split; [| exact Hrest].
  rewrite <- Hrun. unfold toggleEvents.
  cbv [mbind M_bind this]. cbn [ctl]. rewrite Hem. reflexivity.
Qed.

Lemma toggleEvents_absent (names : list string) (enabled : Value) (w : World) :
  truthy (eventManager (ctl w)) = false ->
  toggleEvents names enabled w = (Ret tt, w).
Proof.
  intros Hem. unfold toggleEvents. cbv [mbind M_bind this]. cbn [ctl].
  rewrite Hem. reflexivity.
Qed.

Lemma bind_run {A B : Type} (m : M World A) (k : A -> M World B)
    (w w' : World) (a : A) :
  m w = (Ret a, w') -> (m ≫= k) w = k a w'.
Proof. intros H. cbv [mbind M_bind]. rewrite H. reflexivity. Qed.

(** The five calls of [toggleEvents] in [setOptions], over an event manager
    that is an object. *)
Lemma five_toggles (e1 e2 e3 e4 e5 : Value) (k : M World unit) (r : nat)
    (c : Controls) (evs : Obj) (ls : gset (nat * string)) (cs : list Call) :
  eventManager c = VRef r ->
  _events c = Some evs ->
  tracked r evs ls ->
  exists evs' ls',
    (toggleEvents EVENT_TYPES.WHEEL e1 ;;
     toggleEvents EVENT_TYPES.PAN e2 ;;
     toggleEvents EVENT_TYPES.PINCH e3 ;;
     toggleEvents EVENT_TYPES.DOUBLE_TAP e4 ;;
     toggleEvents EVENT_TYPES.KEYBOARD e5 ;;
     k) (mkWorld c ls cs)
    = k (mkWorld (set__events (Some evs') c) ls' cs) /\
    tracked r evs' ls' /\
    (forall name, name ∈ EVENT_TYPES.WHEEL -> get evs' name = e1) /\
    (forall name, name ∈ EVENT_TYPES.PAN -> get evs' name = e2) /\
    (forall name, name ∈ EVENT_TYPES.PINCH -> get evs' name = e3) /\
    (forall name, name ∈ EVENT_TYPES.DOUBLE_TAP -> get evs' name = e4) /\
    (forall name, name ∈ EVENT_TYPES.KEYBOARD -> get evs' name = e5).
Proof.
  intros Hem Hev Htr.
  destruct (toggleEvents_ref EVENT_TYPES.WHEEL e1 r c evs ls cs Hem Hev Htr)
    as (evs1 & ls1 & Hrun1 & Htr1 & Hin1 & Hout1).
  destruct (toggleEvents_ref EVENT_TYPES.PAN e2 r (set__events (Some evs1) c) evs1 ls1 cs
              Hem eq_refl Htr1)
    as (evs2 & ls2 & Hrun2 & Htr2 & Hin2 & Hout2).
  destruct (toggleEvents_ref EVENT_TYPES.PINCH e3 r (set__events (Some evs2) c) evs2 ls2 cs
              Hem eq_refl Htr2)
    as (evs3 & ls3 & Hrun3 & Htr3 & Hin3 & Hout3).
  destruct (toggleEvents_ref EVENT_TYPES.DOUBLE_TAP e4 r (set__events (Some evs3) c) evs3 ls3 cs
              Hem eq_refl Htr3)
    as (evs4 & ls4 & Hrun4 & Htr4 & Hin4 & Hout4).
  destruct (toggleEvents_ref EVENT_TYPES.KEYBOARD e5 r (set__events (Some evs4) c) evs4 ls4 cs
              Hem eq_refl Htr4)
    as (evs5 & ls5 & Hrun5 & Htr5 & Hin5 & Hout5).
  exists evs5, ls5. split.
  - rewrite (bind_run _ _ _ _ _ Hrun1).
    rewrite (bind_run _ _ _ _ _ Hrun2).
    rewrite (bind_run _ _ _ _ _ Hrun3).
    rewrite (bind_run _ _ _ _ _ Hrun4).
    rewrite (bind_run _ _ _ _ _ Hrun5).
    reflexivity.
  - split; [exact Htr5 |].
    unfold EVENT_TYPES.WHEEL, EVENT_TYPES.PAN, EVENT_TYPES.PINCH,
      EVENT_TYPES.DOUBLE_TAP, EVENT_TYPES.KEYBOARD in *.
    repeat split; intros name Hn.
    + rewrite Hout5, Hout4, Hout3, Hout2; [apply Hin1; exact Hn | | | |];
        intros Hc; set_solver.
    + rewrite Hout5, Hout4, Hout3; [apply Hin2; exact Hn | | |];
        intros Hc; set_solver.
    + rewrite Hout5, Hout4; [apply Hin3; exact Hn | |]; intros Hc; set_solver.
    + rewrite Hout5; [apply Hin4; exact Hn |]; intros Hc; set_solver.
    + apply Hin5. exact Hn.
Qed.

(** The toggle that governs the group of an event name, as the controller
    holds it. *)
Definition toggle_of (c : Controls) (name : string) : bool :=
  switch name
    [ ("wheel", truthy (scrollZoom c));
      ("panstart", truthy (dragPan c) || truthy (dragRotate c));
      ("panmove", truthy (dragPan c) || truthy (dragRotate c));
      ("panend", truthy (dragPan c) || truthy (dragRotate c));
      ("pinchstart", truthy (touchZoom c) || truthy (touchRotate c));
      ("pinchmove", truthy (touchZoom c) || truthy (touchRotate c));
      ("pinchend", truthy (touchZoom c) || truthy (touchRotate c));
      ("doubletap", truthy (doubleClickZoom c));
      ("keydown", truthy (keyboard c)) ]
    false.

(** [handleEvent] is registered for [name] on the controller's event
    manager. *)
Definition subscribed (w : World) (name : string) : Prop :=
  match eventManager (ctl w) with
  | VRef r => (r, name) ∈ listeners w
  | _ => False
  end.

Lemma is_callback_with_default (v d : Value) :
  is_callback v = true -> is_callback d = true ->
  is_callback (with_default v d) = true.
Proof. destruct v; simpl; intros; try discriminate; assumption. Qed.

Lemma is_callback_falsy (v : Value) :
  is_callback v = true -> (forall r, v <> VRef r) -> truthy v = false.
Proof.
  destruct v; simpl; intros H Hr; try discriminate; try reflexivity.
  exfalso. apply (Hr r). reflexivity.
Qed.

Ltac mstep := erewrite bind_run by reflexivity.

Lemma setOptions_run (options : Obj) (w : World) :
  wf_world w ->
  is_callback (get options "eventManager") = true ->
  exists w',
    setOptions options w = (Ret tt, w') /\
    wf_world w' /\
    calls w' = calls w /\
    onViewportChange (ctl w') = get options "onViewportChange" /\
    onStateChange (ctl w') =
      with_default (get options "onStateChange") (onStateChange (ctl w)) /\
    eventManager (ctl w') =
      with_default (get options "eventManager") (eventManager (ctl w)) /\
    scrollZoom (ctl w') = with_default (get options "scrollZoom") (VBool true) /\
    dragPan (ctl w') = with_default (get options "dragPan") (VBool true) /\
    dragRotate (ctl w') = with_default (get options "dragRotate") (VBool true) /\
    doubleClickZoom (ctl w') =
      with_default (get options "doubleClickZoom") (VBool true) /\
    touchZoom (ctl w') = with_default (get options "touchZoom") (VBool true) /\
    touchRotate (ctl w') = with_default (get options "touchRotate") (VBool false) /\
    keyboard (ctl w') = with_default (get options "keyboard") (VBool true) /\
    forall name, name ∈ recognized ->
      (subscribed w' name <->
       (exists r, eventManager (ctl w') = VRef r) /\
       truthy (onViewportChange (ctl w')) && toggle_of (ctl w') name = true).
Proof.
  intros [Hevents Hwf] Hopt.
  destruct w as [c ls cs]. cbn [ctl listeners calls] in *.
  unfold setOptions. mstep. cbv zeta.
  set (ovc := get options "onViewportChange").
  set (osc := with_default (get options "onStateChange") (onStateChange c)).
  set (em := with_default (get options "eventManager") (eventManager c)).
  set (sz := with_default (get options "scrollZoom") (VBool true)).
  set (dp := with_default (get options "dragPan") (VBool true)).
  set (dr := with_default (get options "dragRotate") (VBool true)).
  set (dcz := with_default (get options "doubleClickZoom") (VBool true)).
  set (tz := with_default (get options "touchZoom") (VBool true)).
  set (tr := with_default (get options "touchRotate") (VBool false)).
  set (kb := with_default (get options "keyboard") (VBool true)).
  do 3 mstep. cbn [ctl listeners calls].
  fold osc. fold em.
  set (c3 := set_viewStateProps (Some options)
               (set_onStateChange osc (set_onViewportChange ovc c))).
  set (c4 := if strict_neq (eventManager c) em
             then set__events (Some ∅) (set_eventManager em c3) else c3).
  assert (Hem_typed : is_callback em = true).
  { apply is_callback_with_default; [exact Hopt |].
    destruct (eventManager c); try reflexivity; contradiction. }
  assert (Hblock :
    (if strict_neq (eventManager c) em
     then update (set_eventManager em) ;;
          update (set__events (Some ∅)) ;;
          toggleEvents (events c) (VBool true)
     else mret tt) (mkWorld c3 ls cs) = (Ret tt, mkWorld c4 ls cs)).
  { unfold c4. destruct (strict_neq (eventManager c) em); [| reflexivity].
    do 2 mstep. rewrite Hevents. unfold toggleEvents.
    cbv [mbind M_bind this forEach mret M_ret update]. cbn [ctl].
    destruct (truthy _); reflexivity. }
  assert (Hem4 : eventManager c4 = em).
  { unfold c4. destruct (strict_neq (eventManager c) em) eqn:E; [reflexivity |].
    cbn. apply negb_false_iff in E. apply strict_eq_eq in E. exact E. }
  assert (Htr4 : forall r, em = VRef r ->
            exists evs, _events c4 = Some evs /\ tracked r evs ls).
  { intros r Hr. unfold c4.
    destruct (strict_neq (eventManager c) em) eqn:E.
    - exists ∅. split; [reflexivity | apply tracked_empty].
    - apply negb_false_iff in E. apply strict_eq_eq in E.
      rewrite E, Hr in Hwf. exact Hwf. }
  assert (Hfields : events c4 = [] /\ onViewportChange c4 = ovc /\ onStateChange c4 = osc).
  { unfold c4. destruct (strict_neq (eventManager c) em); repeat split; exact Hevents. }
  destruct Hfields as (Hev4 & Hovc4 & Hosc4).
  clearbody c4.
  rewrite (bind_run _ _ _ _ _ Hblock).
  set (e1 := js_and (VBool (truthy ovc)) sz).
  set (e2 := js_and (VBool (truthy ovc)) (js_or dp dr)).
  set (e3 := js_and (VBool (truthy ovc)) (js_or tz tr)).
  set (e4 := js_and (VBool (truthy ovc)) dcz).
  set (e5 := js_and (VBool (truthy ovc)) kb).
  assert (Hsz : sz <> VUndef) by (apply with_default_not_undef; discriminate).
  assert (Hdr : dr <> VUndef) by (apply with_default_not_undef; discriminate).
  assert (Htrn : tr <> VUndef) by (apply with_default_not_undef; discriminate).
  assert (Hdcz : dcz <> VUndef) by (apply with_default_not_undef; discriminate).
  assert (Hkb : kb <> VUndef) by (apply with_default_not_undef; discriminate).
  destruct em as [| | b | n | s | r] eqn:Eem; try discriminate.
  - (* no event manager: undefined *)
    rewrite !(bind_run _ _ _ _ _ (toggleEvents_absent _ _ (mkWorld c4 ls cs)
               ltac:(cbn [ctl]; rewrite Hem4; reflexivity))).
    eexists. split; [reflexivity |]. cbn [ctl listeners calls].
    split; [split; [exact Hev4 | cbn; rewrite Hem4; exact I] |].
    repeat (split; [first [reflexivity | assumption] |]).
    intros name Hn. unfold subscribed. cbn. rewrite Hem4.
    split; [contradiction | intros [[r Hr] _]; discriminate].
  - (* no event manager: null *)
    rewrite !(bind_run _ _ _ _ _ (toggleEvents_absent _ _ (mkWorld c4 ls cs)
               ltac:(cbn [ctl]; rewrite Hem4; reflexivity))).
    eexists. split; [reflexivity |]. cbn [ctl listeners calls].
    split; [split; [exact Hev4 | cbn; rewrite Hem4; exact I] |].
    repeat (split; [first [reflexivity | assumption] |]).
    intros name Hn. unfold subscribed. cbn. rewrite Hem4.
    split; [contradiction | intros [[r Hr] _]; discriminate].
  - (* an event manager *)
    destruct (Htr4 r eq_refl) as (evs4 & Hevs4 & Htrk4).
    destruct (five_toggles e1 e2 e3 e4 e5 (update (set_toggles sz dp dr dcz tz tr kb))
                r c4 evs4 ls cs Hem4 Hevs4 Htrk4)
      as (evs' & ls' & Hrun & Htr' & H1 & H2 & H3 & H4 & H5).
    rewrite Hrun.
    eexists. split; [reflexivity |]. cbn [ctl listeners calls].
    split.
    { split; [exact Hev4 |]. cbn. rewrite Hem4. exists evs'. split; [reflexivity | exact Htr']. }
    repeat (split; [first [reflexivity | assumption] |]).
    intros name Hn. unfold subscribed. cbn. rewrite Hem4, Hovc4.
    assert (Hgoal : (r, name) ∈ ls' <-> truthy ovc &&
              toggle_of (set_toggles sz dp dr dcz tz tr kb (set__events (Some evs') c4)) name = true).
    { unfold recognized, EVENT_TYPES.WHEEL, EVENT_TYPES.PAN, EVENT_TYPES.PINCH,
        EVENT_TYPES.DOUBLE_TAP, EVENT_TYPES.KEYBOARD in *.
      cbn [app] in Hn.
      assert (Hcase :
        (name ∈ ["wheel"] /\ toggle_of (set_toggles sz dp dr dcz tz tr kb (set__events (Some evs') c4)) name = truthy sz) \/
        (name ∈ ["panstart"; "panmove"; "panend"] /\ toggle_of (set_toggles sz dp dr dcz tz tr kb (set__events (Some evs') c4)) name = truthy dp || truthy dr) \/
        (name ∈ ["pinchstart"; "pinchmove"; "pinchend"] /\ toggle_of (set_toggles sz dp dr dcz tz tr kb (set__events (Some evs') c4)) name = truthy tz || truthy tr) \/
        (name ∈ ["doubletap"] /\ toggle_of (set_toggles sz dp dr dcz tz tr kb (set__events (Some evs') c4)) name = truthy dcz) \/
        (name ∈ ["keydown"] /\ toggle_of (set_toggles sz dp dr dcz tz tr kb (set__events (Some evs') c4)) name = truthy kb)).
      { repeat (apply elem_of_cons in Hn as [-> | Hn]);
          [ left | right; left | right; left | right; left
          | right; right; left | right; right; left | right; right; left
          | right; right; right; left | right; right; right; right | ];
          try (split; [set_solver | reflexivity]).
        apply elem_of_nil in Hn. contradiction. }
      destruct Hcase as [[Hin Ht] | [[Hin Ht] | [[Hin Ht] | [[Hin Ht] | [Hin Ht]]]]];
        rewrite Ht.
      - rewrite <- truthy_js_and. fold e1. rewrite <- (H1 name Hin).
        apply Htr'. rewrite (H1 name Hin). apply js_and_bool_not_undef. exact Hsz.
      - rewrite <- truthy_js_or, <- truthy_js_and. fold e2. rewrite <- (H2 name Hin).
        apply Htr'. rewrite (H2 name Hin). apply js_and_bool_not_undef.
        apply js_or_not_undef. exact Hdr.
      - rewrite <- truthy_js_or, <- truthy_js_and. fold e3. rewrite <- (H3 name Hin).
        apply Htr'. rewrite (H3 name Hin). apply js_and_bool_not_undef.
        apply js_or_not_undef. exact Htrn.
      - rewrite <- truthy_js_and. fold e4. rewrite <- (H4 name Hin).
        apply Htr'. rewrite (H4 name Hin). apply js_and_bool_not_undef. exact Hdcz.
      - rewrite <- truthy_js_and. fold e5. rewrite <- (H5 name Hin).
        apply Htr'. rewrite (H5 name Hin). apply js_and_bool_not_undef. exact Hkb. }
    rewrite Hgoal. split; [intros H; split; [eauto | exact H] | intros [_ H]; exact H].
Qed.

Lemma wf_new_controls (ls : gset (nat * string)) (cs : list Call) :
  wf_world (mkWorld new_controls ls cs).
Proof. split; [reflexivity | exact I]. Qed.

End subscriptions.

(** ** What the handlers leave alone *)

Section frame.

Context `{VS : ViewportStateClass} `{HO : Host}.

(** The configuration of the controller: everything but [viewState] and
    [_state]. *)
Definition config (c : Controls) :=
  (viewStateProps c, eventManager c, _events c, events c,
   onViewportChange c, onStateChange c,
   (scrollZoom c, dragPan c, dragRotate c, doubleClickZoom c,
    touchZoom c, touchRotate c, keyboard c)).

Definition keeps_config {A : Type} (m : M World A) : Prop :=
  forall w, config (ctl (snd (m w))) = config (ctl w) /\
            listeners (snd (m w)) = listeners w.

Lemma keeps_ret {A : Type} (a : A) : keeps_config (mret a : M World A).
Proof. intros w. split; reflexivity. Qed.

Lemma keeps_throw {A : Type} : keeps_config (throw : M World A).
Proof. intros w. split; reflexivity. Qed.

Lemma keeps_bind {A B : Type} (m : M World A) (k : A -> M World B) :
  keeps_config m -> (forall a, keeps_config (k a)) -> keeps_config (m ≫= k).
Proof.
  intros Hm Hk w. cbv [mbind M_bind]. specialize (Hm w).
  destruct (m w) as [[a |] w1]; cbn [snd] in *; [| exact Hm].
  destruct (Hk a w1) as [H1 H2]. destruct Hm as [H3 H4].
  split; congruence.
Qed.

Lemma keeps_this {B : Type} (k : Controls -> M World B) :
  (forall c, keeps_config (k c)) -> keeps_config (this ≫= k).
Proof. intros Hk. apply keeps_bind; [| exact Hk]. intros w. split; reflexivity. Qed.

Lemma keeps_update (f : Controls -> Controls) :
  (forall c, config (f c) = config c) -> keeps_config (update f).
Proof. intros Hf w. split; [apply Hf | reflexivity]. Qed.

Lemma keeps_with_viewState {A : Type} (k : vstate -> M World A) :
  (forall vs, keeps_config (k vs)) -> keeps_config (with_viewState k).
Proof.
  intros Hk. unfold with_viewState. apply keeps_this. intros c.
  destruct (viewState c); [apply Hk | apply keeps_throw].
Qed.

Lemma keeps_call_onViewportChange (f : Value) (p : Obj) (v : Value) :
  keeps_config (call_onViewportChange f p v).
Proof. destruct f; intros w; split; reflexivity. Qed.

Lemma keeps_call_onStateChange (f : Value) (s : Obj) :
  keeps_config (call_onStateChange f s).
Proof. destruct f; intros w; split; reflexivity. Qed.

Lemma keeps_setState (newState : Obj) : keeps_config (setState newState).
Proof.
  unfold setState. apply keeps_bind.
  - apply keeps_update. reflexivity.
  - intros _. apply keeps_this. intros c.
    destruct (truthy (onStateChange c));
      [apply keeps_call_onStateChange | apply keeps_ret].
Qed.

Lemma keeps_updateViewport (newViewportState : vstate) (extraProps : option Obj)
    (extraState : Obj) :
  keeps_config (updateViewport newViewportState extraProps extraState).
Proof.
  unfold updateViewport. apply keeps_with_viewState. intros vs.
  apply keeps_this. intros c. apply keeps_bind.
  - destruct (_ && _); [apply keeps_call_onViewportChange | apply keeps_ret].
  - intros _. apply keeps_bind; [apply keeps_setState | intros _; apply keeps_ret].
Qed.

Lemma keeps_switch {A : Type} (s : string) (cases : list (string * M World A))
    (default : M World A) :
  Forall (fun kv => keeps_config kv.2) cases -> keeps_config default ->
  keeps_config (switch s cases default).
Proof.
  intros Hc Hd. induction Hc as [| [k a] rest Ha _ IH]; cbn [switch].
  - exact Hd.
  - destruct (String.eqb s k); [exact Ha | exact IH].
Qed.

Ltac keeps :=
  repeat first
    [ apply keeps_updateViewport
    | apply keeps_ret
    | apply keeps_throw
    | apply keeps_with_viewState; intros ?
    | apply keeps_this; intros ?
    | apply keeps_bind; [| intros ?]
    | apply keeps_update; reflexivity
    | progress cbv zeta
    | match goal with
      | |- keeps_config (if ?b then _ else _) => destruct b
      | |- keeps_config (match ?z with _ => _ end) => destruct z
      end ].

Lemma keeps_handleEvent (event : Event) : keeps_config (handleEvent event).
Proof.
  unfold handleEvent. apply keeps_this. intros c. apply keeps_bind.
  { apply keeps_update. reflexivity. }
  intros _. apply keeps_switch; [| apply keeps_ret].
  repeat apply Forall_cons_2; try apply Forall_nil_2; cbn [snd].
  - unfold _onPanStart. keeps.
  - unfold _onPan, _onPanRotate, _onPanMove, _onPanRotateMap, _onPanRotateStandard.
    keeps.
  - unfold _onPanEnd. keeps.
  - unfold _onPinchStart. keeps.
  - unfold _onPinch. keeps.
  - unfold _onPinchEnd. keeps.
  - unfold _onDoubleTap. keeps.
  - unfold _onWheel. keeps.
  - unfold _onKeyDown. apply keeps_this. intros c'.
    destruct (negb _); [apply keeps_ret |].
    cbv zeta.
    destruct (keyCode (srcEvent event)) as [| p | p]; try apply keeps_ret.
    keeps.
Qed.

End frame.

(** ** Dragging *)

Section dragging.

Context `{VS : ViewportStateClass} `{HO : Host}.

Lemma state_calls_app (l1 l2 : list Call) :
  state_calls (l1 ++ l2) = state_calls l1 ++ state_calls l2.
Proof. unfold state_calls. apply omap_app. Qed.

Lemma viewport_calls_app (l1 l2 : list Call) :
  viewport_calls (l1 ++ l2) = viewport_calls l1 ++ viewport_calls l2.
Proof. unfold viewport_calls. apply omap_app. Qed.

Lemma state_calls_viewport_call (c : Controls) (vs nvs : vstate) (ep : option Obj) :
  state_calls (viewport_call c vs nvs ep) = [].
Proof.
  unfold viewport_call. destruct (onViewportChange c); try reflexivity.
  destruct (viewport_differs _ _); reflexivity.
Qed.

Lemma get_merged_state_isDragging (c : Controls) (nvs : vstate) (b : bool) :
  get (merged_state c nvs {[ "isDragging" := VBool b ]}) "isDragging" = VBool b.
Proof.
  unfold merged_state, assign, get.
  erewrite lookup_union_Some_l; [reflexivity |].
  apply lookup_union_Some_l. apply lookup_singleton_eq.
Qed.

(** An [updateViewport] that sets [isDragging] reports it, once. *)
Lemma updateViewport_reports (w : World) (vs nvs : vstate) (ep : option Obj)
    (b : bool) (f : nat) :
  viewState (ctl w) = Some vs ->
  is_callback (onViewportChange (ctl w)) = true ->
  onStateChange (ctl w) = VRef f ->
  exists st,
    state_calls (calls (snd (updateViewport nvs ep {[ "isDragging" := VBool b ]} w))) =
      state_calls (calls w) ++ [(f, st)] /\
    get st "isDragging" = VBool b /\
    _state (ctl (snd (updateViewport nvs ep {[ "isDragging" := VBool b ]} w))) = st.
Proof.
  intros Hvs Hv Hs.
  rewrite (updateViewport_spec w vs) by (try assumption; rewrite Hs; reflexivity).
  cbn [snd calls ctl].
  exists (merged_state (ctl w) nvs {[ "isDragging" := VBool b ]}).
  split; [| split].
  - rewrite !state_calls_app, state_calls_viewport_call.
    unfold state_call. rewrite Hs. reflexivity.
  - apply get_merged_state_isDragging.
  - reflexivity.
Qed.

(** The properties of a world that a drag relies on and that every event
    keeps. *)
Definition reporting (f : nat) (w : World) : Prop :=
  is_callback (onViewportChange (ctl w)) = true /\ onStateChange (ctl w) = VRef f.

Lemma reporting_entered (f : nat) (w : World) : reporting f w -> reporting f (entered w).
Proof. intros H. exact H. Qed.

Lemma reporting_handleEvent (f : nat) (event : Event) (w : World) :
  reporting f w -> reporting f (snd (handleEvent event w)).
Proof.
  intros [Hv Hs]. destruct (keeps_handleEvent event w) as [Hc _].
  unfold config in Hc. unfold reporting. split; congruence.
Qed.

Lemma panstart_reports (f : nat) (event : Event) (w : World) :
  type event = "panstart" -> reporting f w ->
  exists st,
    state_calls (calls (snd (handleEvent event w))) = state_calls (calls w) ++ [(f, st)] /\
    get st "isDragging" = VBool true /\
    _state (ctl (snd (handleEvent event w))) = st.
Proof.
  intros Hty [Hv Hs].
  rewrite handleEvent_panstart by exact Hty.
  rewrite (_onPanStart_acts _ _ (fresh_viewState (ctl w))) by reflexivity.
  apply (updateViewport_reports (entered w) (fresh_viewState (ctl w)));
    [reflexivity | exact Hv | exact Hs].
Qed.

Lemma panend_reports (f : nat) (event : Event) (w : World) :
  type event = "panend" -> reporting f w ->
  exists st,
    state_calls (calls (snd (handleEvent event w))) = state_calls (calls w) ++ [(f, st)] /\
    get st "isDragging" = VBool false /\
    _state (ctl (snd (handleEvent event w))) = st.
Proof.
  intros Hty [Hv Hs].
  rewrite handleEvent_panend by exact Hty.
  rewrite (_onPanEnd_acts _ _ (fresh_viewState (ctl w))) by reflexivity.
  apply (updateViewport_reports (entered w) (fresh_viewState (ctl w)));
    [reflexivity | exact Hv | exact Hs].
Qed.

Lemma panmove_reports (f : nat) (event : Event) (w : World) :
  type event = "panmove" -> reporting f w ->
  get (_state (ctl w)) "isDragging" = VBool true ->
  exists reports,
    state_calls (calls (snd (handleEvent event w))) = state_calls (calls w) ++ reports /\
    Forall (fun p => get p.2 "isDragging" = VBool true) reports /\
    get (_state (ctl (snd (handleEvent event w)))) "isDragging" = VBool true.
Proof.
  intros Hty [Hv Hs] Hd.
  rewrite handleEvent_panmove by exact Hty.
  destruct (_onPan_cases event (entered w) (fresh_viewState (ctl w)) eq_refl)
    as [Hig | [nvs Hact]].
  - rewrite Hig. exists []. rewrite app_nil_r.
    split; [reflexivity |]. split; [constructor | exact Hd].
  - rewrite Hact.
    destruct (updateViewport_reports (entered w) (fresh_viewState (ctl w)) nvs
                (Some NO_TRANSITION_PROPS) true f eq_refl Hv Hs)
      as (st & Hcalls & Hst & Hstate).
    exists [(f, st)]. split; [exact Hcalls |]. split.
    + constructor; [exact Hst | constructor].
    + rewrite Hstate. exact Hst.
Qed.

Lemma handleEvents_app (l1 l2 : list Event) (w : World) :
  handleEvents (l1 ++ l2) w = handleEvents l2 (handleEvents l1 w).
Proof. unfold handleEvents. apply foldl_app. Qed.

Lemma panmoves_report (f : nat) (moves : list Event) :
  forall w,
  Forall (fun e => type e = "panmove") moves ->
  reporting f w ->
  get (_state (ctl w)) "isDragging" = VBool true ->
  exists reports,
    state_calls (calls (handleEvents moves w)) = state_calls (calls w) ++ reports /\
    Forall (fun p => get p.2 "isDragging" = VBool true) reports /\
    get (_state (ctl (handleEvents moves w))) "isDragging" = VBool true /\
    reporting f (handleEvents moves w).
Proof.
  induction moves as [| e moves IH]; intros w Hall Hr Hd.
  - exists []. rewrite app_nil_r. repeat split; try assumption; try apply Hr. constructor.
  - apply Forall_cons in Hall as [He Hall].
    destruct (panmove_reports f e w He Hr Hd) as (r1 & Hc1 & Hf1 & Hd1).
    destruct (IH (snd (handleEvent e w)) Hall (reporting_handleEvent f e w Hr) Hd1)
      as (r2 & Hc2 & Hf2 & Hd2 & Hr2).
    exists (r1 ++ r2). cbn [handleEvents foldl]. fold (handleEvents moves (snd (handleEvent e w))).
    rewrite Hc2, Hc1, <- app_assoc.
    split; [reflexivity |]. split; [apply Forall_app; split; assumption |].
    split; assumption.
Qed.

(** C9.  A panstart, any number of panmoves, then a panend, on a controller
    with an onStateChange callback: every state reported from the panstart
    through the last panmove has isDragging true (and there is at least one
    such report, and the controller's own isDragging is true at that point);
    the panend then makes one more call, the last, whose state has isDragging
    false. *)
Theorem drag_sequence_reports (w : World) (start : Event) (moves : list Event)
    (finish : Event) (f : nat) :
  type start = "panstart" ->
  Forall (fun e => type e = "panmove") moves ->
  type finish = "panend" ->
  is_callback (onViewportChange (ctl w)) = true ->
  onStateChange (ctl w) = VRef f ->
  exists during last,
    state_calls (calls (handleEvents (start :: moves) w)) =
      state_calls (calls w) ++ during /\
    during <> [] /\
    Forall (fun p => get p.2 "isDragging" = VBool true) during /\
    isDragging (ctl (handleEvents (start :: moves) w)) = VBool true /\
    state_calls (calls (handleEvents (start :: moves ++ [finish]) w)) =
      state_calls (calls w) ++ during ++ [(f, last)] /\
    get last "isDragging" = VBool false.
Proof.
  intros Hs Hm Hf Hv Ho.
  assert (Hr : reporting f w) by (split; assumption).
  destruct (panstart_reports f start w Hs Hr) as (st & Hc0 & Hst & Hstate).
  set (w1 := snd (handleEvent start w)) in *.
  assert (Hr1 : reporting f w1) by (apply reporting_handleEvent; exact Hr).
  assert (Hd1 : get (_state (ctl w1)) "isDragging" = VBool true)
    by (rewrite Hstate; exact Hst).
  destruct (panmoves_report f moves w1 Hm Hr1 Hd1) as (r & Hc1 & Hall & Hd2 & Hr2).
  destruct (panend_reports f finish (handleEvents moves w1) Hf Hr2)
    as (last & Hc2 & Hlast & _).
  assert (Hrun : handleEvents (start :: moves) w = handleEvents moves w1) by reflexivity.
  exists ((f, st) :: r), last.
  rewrite app_comm_cons, handleEvents_app, Hrun.
  split; [| split; [| split; [| split; [| split]]]].
  - rewrite Hc1, Hc0, <- app_assoc. reflexivity.
  - discriminate.
  - constructor; [exact Hst | exact Hall].
  - exact Hd2.
  - cbn [handleEvents foldl]. rewrite Hc2, Hc1, Hc0, <- !app_assoc. reflexivity.
  - exact Hlast.
Qed.

End dragging.

(** ** Wheel and pitch arithmetic *)

Section arithmetic.

Context `{VS : ViewportStateClass} `{HO : Host}.

(** With numbers as reals, a wheel event handled with scrollZoom on passes
    to the ViewportState's [zoom] the scale 2 / (1 + e^(-|delta| * 0.01))
    when delta >= 0 and the reciprocal of that when delta < 0, which lies
    strictly between 1/2 and 2. *)
Theorem wheel_scale_in_exact_arithmetic (event : Event) (w : World) :
  type event = "wheel" ->
  truthy (scrollZoom (ctl w)) = true ->
  exists s : R,
    handleEvent event w =
      updateViewport (zoom (fresh_viewState (ctl w)) (getCenter event) (Fin s))
        (Some NO_TRANSITION_PROPS) ∅ (entered w) /\
    (0 <= delta event -> s = 2 / (1 + exp (- (Rabs (delta event) * 0.01)))) /\
    (delta event < 0 -> s = 1 / (2 / (1 + exp (- (Rabs (delta event) * 0.01))))) /\
    1 / 2 < s < 2.
Proof.
  intros Hty Hon.
  rewrite handleEvent_wheel by exact Hty.
  rewrite (_onWheel_enabled event (entered w) (fresh_viewState (ctl w)))
    by (try exact Hon; reflexivity).
  pose proof (saturating_bounds (delta event)) as [Hlo Hhi].
  pose proof (half_lt_inv_saturating (delta event)) as [Hlo' Hhi'].
  destruct (Rle_dec 0 (delta event)) as [Hd | Hd].
  - exists (saturating (delta event)).
    rewrite wheelScale_nonneg by exact Hd.
    split; [reflexivity |]. split; [intros _; reflexivity |].
    split; [intros Hn; lra | lra].
  - exists (1 / saturating (delta event)).
    rewrite wheelScale_neg by lra.
    split; [reflexivity |]. split; [intros Hn; lra |].
    split; [intros _; reflexivity | lra].
Qed.

Lemma clamp_fin (x : R) :
  JsNum.min (Fin 1) (JsNum.max (Fin (-1)) (Fin x)) = Fin (Rmin 1 (Rmax (-1) x)).
Proof.
  unfold JsNum.max, JsNum.min, JsNum.ltb, Rltb, Rmin, Rmax.
  destruct (Rlt_dec (-1) x), (Rle_dec (-1) x); try lra;
    cbv beta iota;
    repeat match goal with
    | |- context [Rlt_dec ?a ?b] => destruct (Rlt_dec a b)
    | |- context [Rle_dec ?a ?b] => destruct (Rle_dec a b)
    end; try reflexivity; try lra; f_equal; lra.
Qed.

Lemma clamp_bounds (x : R) : -1 <= Rmin 1 (Rmax (-1) x) <= 1.
Proof.
  unfold Rmin, Rmax.
  destruct (Rle_dec (-1) x); destruct (Rle_dec 1 _); lra.
Qed.

(** The pitch fraction before the clamp is a finite number, given by the
    two formulas where their guards hold and 0 elsewhere. *)
Lemma mapDeltaScaleY_raw (event : Event) (height : num) :
  exists x : R,
    mapDeltaScaleY event height = Fin (Rmin 1 (Rmax (-1) x)) /\
    (forall h, height = Fin h -> 0 < deltaY event ->
       Rabs (h - (snd (getCenter event) - deltaY event)) > PITCH_MOUSE_THRESHOLD ->
       x = deltaY event / ((snd (getCenter event) - deltaY event) - h) * PITCH_ACCEL) /\
    (deltaY event < 0 ->
       snd (getCenter event) - deltaY event > PITCH_MOUSE_THRESHOLD ->
       x = 1 - snd (getCenter event) / (snd (getCenter event) - deltaY event)).
Proof.
  unfold mapDeltaScaleY. cbv zeta.
  set (dY := deltaY event). set (cY := snd (getCenter event)).
  unfold Rltb at 1.
  destruct (Rlt_dec 0 dY) as [Hpos | Hnpos].
  - destruct height as [h | | |].
    + cbn [JsNum.sub JsNum.neg JsNum.add JsNum.abs JsNum.gtb JsNum.ltb].
      unfold Rltb. destruct (Rlt_dec PITCH_MOUSE_THRESHOLD (Rabs (h + - (cY - dY)))) as [Hfar | Hnear].
      * cbn [JsNum.div]. rewrite Reqb_false.
        2:{ unfold PITCH_MOUSE_THRESHOLD in Hfar. intros E.
            replace (h + - (cY - dY)) with (- (cY - dY + - h)) in Hfar by lra.
            rewrite E, Ropp_0, Rabs_R0 in Hfar. lra. }
        cbn [JsNum.mul]. eexists. split; [apply clamp_fin |]. split.
        -- intros h' [= <-] _ _. unfold Rminus. reflexivity.
        -- intros Hneg. lra.
      * exists 0. split; [apply clamp_fin |]. split.
        -- intros h' [= <-] _ Hfar. exfalso. apply Hnear. exact Hfar.
        -- intros Hneg. lra.
    + cbn. eexists. split; [apply clamp_fin |]. split.
      * intros h' Hh. discriminate.
      * intros Hneg. lra.
    + cbn. eexists. split; [apply clamp_fin |]. split.
      * intros h' Hh. discriminate.
      * intros Hneg. lra.
    + cbn. eexists. split; [apply clamp_fin |]. split.
      * intros h' Hh. discriminate.
      * intros Hneg. lra.
  - unfold Rltb. destruct (Rlt_dec dY 0) as [Hneg | Hnneg].
    + destruct (Rlt_dec PITCH_MOUSE_THRESHOLD (cY - dY)) as [Hfar | Hnear].
      * eexists. split; [apply clamp_fin |]. split.
        -- intros h' _ Hp. lra.
        -- intros _ _. reflexivity.
      * exists 0. split; [apply clamp_fin |]. split.
        -- intros h' _ Hp. lra.
        -- intros _ Hfar. lra.
    + exists 0. split; [apply clamp_fin |]. split.
      * intros h' _ Hp. lra.
      * intros Hneg. lra.
Qed.

(** C8.  Pan-to-rotate on the map-like path: the pitch fraction passed to
    [rotate] is a number of [-1, 1]; it is the clamp of
    deltaY / (startY - height) * 1.2 when the drag goes down (deltaY > 0)
    and starts more than 5 pixels away from y = height, and the clamp of
    1 - centerY / startY when the drag goes up (deltaY < 0) and starts below
    y = 5 (numbers as reals). *)
Theorem map_pitch_fraction_is_clamped (event : Event) (w : World) (vs : vstate) :
  viewState (ctl w) = Some vs ->
  let centerY := snd (getCenter event) in
  let startY := centerY - deltaY event in
  let height := to_number (get (getViewportProps vs) "height") in
  exists (deltaScaleX : num) (deltaScaleY : R),
    _onPanRotateMap event w =
      updateViewport (rotate vs deltaScaleX (Some (Fin deltaScaleY)))
        (Some NO_TRANSITION_PROPS) {[ "isDragging" := VBool true ]} w /\
    -1 <= deltaScaleY <= 1 /\
    (forall h, height = Fin h -> 0 < deltaY event -> Rabs (h - startY) > 5 ->
       deltaScaleY = Rmin 1 (Rmax (-1) (deltaY event / (startY - h) * 1.2))) /\
    (deltaY event < 0 -> startY > 5 ->
       deltaScaleY = Rmin 1 (Rmax (-1) (1 - centerY / startY))).
Proof.
  intros Hvs centerY startY height.
  destruct (mapDeltaScaleY_raw event height) as (x & Hx & Hdown & Hup).
  eexists. exists (Rmin 1 (Rmax (-1) x)).
  split; [| split; [apply clamp_bounds | split]].
  - unfold _onPanRotateMap. unfold_M. mred. rewrite Hvs.
    fold height. rewrite Hx. reflexivity.
  - intros h Hh Hd Hfar. rewrite (Hdown h Hh Hd Hfar). reflexivity.
  - intros Hd Hfar. rewrite (Hup Hd Hfar). reflexivity.
Qed.

End arithmetic.

(** ** The callback fires on a difference of the proposed object *)

Section viewport_change.

Context `{VS : ViewportStateClass} `{HO : Host}.

Lemma viewport_calls_state_call (c : Controls) (st : Obj) :
  viewport_calls (state_call c st) = [].
Proof. unfold state_call. destruct (onStateChange c); reflexivity. Qed.

(** The calls to [onViewportChange] that [updateViewport] adds, whatever
    [onStateChange] is. *)
Lemma updateViewport_viewport_calls (w : World) (vs newViewportState : vstate)
    (extraProps : option Obj) (extraState : Obj) :
  viewState (ctl w) = Some vs ->
  is_callback (onViewportChange (ctl w)) = true ->
  viewport_calls (calls (snd (updateViewport newViewportState extraProps extraState w))) =
  viewport_calls (calls w)
    ++ viewport_calls (viewport_call (ctl w) vs newViewportState extraProps).
Proof.
  intros Hvs Hv.
  destruct (is_callback (onStateChange (ctl w))) eqn:Hs.
  - rewrite (updateViewport_spec w vs) by assumption. cbn [snd calls].
    rewrite !viewport_calls_app, viewport_calls_state_call, app_nil_r. reflexivity.
  - unfold updateViewport, setState, viewport_call,
      call_onViewportChange, call_onStateChange.
    fold (proposed newViewportState extraProps).
    unfold_M.
    destruct w as [c ls cs]. cbn [ctl listeners calls] in *. rewrite Hvs.
    fold (viewport_arg vs).
    destruct (onViewportChange c) as [| | b | n | s | f] eqn:Ev; try discriminate;
      destruct (onStateChange c) as [| | b' | n' | s' | g] eqn:Es; try discriminate;
      try destruct (viewport_differs (getViewportProps vs) (proposed newViewportState extraProps));
      cbn -[assign assign_opt viewport_differs proposed viewport_arg viewport_calls];
      rewrite ?Ev, ?Es;
      cbn -[assign assign_opt viewport_differs proposed viewport_arg viewport_calls];
      rewrite ?Ev, ?Es;
      cbn -[assign assign_opt viewport_differs proposed viewport_arg viewport_calls];
      try destruct b'; try destruct n'; try destruct s';
      cbn -[assign assign_opt viewport_differs proposed viewport_arg viewport_calls];
      repeat match goal with
      | |- context [if ?b then _ else _] => destruct b
      end;
      cbn -[assign assign_opt viewport_differs proposed viewport_arg viewport_calls];
      rewrite ?viewport_calls_app, ?app_nil_r; reflexivity.
Qed.

(** C3, as the code has it.  With an onViewportChange callback set,
    [updateViewport] calls it exactly when some property of the object it
    proposes (the new ViewportProps merged with the transition props of the
    gesture) is not strictly equal to the property of that name of the
    previous ViewportProps, once, with the proposed object; when no property
    differs, or when no callback is set, it does not call it. *)
Theorem onViewportChange_iff_proposal_differs (w : World)
    (vs newViewportState : vstate) (extraProps : option Obj) (extraState : Obj) :
  viewState (ctl w) = Some vs ->
  is_callback (onViewportChange (ctl w)) = true ->
  let oldViewport := getViewportProps vs in
  let newViewport :=
    assign_opt (assign ∅ (getViewportProps newViewportState)) extraProps in
  let made :=
    viewport_calls
      (calls (snd (updateViewport newViewportState extraProps extraState w))) in
  (forall f, onViewportChange (ctl w) = VRef f ->
     (exists key, is_Some (newViewport !! key) /\
        strict_neq (get oldViewport key) (get newViewport key) = true) ->
     made = viewport_calls (calls w) ++ [(f, newViewport, viewport_arg vs)]) /\
  ((forall key, is_Some (newViewport !! key) ->
      strict_neq (get oldViewport key) (get newViewport key) = false) ->
   made = viewport_calls (calls w)) /\
  (truthy (onViewportChange (ctl w)) = false -> made = viewport_calls (calls w)).
Proof.
  intros Hvs Hv oldViewport newViewport made.
  unfold made. rewrite (updateViewport_viewport_calls w vs) by assumption.
  unfold viewport_call. fold (proposed newViewportState extraProps).
  change (proposed newViewportState extraProps) with newViewport.
  fold oldViewport.
  split; [| split].
  - intros f Hf Hex. rewrite Hf.
    apply viewport_differs_spec in Hex. rewrite Hex. reflexivity.
  - intros Hall.
    destruct (viewport_differs oldViewport newViewport) eqn:Hd.
    + apply viewport_differs_spec in Hd. destruct Hd as (key & Hin & Hne).
      rewrite (Hall key Hin) in Hne. discriminate.
    + destruct (onViewportChange (ctl w)); rewrite app_nil_r; reflexivity.
  - intros Hunset.
    destruct (onViewportChange (ctl w)); try discriminate;
      rewrite app_nil_r; reflexivity.
Qed.

End viewport_change.

(** ** Scenarios on the map-like variant *)

Section scenarios.

Context `{HO : Host}.
#[local] Existing Instance SpecMapState.class.

(** A controller constructed for a state [{zoom: z, bearing: 0, pitch: 0}]
    with an onViewportChange callback and no event manager; events are
    handed to [handleEvent] directly. *)
Definition options_at_zoom (z : R) : Obj :=
  <[ "zoom" := VNum (Fin z) ]>
  (<[ "bearing" := VNum (Fin 0) ]>
  (<[ "pitch" := VNum (Fin 0) ]>
  {[ "onViewportChange" := owner_onViewportChange ]})).

Definition controls_at_zoom (z : R) : World :=
  snd (constructor (options_at_zoom z) ∅ []).

Lemma controls_at_zoom_eq (z : R) :
  constructor (options_at_zoom z) ∅ [] =
  (Ret tt,
   mkWorld
     (mkControls None (Some (options_at_zoom z)) VNull None
        {[ "isDragging" := VBool false ]} []
        owner_onViewportChange VUndef
        (VBool true) (VBool true) (VBool true) (VBool true) (VBool true)
        (VBool false) (VBool true))
     ∅ []).
Proof. reflexivity. Qed.

Lemma spec_zoom_level (s : SpecMapState.t) (pos : R * R) (z k : R) :
  get (SpecMapState.props s) "zoom" = VNum (Fin z) ->
  0 < z * k ->
  SpecMapState.props (SpecMapState.zoom s pos (Fin k)) =
  <[ "zoom" := VNum (Fin (z * k)) ]> (SpecMapState.props s).
Proof.
  intros Hz Hk. unfold SpecMapState.zoom. cbn [SpecMapState.props].
  rewrite Hz. cbn [to_number JsNum.mul JsNum.max JsNum.ltb].
  rewrite (Rltb_true 0 (z * k)) by exact Hk. reflexivity.
Qed.

(** A zoom by [k] with transition props [extra] that carry a
    transitionDuration, proposed by a controller at zoom [z]. *)
Lemma zoom_proposal (z k : R) (pos : R * R) (extra : Obj) (d : R) :
  0 < z * k ->
  extra !! "transitionDuration" = Some (VNum (Fin d)) ->
  extra !! "zoom" = None ->
  let w := entered (controls_at_zoom z) in
  let vs := fresh_viewState (ctl (controls_at_zoom z)) in
  exists newViewport,
    updateViewport (zoom vs pos (Fin k)) (Some extra) ∅ w =
      (Ret VUndef,
       mkWorld (set__state (merged_state (ctl w) (zoom vs pos (Fin k)) ∅) (ctl w))
         ∅ [ViewportChange 10 newViewport VNull]) /\
    newViewport = assign (assign ∅ (<[ "zoom" := VNum (Fin (z * k)) ]> (SpecMapState.props vs))) extra /\
    get newViewport "zoom" = VNum (Fin (z * k)) /\
    get newViewport "transitionDuration" = VNum (Fin d).
Proof.
  intros Hk Hdur Hzoom w vs.
  assert (Hprops : getViewportProps (zoom vs pos (Fin k)) =
            <[ "zoom" := VNum (Fin (z * k)) ]> (SpecMapState.props vs)).
  { apply spec_zoom_level; [reflexivity | exact Hk]. }
  rewrite (updateViewport_spec w vs) by reflexivity.
  unfold viewport_call, state_call.
  change (onViewportChange (ctl w)) with (VRef 10).
  change (onStateChange (ctl w)) with VUndef.
  change (calls w) with (@nil Call).
  change (listeners w) with (∅ : gset (nat * string)).
  unfold proposed. rewrite Hprops. cbn [assign_opt].
  set (nv := assign (assign ∅ (<[ "zoom" := VNum (Fin (z * k)) ]> (SpecMapState.props vs))) extra).
  assert (Hd : viewport_differs (getViewportProps vs) nv = true).
  { apply viewport_differs_spec. exists "transitionDuration". split.
    - unfold nv, assign. erewrite lookup_union_Some_l by exact Hdur. eauto.
    - unfold nv. rewrite get_assign, Hdur. reflexivity. }
  rewrite Hd.
  exists nv. split; [reflexivity |]. split; [reflexivity |]. split.
  - unfold nv. rewrite get_assign, Hzoom, get_assign, lookup_insert_eq. reflexivity.
  - unfold nv. rewrite get_assign, Hdur. reflexivity.
Qed.

Lemma wheel_at_zoom (z k d : R) (pos : R * R) :
  wheelScale d = Fin k ->
  0 < z * k ->
  exists newViewport,
    fst (handleEvent (wheel_event pos d) (controls_at_zoom z)) = Ret VUndef /\
    calls (snd (handleEvent (wheel_event pos d) (controls_at_zoom z))) =
      [ViewportChange 10 newViewport VNull] /\
    newViewport =
      assign (assign ∅ (<[ "zoom" := VNum (Fin (z * k)) ]>
                (getViewportProps (fresh_viewState (ctl (controls_at_zoom z))))))
        NO_TRANSITION_PROPS /\
    get newViewport "zoom" = VNum (Fin (z * k)) /\
    get newViewport "transitionDuration" = VNum (Fin 0).
Proof.
  intros Hscale Hk.
  rewrite handleEvent_wheel by reflexivity.
  rewrite (_onWheel_enabled _ _ (fresh_viewState (ctl (controls_at_zoom z)))) by reflexivity.
  change (delta (wheel_event pos d)) with d. rewrite Hscale.
  destruct (zoom_proposal z k (getCenter (wheel_event pos d)) NO_TRANSITION_PROPS 0 Hk
              eq_refl eq_refl) as (nv & Hrun & Hnv & Hz & Hd).
  rewrite Hrun. exists nv. repeat split; assumption.
Qed.

Lemma doubletap_at_zoom (z : R) (pos : R * R) (keys : SrcEvent) :
  0 < z ->
  let k := if isFunctionKeyPressed (gesture "doubletap" pos keys) then 0.5 else 2 in
  exists newViewport,
    fst (handleEvent (gesture "doubletap" pos keys) (controls_at_zoom z)) = Ret VUndef /\
    calls (snd (handleEvent (gesture "doubletap" pos keys) (controls_at_zoom z))) =
      [ViewportChange 10 newViewport VNull] /\
    get newViewport "zoom" = VNum (Fin (z * k)) /\
    get newViewport "transitionDuration" = VNum (Fin 300).
Proof.
  intros Hz k.
  rewrite handleEvent_doubletap by reflexivity.
  rewrite (_onDoubleTap_enabled _ _ (fresh_viewState (ctl (controls_at_zoom z)))) by reflexivity.
  replace (if isFunctionKeyPressed (gesture "doubletap" pos keys) then Fin 0.5 else Fin 2)
    with (Fin k) by (unfold k; destruct (isFunctionKeyPressed _); reflexivity).
  assert (Hk : 0 < z * k) by (unfold k; destruct (isFunctionKeyPressed _); lra).
  destruct (zoom_proposal z k (getCenter (gesture "doubletap" pos keys))
              LINEAR_TRANSITION_PROPS 300 Hk eq_refl eq_refl)
    as (nv & Hrun & Hnv & Hzm & Hd).
  rewrite Hrun. exists nv. repeat split; assumption.
Qed.

Lemma saturating_0 : saturating 0 = 1.
Proof.
  unfold saturating. rewrite Rabs_R0, Rmult_0_l, Ropp_0, exp_0. lra.
Qed.

(** C1, as the code has it.  On a controller in state
    [{zoom: 10, bearing: 0, pitch: 0}] with scrollZoom on, a wheel event with
    delta = -100 makes exactly one call to onViewportChange; the proposed
    zoom is 10 times the reciprocal of the saturating value, which is less
    than 10 (the zoom decreases), and the proposal carries
    transitionDuration 0. *)
Theorem wheel_neg100_zooms_out (pos : R * R) :
  exists newViewport,
    fst (handleEvent (wheel_event pos (-100)) (controls_at_zoom 10)) = Ret VUndef /\
    calls (snd (handleEvent (wheel_event pos (-100)) (controls_at_zoom 10))) =
      [ViewportChange 10 newViewport VNull] /\
    get newViewport "zoom" =
      VNum (Fin (10 * (1 / (2 / (1 + exp (- (Rabs (-100) * 0.01))))))) /\
    10 * (1 / (2 / (1 + exp (- (Rabs (-100) * 0.01))))) < 10 /\
    get newViewport "transitionDuration" = VNum (Fin 0).
Proof.
  pose proof (half_lt_inv_saturating (-100)) as [Hlo _].
  pose proof (inv_saturating_lt_1 (-100) ltac:(lra)) as Hhi.
  destruct (wheel_at_zoom 10 (1 / saturating (-100)) (-100) pos) as (nv & H1 & H2 & _ & H3 & H4).
  { apply wheelScale_neg. lra. }
  { lra. }
  exists nv. unfold saturating, ZOOM_ACCEL in *.
  repeat split; try assumption. lra.
Qed.

(** C4.  On a controller in state [{zoom: 5}] with doubleClickZoom on, a
    doubletap makes one call to onViewportChange, with transitionDuration
    300; the proposed zoom is 10 when no function key is held (scale 2) and
    2.5 when one is held (scale 0.5). *)
Theorem doubletap_zooms_by_2_or_half (pos : R * R) (keys : SrcEvent) :
  exists newViewport,
    fst (handleEvent (gesture "doubletap" pos keys) (controls_at_zoom 5)) = Ret VUndef /\
    calls (snd (handleEvent (gesture "doubletap" pos keys) (controls_at_zoom 5))) =
      [ViewportChange 10 newViewport VNull] /\
    get newViewport "zoom" =
      VNum (Fin (if metaKey keys || altKey keys || ctrlKey keys || shiftKey keys
                 then 2.5 else 10)) /\
    get newViewport "transitionDuration" = VNum (Fin 300).
Proof.
  destruct (doubletap_at_zoom 5 pos keys) as (nv & H1 & H2 & H3 & H4); [lra |].
  exists nv. repeat split; try assumption.
  rewrite H3. unfold isFunctionKeyPressed. cbn [srcEvent gesture].
  destruct (metaKey keys || altKey keys || ctrlKey keys || shiftKey keys);
    do 2 f_equal; lra.
Qed.

End scenarios.


(** ** Reachable worlds are well formed *)

Section reachable.

Context `{VS : ViewportStateClass} `{HO : Host}.

Lemma setOptions_wf (options : Obj) (w : World) :
  wf_world w ->
  is_callback (get options "eventManager") = true ->
  wf_world (snd (setOptions options w)).
Proof.
  intros Hwf Hopt.
  destruct (setOptions_run options w Hwf Hopt) as (w' & Hrun & Hwf' & _).
  rewrite Hrun. exact Hwf'.
Qed.

Lemma constructor_wf (options : Obj) (ls : gset (nat * string)) (cs : list Call) :
  is_callback (get options "eventManager") = true ->
  wf_world (snd (constructor options ls cs)).
Proof. intros Hopt. apply setOptions_wf; [apply wf_new_controls | exact Hopt]. Qed.

Lemma handleEvent_wf (event : Event) (w : World) :
  wf_world w -> wf_world (snd (handleEvent event w)).
Proof.
  intros [He Hm]. destruct (keeps_handleEvent event w) as [Hc Hl].
  unfold config in Hc. injection Hc as _ Hem Hevs Hev _ _ _ _ _ _ _ _ _.
  unfold wf_world. rewrite Hev, Hem, Hevs, Hl. split; assumption.
Qed.

End reachable.

(** ** Examples *)

Section examples.

#[local] Existing Instance example_host.
#[local] Existing Instance SpecMapState.class.

Lemma strict_neq_same (v : Value) : v <> VNum NaN -> strict_neq v v = false.
Proof.
  intros H. unfold strict_neq.
  destruct v as [| | b | n | s | r]; cbn; try reflexivity.
  - destruct b; reflexivity.
  - destruct n; cbn; try reflexivity; [| contradiction].
    rewrite Reqb_true by reflexivity. reflexivity.
  - rewrite String.eqb_refl. reflexivity.
  - rewrite Nat.eqb_refl. reflexivity.
Qed.

(** The wheel event of the scenario of C1 does not raise the zoom: no call
    to onViewportChange proposes a zoom above 10. *)
Lemma wheel_neg100_does_not_zoom_in :
  ~ (exists newViewport viewport z,
       In (ViewportChange 10 newViewport viewport)
          (calls (snd (handleEvent (wheel_event (0, 0) (-100)) (controls_at_zoom 10)))) /\
       get newViewport "zoom" = VNum (Fin z) /\
       10 < z).
Proof.
  intros (nv & v & z & Hin & Hz & Hgt).
  pose proof (inv_saturating_lt_1 (-100) ltac:(lra)) as Hhi.
  pose proof (half_lt_inv_saturating (-100)) as [Hlo _].
  destruct (wheel_at_zoom 10 (1 / saturating (-100)) (-100) (0, 0))
    as (nv' & _ & Hcalls & _ & Hz' & _).
  { apply wheelScale_neg. lra. }
  { lra. }
  rewrite Hcalls in Hin. destruct Hin as [Hin | []].
  injection Hin as <- _. rewrite Hz' in Hz. injection Hz as <-. lra.
Qed.

(** A wheel event with delta 0 (scale 1) proposes ViewportProps that are,
    field by field, strictly equal to the previous ones, and
    onViewportChange is called all the same: the proposed object also
    carries transitionDuration 0, which the previous props lack. *)
Lemma unchanged_props_still_fire :
  exists newViewport,
    viewport_calls
      (calls (snd (handleEvent (wheel_event (0, 0) 0) (controls_at_zoom 10)))) =
      [(10%nat, newViewport, VNull)] /\
    Forall (fun key =>
              strict_neq
                (get (getViewportProps (fresh_viewState (ctl (controls_at_zoom 10)))) key)
                (get newViewport key) = false)
      SpecMapState.VIEWPORT_PROPS.
Proof.
  destruct (wheel_at_zoom 10 1 0 (0, 0)) as (nv & _ & Hcalls & Hnv & Hz & _).
  { rewrite wheelScale_nonneg by lra. rewrite saturating_0. reflexivity. }
  { lra. }
  exists nv. split; [rewrite Hcalls; reflexivity |].
  assert (Hother : forall key, key <> "zoom" ->
            NO_TRANSITION_PROPS !! key = None ->
            get nv key =
            get (getViewportProps (fresh_viewState (ctl (controls_at_zoom 10)))) key).
  { intros key Hk Hn. rewrite Hnv, get_assign, Hn, get_assign.
    rewrite lookup_insert_ne by congruence.
    unfold get. destruct (_ !! key); reflexivity. }
  assert (Hsame : forall key v, key <> "zoom" ->
            NO_TRANSITION_PROPS !! key = None ->
            get (getViewportProps (fresh_viewState (ctl (controls_at_zoom 10)))) key = v ->
            v <> VNum NaN ->
            strict_neq
              (get (getViewportProps (fresh_viewState (ctl (controls_at_zoom 10)))) key)
              (get nv key) = false).
  { intros key v Hk Hn Hv Hnan. rewrite (Hother key Hk Hn), Hv.
    apply strict_neq_same. exact Hnan. }
  unfold SpecMapState.VIEWPORT_PROPS.
  repeat apply Forall_cons_2; try apply Forall_nil_2.
  - apply (Hsame "longitude" VUndef); [discriminate | reflexivity | reflexivity | discriminate].
  - apply (Hsame "latitude" VUndef); [discriminate | reflexivity | reflexivity | discriminate].
  - rewrite Hz.
    change (get (getViewportProps (fresh_viewState (ctl (controls_at_zoom 10)))) "zoom")
      with (VNum (Fin 10)).
    unfold strict_neq. cbn [strict_eq JsNum.eqb].
    rewrite Reqb_true by lra. reflexivity.
  - apply (Hsame "bearing" (VNum (Fin 0))); [discriminate | reflexivity | reflexivity | discriminate].
  - apply (Hsame "pitch" (VNum (Fin 0))); [discriminate | reflexivity | reflexivity | discriminate].
  - apply (Hsame "width" VUndef); [discriminate | reflexivity | reflexivity | discriminate].
  - apply (Hsame "height" VUndef); [discriminate | reflexivity | reflexivity | discriminate].
Qed.



(** *** The theorems at concrete inputs *)

Lemma wheel_scale_in_exact_arithmetic_witness :
  type (wheel_event (0, 0) (-100)) = "wheel" /\
  truthy (scrollZoom (ctl (controls_at_zoom 10))) = true /\
  exists s : R,
    handleEvent (wheel_event (0, 0) (-100)) (controls_at_zoom 10) =
      updateViewport
        (zoom (fresh_viewState (ctl (controls_at_zoom 10))) (0, 0) (Fin s))
        (Some NO_TRANSITION_PROPS) ∅ (entered (controls_at_zoom 10)) /\
    s = 1 / (2 / (1 + exp (- (Rabs (-100) * 0.01)))) /\
    1 / 2 < s < 2.
Proof.
  split; [reflexivity |]. split; [reflexivity |].
  destruct (wheel_scale_in_exact_arithmetic (wheel_event (0, 0) (-100)) (controls_at_zoom 10)
              eq_refl eq_refl) as (s & Hrun & _ & Hneg & Hb).
  exists s. split; [exact Hrun |]. split; [| exact Hb].
  apply Hneg. cbn [delta wheel_event]. lra.
Defined.

Lemma onViewportChange_iff_proposal_differs_witness :
  viewState (ctl (entered (controls_at_zoom 10))) =
    Some (fresh_viewState (ctl (controls_at_zoom 10))) /\
  is_callback (onViewportChange (ctl (entered (controls_at_zoom 10)))) = true /\
  viewport_calls
    (calls (snd (updateViewport
                   (panEnd (fresh_viewState (ctl (controls_at_zoom 10))))
                   (Some NO_TRANSITION_PROPS) ∅ (entered (controls_at_zoom 10))))) =
  [(10%nat,
    assign_opt
      (assign ∅ (getViewportProps (panEnd (fresh_viewState (ctl (controls_at_zoom 10))))))
      (Some NO_TRANSITION_PROPS),
    VNull)].
Proof.
  split; [reflexivity |]. split; [reflexivity |].
  destruct (onViewportChange_iff_proposal_differs (entered (controls_at_zoom 10))
              (fresh_viewState (ctl (controls_at_zoom 10)))
              (panEnd (fresh_viewState (ctl (controls_at_zoom 10))))
              (Some NO_TRANSITION_PROPS) ∅ eq_refl eq_refl) as (Hfire & _ & _).
  apply (Hfire 10%nat eq_refl).
  exists "transitionDuration". split; [eexists; reflexivity | reflexivity].
Defined.

Lemma unrecognized_type_is_ignored_witness :
  type (gesture "click" (3, 4) no_keys) ∉ recognized /\
  fst (handleEvent (gesture "click" (3, 4) no_keys) (controls_at_zoom 10)) = Ret (VBool false) /\
  calls (snd (handleEvent (gesture "click" (3, 4) no_keys) (controls_at_zoom 10))) = [].
Proof.
  assert (H : type (gesture "click" (3, 4) no_keys) ∉ recognized).
  { apply (bool_decide_unpack _). reflexivity. }
  split; [exact H |].
  destruct (unrecognized_type_is_ignored (gesture "click" (3, 4) no_keys)
              (controls_at_zoom 10) H) as (Hret & Hcalls & _).
  split; [exact Hret | exact Hcalls].
Defined.

(** The options of a controller that is given an event manager and both
    callbacks, and a later reconfiguration that names none of them. *)
Definition options_full : Obj :=
  <[ "eventManager" := owner_eventManager ]>
  (<[ "onStateChange" := owner_onStateChange ]> (options_at_zoom 10)).

Definition controls_full : World := snd (constructor options_full ∅ []).

Definition options_bare : Obj := {[ "zoom" := VNum (Fin 11) ]}.

Lemma drag_sequence_reports_witness :
  type (gesture "panstart" (3, 4) no_keys) = "panstart" /\
  Forall (fun e => type e = "panmove")
    [gesture "panmove" (5, 4) no_keys; gesture "panmove" (8, 6) no_keys] /\
  type (gesture "panend" (8, 6) no_keys) = "panend" /\
  is_callback (onViewportChange (ctl controls_full)) = true /\
  onStateChange (ctl controls_full) = VRef 11 /\
  exists during last,
    state_calls
      (calls (handleEvents
                (gesture "panstart" (3, 4) no_keys
                 :: [gesture "panmove" (5, 4) no_keys; gesture "panmove" (8, 6) no_keys]
                 ++ [gesture "panend" (8, 6) no_keys])
                controls_full)) =
      state_calls (calls controls_full) ++ during ++ [(11%nat, last)] /\
    Forall (fun p => get p.2 "isDragging" = VBool true) during /\
    get last "isDragging" = VBool false.
Proof.
  assert (Hm : Forall (fun e => type e = "panmove")
            [gesture "panmove" (5, 4) no_keys; gesture "panmove" (8, 6) no_keys]).
  { repeat constructor. }
  split; [reflexivity |]. split; [exact Hm |]. split; [reflexivity |].
  split; [reflexivity |]. split; [reflexivity |].
  destruct (drag_sequence_reports controls_full
              (gesture "panstart" (3, 4) no_keys)
              [gesture "panmove" (5, 4) no_keys; gesture "panmove" (8, 6) no_keys]
              (gesture "panend" (8, 6) no_keys) 11 eq_refl Hm eq_refl eq_refl eq_refl)
    as (during & last & _ & _ & Hall & _ & Hcalls & Hlast).
  exists during, last. split; [exact Hcalls |]. split; [exact Hall | exact Hlast].
Defined.



(** A controller for an 800 by 600 viewport, and a drag of 100 pixels
    downwards that ends at (400, 300) with the shift key held. *)
Definition controls_sized : World :=
  snd (constructor
         (<[ "width" := VNum (Fin 800) ]>
          (<[ "height" := VNum (Fin 600) ]> (options_at_zoom 10))) ∅ []).

Definition drag_down : Event :=
  {| type := "panmove"; offsetCenter := (400, 300); deltaX := 0; deltaY := 100;
     delta := 0; scale := 1; rotation := 0; rightButton := false;
     srcEvent := shift_key |}.

Lemma map_pitch_fraction_is_clamped_witness :
  viewState (ctl (entered controls_sized)) = Some (fresh_viewState (ctl controls_sized)) /\
  exists deltaScaleX : num,
    _onPanRotateMap drag_down (entered controls_sized) =
      updateViewport
        (rotate (fresh_viewState (ctl controls_sized)) deltaScaleX (Some (Fin (-0.3))))
        (Some NO_TRANSITION_PROPS) {[ "isDragging" := VBool true ]}
        (entered controls_sized).
Proof.
  split; [reflexivity |].
  destruct (map_pitch_fraction_is_clamped drag_down (entered controls_sized)
              (fresh_viewState (ctl controls_sized)) eq_refl)
    as (dsx & dsy & Hrun & _ & Hdown & _).
  exists dsx. rewrite Hrun.
  assert (Hy : dsy = -0.3).
  { rewrite (Hdown 600 eq_refl).
    - cbn [deltaY drag_down getCenter offsetCenter snd].
      unfold Rmin, Rmax.
      destruct (Rle_dec (-1) (100 / (300 - 100 - 600) * 1.2)) as [H1 | H1];
        [| exfalso; apply H1; lra].
      destruct (Rle_dec 1 (100 / (300 - 100 - 600) * 1.2)) as [H2 | H2]; lra.
    - cbn [deltaY drag_down]. lra.
    - cbn [deltaY drag_down getCenter offsetCenter snd].
      rewrite Rabs_right; lra. }
  rewrite Hy. reflexivity.
Defined.

End examples.

(** ** The shape of every handled event *)

Section shape.

Context `{VS : ViewportStateClass} `{HO : Host}.

(** The transition props and the interaction state that the handler of an
    event passes to [updateViewport]. *)
Definition transition_of (event : Event) : option Obj :=
  switch (type event)
    [ ("panstart", Some NO_TRANSITION_PROPS);
      ("panmove", Some NO_TRANSITION_PROPS);
      ("panend", None);
      ("pinchstart", Some NO_TRANSITION_PROPS);
      ("pinchmove", Some NO_TRANSITION_PROPS);
      ("pinchend", None);
      ("doubletap", Some LINEAR_TRANSITION_PROPS);
      ("wheel", Some NO_TRANSITION_PROPS);
      ("keydown", Some LINEAR_TRANSITION_PROPS) ]
    None.

Definition extraState_of (event : Event) : Obj :=
  switch (type event)
    [ ("panstart", {[ "isDragging" := VBool true ]});
      ("panmove", {[ "isDragging" := VBool true ]});
      ("panend", {[ "isDragging" := VBool false ]});
      ("pinchstart", {[ "isDragging" := VBool true ]});
      ("pinchmove", {[ "isDragging" := VBool true ]});
      ("pinchend", {[ "isDragging" := VBool false ]}) ]
    ∅.

(** The world in which a handler calls [updateViewport]: the world it
    entered, but for [_state]. *)
Definition at_update (w : World) (st : Obj) : World :=
  mkWorld (set__state st (ctl (entered w))) (listeners w) (calls w).

Lemma at_update_entered (w : World) : at_update w (_state (ctl w)) = entered w.
Proof. destruct w as [[] ? ?]. reflexivity. Qed.

Definition acts (event : Event) (w : World) : Prop :=
  exists nvs st,
    handleEvent event w =
    updateViewport nvs (transition_of event) (extraState_of event) (at_update w st).

Ltac act_with st :=
  right; eexists; exists st; rewrite ?at_update_entered;
  unfold transition_of, extraState_of;
  repeat match goal with E : type _ = _ |- _ => rewrite E end;
  cbn [switch String.eqb Ascii.eqb Bool.eqb]; reflexivity.

Lemma _onKeyDown_shape (event : Event) (w : World) (vs : vstate) :
  viewState (ctl w) = Some vs ->
  _onKeyDown event w = (Ret (VBool false), w) \/
  exists nvs, _onKeyDown event w = updateViewport nvs (Some LINEAR_TRANSITION_PROPS) ∅ w.
Proof.
  intros Hvs. unfold _onKeyDown. unfold_M. mred.
  destruct (truthy (keyboard (ctl w))); mred; [| left; reflexivity].
  destruct (keyCode (srcEvent event)) as [| p | p]; try (left; reflexivity).
  repeat match goal with
  | |- context [match ?p with xI _ => _ | xO _ => _ | xH => _ end] =>
      is_var p; destruct p
  end; try (left; reflexivity); right; rewrite Hvs; eauto.
Qed.

Lemma _onPinch_shape (event : Event) (w : World) (vs : vstate) :
  viewState (ctl w) = Some vs ->
  _onPinch event w = (Ret (VBool false), w) \/
  exists nvs, _onPinch event w =
    updateViewport nvs (Some NO_TRANSITION_PROPS) {[ "isDragging" := VBool true ]} w.
Proof.
  intros Hvs. unfold _onPinch. unfold_M. mred.
  destruct (negb (truthy (touchZoom (ctl w))) && negb (truthy (touchRotate (ctl w))));
    [left; reflexivity |].
  right. rewrite Hvs. eauto.
Qed.

Lemma _onWheel_shape (event : Event) (w : World) (vs : vstate) :
  viewState (ctl w) = Some vs ->
  _onWheel event w = (Ret (VBool false), w) \/
  exists nvs, _onWheel event w = updateViewport nvs (Some NO_TRANSITION_PROPS) ∅ w.
Proof.
  intros Hvs. destruct (truthy (scrollZoom (ctl w))) eqn:E.
  - right. rewrite (_onWheel_enabled event w vs E Hvs). eauto.
  - left. apply _onWheel_disabled. exact E.
Qed.

Lemma _onDoubleTap_shape (event : Event) (w : World) (vs : vstate) :
  viewState (ctl w) = Some vs ->
  _onDoubleTap event w = (Ret (VBool false), w) \/
  exists nvs, _onDoubleTap event w = updateViewport nvs (Some LINEAR_TRANSITION_PROPS) ∅ w.
Proof.
  intros Hvs. destruct (truthy (doubleClickZoom (ctl w))) eqn:E.
  - right. rewrite (_onDoubleTap_enabled event w vs E Hvs). eauto.
  - left. apply _onDoubleTap_disabled. exact E.
Qed.

Lemma _onPinchStart_shape (event : Event) (w : World) (vs : vstate) :
  viewState (ctl w) = Some vs ->
  _onPinchStart event w =
  updateViewport (rotateStart (zoomStart vs (getCenter event)) (getCenter event))
    (Some NO_TRANSITION_PROPS) {[ "isDragging" := VBool true ]}
    (mkWorld (set__state (<[ "startPinchRotation" := VNum (Fin (rotation event)) ]> (_state (ctl w))) (ctl w))
       (listeners w) (calls w)).
Proof.
  intros Hvs. unfold _onPinchStart. unfold_M. mred. rewrite Hvs. reflexivity.
Qed.

Lemma _onPinchEnd_shape (event : Event) (w : World) (vs : vstate) :
  viewState (ctl w) = Some vs ->
  _onPinchEnd event w =
  updateViewport (rotateEnd (zoomEnd vs)) None {[ "isDragging" := VBool false ]}
    (mkWorld (set__state (<[ "startPinchRotation" := VNum (Fin 0) ]> (_state (ctl w))) (ctl w))
       (listeners w) (calls w)).
Proof.
  intros Hvs. unfold _onPinchEnd. unfold_M. mred. rewrite Hvs. reflexivity.
Qed.

(** Every event is either ignored, leaving the world as it was entered, or
    ends in one call of [updateViewport]. *)
Lemma handleEvent_shape (event : Event) (w : World) :
  handleEvent event w = (Ret (VBool false), entered w) \/ acts event w.
Proof.
  unfold acts. rewrite handleEvent_enter.
  pose proof (entered_viewState w) as Hvs.
  unfold switch.
  destruct (String.eqb_spec (type event) "panstart") as [E | _].
  { rewrite (_onPanStart_acts _ _ _ Hvs). act_with (_state (ctl w)). }
  destruct (String.eqb_spec (type event) "panmove") as [E | _].
  { destruct (_onPan_cases event (entered w) _ Hvs) as [H | [nvs H]]; rewrite H;
      [left; reflexivity | act_with (_state (ctl w))]. }
  destruct (String.eqb_spec (type event) "panend") as [E | _].
  { rewrite (_onPanEnd_acts _ _ _ Hvs). act_with (_state (ctl w)). }
  destruct (String.eqb_spec (type event) "pinchstart") as [E | _].
  { rewrite (_onPinchStart_shape _ _ _ Hvs).
    act_with (<[ "startPinchRotation" := VNum (Fin (rotation event)) ]> (_state (ctl w))). }
  destruct (String.eqb_spec (type event) "pinchmove") as [E | _].
  { destruct (_onPinch_shape event (entered w) _ Hvs) as [H | [nvs H]]; rewrite H;
      [left; reflexivity | act_with (_state (ctl w))]. }
  destruct (String.eqb_spec (type event) "pinchend") as [E | _].
  { rewrite (_onPinchEnd_shape _ _ _ Hvs).
    act_with (<[ "startPinchRotation" := VNum (Fin 0) ]> (_state (ctl w))). }
  destruct (String.eqb_spec (type event) "doubletap") as [E | _].
  { destruct (_onDoubleTap_shape event (entered w) _ Hvs) as [H | [nvs H]]; rewrite H;
      [left; reflexivity | act_with (_state (ctl w))]. }
  destruct (String.eqb_spec (type event) "wheel") as [E | _].
  { destruct (_onWheel_shape event (entered w) _ Hvs) as [H | [nvs H]]; rewrite H;
      [left; reflexivity | act_with (_state (ctl w))]. }
  destruct (String.eqb_spec (type event) "keydown") as [E | _].
  { destruct (_onKeyDown_shape event (entered w) _ Hvs) as [H | [nvs H]]; rewrite H;
      [left; reflexivity | act_with (_state (ctl w))]. }
  left. reflexivity.
Qed.

End shape.

(** ** What a handled event does, seen from the owner *)

Section outcome.

Context `{VS : ViewportStateClass} `{HO : Host}.

Lemma viewport_call_cases (c : Controls) (vs nvs : vstate) (ep : option Obj) :
  viewport_call c vs nvs ep = [] \/
  exists f, onViewportChange c = VRef f /\
    viewport_call c vs nvs ep = [ViewportChange f (proposed nvs ep) (viewport_arg vs)].
Proof.
  unfold viewport_call. destruct (onViewportChange c); try (left; reflexivity).
  destruct (viewport_differs _ _); [right | left; reflexivity]. eauto.
Qed.

(** With callbacks of their documented type (a function, or none),
    [handleEvent] never throws and never returns a truthy value.  It returns
    [false] when the event is ignored, and then makes no call and leaves
    [_state] as it was; it returns [undefined] when the event is acted on,
    and then makes at most one call to onViewportChange followed by one call
    to onStateChange (when that callback is set), which receives the
    controller's new [_state]. *)
Theorem handled_event_outcome (event : Event) (w : World) :
  is_callback (onViewportChange (ctl w)) = true ->
  is_callback (onStateChange (ctl w)) = true ->
  (fst (handleEvent event w) = Ret (VBool false) /\
   calls (snd (handleEvent event w)) = calls w /\
   _state (ctl (snd (handleEvent event w))) = _state (ctl w)) \/
  (fst (handleEvent event w) = Ret VUndef /\
   exists proposal,
     calls (snd (handleEvent event w)) =
       calls w ++ proposal
         ++ state_call (ctl w) (_state (ctl (snd (handleEvent event w)))) /\
     (proposal = [] \/
      exists f newViewport viewport,
        onViewportChange (ctl w) = VRef f /\
        proposal = [ViewportChange f newViewport viewport])).
Proof.
  intros Hv Hs.
  destruct (handleEvent_shape event w) as [H | (nvs & st & H)]; rewrite H.
  - left. repeat split.
  - right.
    rewrite (updateViewport_spec (at_update w st) (fresh_viewState (ctl w)))
      by (try reflexivity; assumption).
    cbn [fst snd calls ctl at_update set__state _state].
    split; [reflexivity |].
    eexists. split; [reflexivity |].
    destruct (viewport_call_cases (set__state st (ctl (entered w)))
                (fresh_viewState (ctl w)) nvs (transition_of event))
      as [E | (f & Hf & E)]; rewrite E; [left; reflexivity |].
    right. exists f. eauto.
Qed.

(** The state that a panend or a pinchend proposes, from the state [vs] the
    event started from. *)
Definition ended (event : Event) (vs : vstate) : vstate :=
  if String.eqb (type event) "panend" then rotateEnd (panEnd vs)
  else rotateEnd (zoomEnd vs).

Lemma handleEvent_ends (event : Event) (w : World) :
  type event ∈ ["panend"; "pinchend"] ->
  exists st,
    handleEvent event w =
    updateViewport (ended event (fresh_viewState (ctl w))) None
      {[ "isDragging" := VBool false ]} (at_update w st).
Proof.
  intros Hty. rewrite handleEvent_enter.
  pose proof (entered_viewState w) as Hvs. unfold ended.
  repeat (apply elem_of_cons in Hty as [E | Hty]);
    try (apply elem_of_nil in Hty; contradiction);
    rewrite E; cbn [switch String.eqb Ascii.eqb Bool.eqb].
  - rewrite (_onPanEnd_acts _ _ _ Hvs). exists (_state (ctl w)).
    rewrite at_update_entered. reflexivity.
  - rewrite (_onPinchEnd_shape _ _ _ Hvs). eexists. reflexivity.
Qed.

(** The object proposed to onViewportChange carries the transition props of
    the gesture: transitionDuration 0 for panstart, panmove, pinchstart,
    pinchmove and wheel; the linear transition (duration 300, interruption
    BREAK) for doubletap and keydown; and none for panend and pinchend,
    whose proposal is exactly the ViewportProps of the ended state: of
    [rotateEnd] of [panEnd], resp. of [zoomEnd], of the state the event
    started from. *)
Theorem proposal_carries_transition (event : Event) (w : World) :
  is_callback (onViewportChange (ctl w)) = true ->
  is_callback (onStateChange (ctl w)) = true ->
  exists made,
    calls (snd (handleEvent event w)) = calls w ++ made /\
    forall f newViewport viewport,
      In (ViewportChange f newViewport viewport) made ->
      (type event ∈ ["panstart"; "panmove"; "pinchstart"; "pinchmove"; "wheel"] ->
       get newViewport "transitionDuration" = VNum (Fin 0)) /\
      (type event ∈ ["doubletap"; "keydown"] ->
       get newViewport "transitionDuration" = VNum (Fin 300) /\
       get newViewport "transitionEasing" = transitionEasing /\
       get newViewport "transitionInterpolator" = transitionInterpolator /\
       get newViewport "transitionInterruption" = TRANSITION_EVENTS_BREAK) /\
      (type event ∈ ["panend"; "pinchend"] ->
       newViewport = getViewportProps (ended event (fresh_viewState (ctl w)))).
Proof.
  intros Hv Hs.
  assert (Hnot : forall l, type event ∈ ["panend"; "pinchend"] ->
            Forall (fun n => n <> "panend" /\ n <> "pinchend") l -> type event ∉ l).
  { intros l Hty Hl Hin. rewrite Forall_forall in Hl. destruct (Hl _ Hin) as [H1 H2].
    repeat (apply elem_of_cons in Hty as [E | Hty]);
      try (apply elem_of_nil in Hty; contradiction); contradiction. }
  destruct (decide (type event ∈ ["panend"; "pinchend"])) as [Hend | Hother].
  - destruct (handleEvent_ends event w Hend) as (st & H). rewrite H.
    rewrite (updateViewport_spec (at_update w st) (fresh_viewState (ctl w)))
      by (try reflexivity; assumption).
    cbn [snd calls ctl at_update].
    eexists. split; [reflexivity |].
    intros f nv v Hin. apply in_app_or in Hin as [Hin | Hin].
    2:{ unfold state_call in Hin. destruct (onStateChange _); try contradiction.
        destruct Hin as [Hin | []]. discriminate. }
    destruct (viewport_call_cases (set__state st (ctl (entered w)))
                (fresh_viewState (ctl w)) (ended event (fresh_viewState (ctl w))) None)
      as [E | (f' & _ & E)]; rewrite E in Hin; [contradiction |].
    destruct Hin as [Hin | []]. injection Hin as _ <- _.
    split; [| split]; intros Hty.
    + exfalso. revert Hty. apply (Hnot _ Hend).
      repeat apply Forall_cons_2; try apply Forall_nil_2; split; discriminate.
    + exfalso. revert Hty. apply (Hnot _ Hend).
      repeat apply Forall_cons_2; try apply Forall_nil_2; split; discriminate.
    + unfold proposed. cbn [assign_opt]. unfold assign. apply map_union_empty.
  - destruct (handleEvent_shape event w) as [H | (nvs & st & H)]; rewrite H.
    + exists []. split; [rewrite app_nil_r; reflexivity | intros f nv v []].
    + rewrite (updateViewport_spec (at_update w st) (fresh_viewState (ctl w)))
        by (try reflexivity; assumption).
      cbn [snd calls ctl at_update].
      eexists. split; [reflexivity |].
      intros f nv v Hin. apply in_app_or in Hin as [Hin | Hin].
      2:{ unfold state_call in Hin. destruct (onStateChange _); try contradiction.
          destruct Hin as [Hin | []]. discriminate. }
      destruct (viewport_call_cases (set__state st (ctl (entered w)))
                  (fresh_viewState (ctl w)) nvs (transition_of event))
        as [E | (f' & _ & E)]; rewrite E in Hin; [contradiction |].
      destruct Hin as [Hin | []]. injection Hin as _ <- _.
      unfold transition_of, proposed.
      split; [| split]; intros Hty; [| | contradiction];
        repeat (apply elem_of_cons in Hty as [-> | Hty]);
        try (apply elem_of_nil in Hty; contradiction);
        cbn [switch String.eqb Ascii.eqb Bool.eqb assign_opt].
      1-5: rewrite get_assign; reflexivity.
      1-2: repeat split; rewrite get_assign; reflexivity.
Qed.

(** [isDragging()] after an event: true after panstart and pinchstart, and
    after a panmove or pinchmove that was acted on; false after panend and
    pinchend. *)
Theorem isDragging_after_event (event : Event) (w : World) :
  is_callback (onViewportChange (ctl w)) = true ->
  is_callback (onStateChange (ctl w)) = true ->
  (type event ∈ ["panstart"; "pinchstart"] ->
   isDragging (ctl (snd (handleEvent event w))) = VBool true) /\
  (type event ∈ ["panmove"; "pinchmove"] ->
   fst (handleEvent event w) = Ret VUndef ->
   isDragging (ctl (snd (handleEvent event w))) = VBool true) /\
  (type event ∈ ["panend"; "pinchend"] ->
   isDragging (ctl (snd (handleEvent event w))) = VBool false).
Proof.
  intros Hv Hs.
  assert (Hact : forall b, extraState_of event = {[ "isDragging" := VBool b ]} ->
            acts event w ->
            isDragging (ctl (snd (handleEvent event w))) = VBool b).
  { intros b Hb (nvs & st & H). rewrite H, Hb.
    rewrite (updateViewport_spec (at_update w st) (fresh_viewState (ctl w)))
      by (try reflexivity; assumption).
    cbn [snd ctl]. unfold isDragging. cbn [_state set__state].
    apply get_merged_state_isDragging. }
  assert (Hfalse : fst (handleEvent event w) = Ret VUndef ->
            handleEvent event w <> (Ret (VBool false), entered w)).
  { intros E1 E2. rewrite E2 in E1. discriminate. }
  split; [| split]; intros Hty.
  - destruct (handleEvent_shape event w) as [H | H].
    + exfalso. rewrite handleEvent_enter in H.
      pose proof (entered_viewState w) as Hvs.
      repeat (apply elem_of_cons in Hty as [E | Hty]);
        try (apply elem_of_nil in Hty; contradiction);
        rewrite E in H; cbn [switch String.eqb Ascii.eqb Bool.eqb] in H.
      * rewrite (_onPanStart_acts _ _ _ Hvs) in H.
        rewrite (updateViewport_spec (entered w) (fresh_viewState (ctl w))) in H
          by (try reflexivity; assumption).
        discriminate.
      * rewrite (_onPinchStart_shape _ _ _ Hvs) in H.
        erewrite updateViewport_spec in H by (try reflexivity; assumption).
        discriminate.
    + apply Hact; [| exact H]. unfold extraState_of.
      repeat (apply elem_of_cons in Hty as [-> | Hty]);
        try (apply elem_of_nil in Hty; contradiction); reflexivity.
  - intros Hret. destruct (handleEvent_shape event w) as [H | H].
    + exfalso. apply (Hfalse Hret H).
    + apply Hact; [| exact H]. unfold extraState_of.
      repeat (apply elem_of_cons in Hty as [-> | Hty]);
        try (apply elem_of_nil in Hty; contradiction); reflexivity.
  - destruct (handleEvent_shape event w) as [H | H].
    + exfalso. rewrite handleEvent_enter in H.
      pose proof (entered_viewState w) as Hvs.
      repeat (apply elem_of_cons in Hty as [E | Hty]);
        try (apply elem_of_nil in Hty; contradiction);
        rewrite E in H; cbn [switch String.eqb Ascii.eqb Bool.eqb] in H.
      * rewrite (_onPanEnd_acts _ _ _ Hvs) in H.
        rewrite (updateViewport_spec (entered w) (fresh_viewState (ctl w))) in H
          by (try reflexivity; assumption).
        discriminate.
      * rewrite (_onPinchEnd_shape _ _ _ Hvs) in H.
        erewrite updateViewport_spec in H by (try reflexivity; assumption).
        discriminate.
    + apply Hact; [| exact H]. unfold extraState_of.
      repeat (apply elem_of_cons in Hty as [-> | Hty]);
        try (apply elem_of_nil in Hty; contradiction); reflexivity.
Qed.

(** No sequence of events changes the configuration of the controller (the
    callbacks, the toggles, the viewport props given by the owner, the event
    manager and its bookkeeping) or the registrations on any event manager:
    events only rebuild [viewState], update [_state] and call the
    callbacks. *)
Theorem events_keep_configuration (evs : list Event) (w : World) :
  config (ctl (handleEvents evs w)) = config (ctl w) /\
  listeners (handleEvents evs w) = listeners w.
Proof.
  revert w. induction evs as [| e evs IH]; intros w; [split; reflexivity |].
  cbn [handleEvents foldl]. fold (handleEvents evs (snd (handleEvent e w))).
  destruct (IH (snd (handleEvent e w))) as [H1 H2].
  destruct (keeps_handleEvent e w) as [H3 H4].
  split; congruence.
Qed.

End outcome.

(** ** Event managers over the lifetime of a controller *)

Ltac run_step := erewrite bind_run by reflexivity.

Section lifetime.

Context `{VS : ViewportStateClass} `{HO : Host}.

(** A computation that leaves [_state], [viewState] and the calls made as
    they are. *)
Definition quiet {A : Type} (m : M World A) : Prop :=
  forall w, _state (ctl (snd (m w))) = _state (ctl w) /\
            viewState (ctl (snd (m w))) = viewState (ctl w) /\
            calls (snd (m w)) = calls w.

Lemma quiet_ret {A : Type} (a : A) : quiet (mret a : M World A).
Proof. intros w. repeat split. Qed.

Lemma quiet_throw {A : Type} : quiet (throw : M World A).
Proof. intros w. repeat split. Qed.

Lemma quiet_bind {A B : Type} (m : M World A) (k : A -> M World B) :
  quiet m -> (forall a, quiet (k a)) -> quiet (m ≫= k).
Proof.
  intros Hm Hk w. cbv [mbind M_bind]. specialize (Hm w).
  destruct (m w) as [[a |] w1]; cbn [snd] in *; [| exact Hm].
  destruct Hm as (H1 & H2 & H3). destruct (Hk a w1) as (H4 & H5 & H6).
  repeat split; congruence.
Qed.

Lemma quiet_this {B : Type} (k : Controls -> M World B) :
  (forall c, quiet (k c)) -> quiet (this ≫= k).
Proof. intros Hk. apply quiet_bind; [| exact Hk]. intros w. repeat split. Qed.

Lemma quiet_update (f : Controls -> Controls) :
  (forall c, _state (f c) = _state c /\ viewState (f c) = viewState c) ->
  quiet (update f).
Proof. intros Hf w. destruct (Hf (ctl w)). repeat split; assumption. Qed.

Lemma quiet_forEach {A : Type} (l : list A) (f : A -> M World unit) :
  (forall x, quiet (f x)) -> quiet (forEach l f).
Proof.
  intros Hf. induction l as [| x l IH]; cbn [forEach].
  - apply quiet_ret.
  - apply quiet_bind; [apply Hf | intros _; exact IH].
Qed.

Lemma quiet_toggleEvents (names : list string) (enabled : Value) :
  quiet (toggleEvents names enabled).
Proof.
  unfold toggleEvents. apply quiet_this. intros c.
  destruct (truthy (eventManager c)); [| apply quiet_ret].
  apply quiet_forEach. intros name. apply quiet_this. intros c'.
  destruct (_events c'); [| apply quiet_throw].
  destruct (strict_neq _ _); [| apply quiet_ret].
  apply quiet_bind; [apply quiet_update; intros; split; reflexivity |].
  intros _. destruct (truthy enabled); destruct (eventManager c');
    intros w; repeat split.
Qed.

Lemma quiet_setOptions (options : Obj) : quiet (setOptions options).
Proof.
  unfold setOptions. apply quiet_this. intros c. cbv zeta.
  repeat (apply quiet_bind; [| intros _]);
    try apply quiet_toggleEvents;
    try (apply quiet_update; intros; split; reflexivity).
  destruct (strict_neq _ _); [| apply quiet_ret].
  repeat (apply quiet_bind; [| intros _]);
    try apply quiet_toggleEvents;
    try (apply quiet_update; intros; split; reflexivity).
Qed.

(** [setOptions] calls no callback and leaves the interaction state alone:
    a controller reconfigured in the middle of a drag is still dragging. *)
Theorem setOptions_keeps_interaction_state (options : Obj) (w : World) :
  calls (snd (setOptions options w)) = calls w /\
  _state (ctl (snd (setOptions options w))) = _state (ctl w) /\
  isDragging (ctl (snd (setOptions options w))) = isDragging (ctl w).
Proof.
  destruct (quiet_setOptions options w) as (H1 & _ & H3).
  unfold isDragging. rewrite H1. repeat split. exact H3.
Qed.

(** A computation that, run while the controller's event manager is not
    [r0], keeps the event manager and leaves the table of [r0] alone. *)
Definition spares (r0 : nat) {A : Type} (m : M World A) : Prop :=
  forall w, eventManager (ctl w) <> VRef r0 ->
    eventManager (ctl (snd (m w))) = eventManager (ctl w) /\
    forall name, (r0, name) ∈ listeners (snd (m w)) <-> (r0, name) ∈ listeners w.

Lemma bind_assoc {A B C : Type} (m : M World A) (f : A -> M World B)
    (g : B -> M World C) (w : World) :
  ((m ≫= f) ≫= g) w = (m ≫= (fun a => f a ≫= g)) w.
Proof. cbv [mbind M_bind]. destruct (m w) as [[a |] w1]; reflexivity. Qed.

Lemma spares_ret (r0 : nat) {A : Type} (a : A) : spares r0 (mret a : M World A).
Proof. intros w _. split; reflexivity. Qed.

Lemma spares_throw (r0 : nat) {A : Type} : spares r0 (throw : M World A).
Proof. intros w _. split; reflexivity. Qed.

Lemma spares_bind (r0 : nat) {A B : Type} (m : M World A) (k : A -> M World B) :
  spares r0 m -> (forall a, spares r0 (k a)) -> spares r0 (m ≫= k).
Proof.
  intros Hm Hk w Hw. cbv [mbind M_bind]. specialize (Hm w Hw).
  destruct (m w) as [[a |] w1]; cbn [snd] in *; [| exact Hm].
  destruct Hm as [He Hl].
  destruct (Hk a w1) as [He' Hl']; [congruence |].
  split; [congruence |]. intros name. rewrite Hl'. apply Hl.
Qed.

Lemma spares_this (r0 : nat) {B : Type} (k : Controls -> M World B) :
  (forall c, eventManager c <> VRef r0 -> spares r0 (k c)) ->
  spares r0 (this ≫= k).
Proof. intros Hk w Hw. exact (Hk (ctl w) Hw w Hw). Qed.

Lemma spares_update (r0 : nat) (f : Controls -> Controls) :
  (forall c, eventManager (f c) = eventManager c) -> spares r0 (update f).
Proof. intros Hf w _. split; [apply Hf | reflexivity]. Qed.

Lemma spares_em_on (r0 : nat) (em : Value) (name : string) :
  em <> VRef r0 -> spares r0 (em_on em name).
Proof.
  intros Hem w _. destruct em as [| | | | | r]; try (split; reflexivity).
  cbn. split; [reflexivity |]. intros n.
  assert (r <> r0) by congruence. set_solver.
Qed.

Lemma spares_em_off (r0 : nat) (em : Value) (name : string) :
  em <> VRef r0 -> spares r0 (em_off em name).
Proof.
  intros Hem w _. destruct em as [| | | | | r]; try (split; reflexivity).
  cbn. split; [reflexivity |]. intros n.
  assert (r <> r0) by congruence. set_solver.
Qed.

Lemma spares_forEach (r0 : nat) {A : Type} (l : list A) (f : A -> M World unit) :
  (forall x, spares r0 (f x)) -> spares r0 (forEach l f).
Proof.
  intros Hf. induction l as [| x l IH]; cbn [forEach].
  - apply spares_ret.
  - apply spares_bind; [apply Hf | intros _; exact IH].
Qed.

Lemma spares_toggleEvents (r0 : nat) (names : list string) (enabled : Value) :
  spares r0 (toggleEvents names enabled).
Proof.
  unfold toggleEvents. apply spares_this. intros c Hc.
  destruct (truthy (eventManager c)); [| apply spares_ret].
  apply spares_forEach. intros name. apply spares_this. intros c' Hc'.
  destruct (_events c'); [| apply spares_throw].
  destruct (strict_neq _ _); [| apply spares_ret].
  apply spares_bind; [apply spares_update; reflexivity |].
  intros _. destruct (truthy enabled);
    [apply spares_em_on | apply spares_em_off]; exact Hc'.
Qed.

(** [setOptions] changes registrations only on the event manager it ends
    with.  On every other event manager, and so on the previous one when the
    call replaces it (by another manager or by [null]), [handleEvent] stays
    registered for exactly the names it was registered for. *)
Theorem setOptions_spares_other_managers (options : Obj) (w : World) (r0 : nat) :
  with_default (get options "eventManager") (eventManager (ctl w)) <> VRef r0 ->
  forall name,
    (r0, name) ∈ listeners (snd (setOptions options w)) <-> (r0, name) ∈ listeners w.
Proof.
  intros Hem.
  destruct w as [c ls cs]. cbn [ctl listeners] in *.
  unfold setOptions. run_step. cbv zeta. do 3 run_step. cbn [ctl listeners calls].
  set (em := with_default (get options "eventManager") (eventManager c)) in *.
  match goal with
  | |- forall name, _ ∈ listeners (snd ((_ ≫= ?k) ?w3)) <-> _ =>
      assert (Hrest : forall a, spares r0 (k a))
  end.
  { intros _. repeat (apply spares_bind; [apply spares_toggleEvents | intros _]).
    apply spares_update. reflexivity. }
  destruct (strict_neq (eventManager c) em) eqn:E.
  - rewrite bind_assoc. run_step. cbn [ctl listeners calls].
    match goal with
    | |- forall name, _ ∈ listeners (snd (?m ?w4)) <-> _ =>
        assert (Hall : spares r0 m)
    end.
    { repeat (apply spares_bind; [| intros _]);
        try apply spares_toggleEvents; try (apply spares_update; reflexivity). }
    intros name. apply Hall. exact Hem.
  - run_step.
    intros name. apply (Hrest tt).
    cbn. apply negb_false_iff in E. apply strict_eq_eq in E. rewrite E. exact Hem.
Qed.

(** What is done to a controller after its construction. *)
Inductive Op : Type :=
| Configure (options : Obj)
| Deliver (event : Event).

Definition step (w : World) (op : Op) : World :=
  match op with
  | Configure options => snd (setOptions options w)
  | Deliver event => snd (handleEvent event w)
  end.

Definition well_typed (op : Op) : Prop :=
  match op with
  | Configure options => is_callback (get options "eventManager") = true
  | Deliver _ => True
  end.

(** The world after the construction with [options] and the operations
    [ops], in order. *)
Definition lifetime (options : Obj) (ls : gset (nat * string)) (ops : list Op) : World :=
  foldl step (snd (constructor options ls [])) ops.

(** The subscriptions are those that the current options ask for. *)
Definition in_sync (w : World) : Prop :=
  wf_world w /\
  forall name, name ∈ recognized ->
    (subscribed w name <->
     (exists r, eventManager (ctl w) = VRef r) /\
     truthy (onViewportChange (ctl w)) && toggle_of (ctl w) name = true).

Lemma setOptions_in_sync (options : Obj) (w : World) :
  wf_world w -> is_callback (get options "eventManager") = true ->
  in_sync (snd (setOptions options w)).
Proof.
  intros Hwf Hopt.
  destruct (setOptions_run options w Hwf Hopt)
    as (w' & Hrun & Hwf' & _ & _ & _ & _ & _ & _ & _ & _ & _ & _ & _ & Hsub).
  rewrite Hrun. split; assumption.
Qed.

Lemma handleEvent_in_sync (event : Event) (w : World) :
  in_sync w -> in_sync (snd (handleEvent event w)).
Proof.
  intros [Hwf Hsub]. split; [apply handleEvent_wf; exact Hwf |].
  destruct (keeps_handleEvent event w) as [Hc Hl].
  unfold config in Hc.
  injection Hc as _ Hem _ _ Hovc _ Hsz Hdp Hdr Hdcz Htz Htr Hkb.
  intros name Hn. unfold subscribed, toggle_of.
  rewrite Hem, Hl, Hovc, Hsz, Hdp, Hdr, Hdcz, Htz, Htr, Hkb.
  apply (Hsub name Hn).
Qed.

(** At every moment of a controller's life (after the constructor and any
    sequence of calls of [setOptions] and of events handled), [handleEvent]
    is registered on the controller's event manager for exactly the event
    names whose group is enabled by the current options: onViewportChange
    set and the toggle of the group on.  Event manager options are objects,
    [null] or omitted. *)
Theorem subscriptions_follow_options (options : Obj) (ls : gset (nat * string))
    (ops : list Op) :
  is_callback (get options "eventManager") = true ->
  Forall well_typed ops ->
  forall name, name ∈ recognized ->
    (subscribed (lifetime options ls ops) name <->
     (exists r, eventManager (ctl (lifetime options ls ops)) = VRef r) /\
     truthy (onViewportChange (ctl (lifetime options ls ops)))
       && toggle_of (ctl (lifetime options ls ops)) name = true).
Proof.
  intros Hopt Hops.
  assert (H0 : in_sync (snd (constructor options ls []))).
  { apply setOptions_in_sync; [apply wf_new_controls | exact Hopt]. }
  unfold lifetime.
  generalize dependent (snd (constructor options ls [])).
  induction Hops as [| op ops Hop _ IH]; intros w Hw.
  - apply Hw.
  - cbn [foldl]. apply IH. destruct op as [o | e]; cbn [step].
    + apply setOptions_in_sync; [apply Hw | exact Hop].
    + apply handleEvent_in_sync. exact Hw.
Qed.

(** A controller constructed with an event manager and an onViewportChange
    callback, and with the toggles scrollZoom, dragPan, doubleClickZoom,
    touchZoom and keyboard left out, is registered for all nine event names
    (touchRotate defaults to off, but touchZoom alone enables the pinch
    group), and is not dragging. *)
Theorem constructor_defaults_subscribe_all (options : Obj)
    (ls : gset (nat * string)) (r : nat) :
  get options "eventManager" = VRef r ->
  truthy (get options "onViewportChange") = true ->
  get options "scrollZoom" = VUndef ->
  get options "dragPan" = VUndef ->
  get options "doubleClickZoom" = VUndef ->
  get options "touchZoom" = VUndef ->
  get options "keyboard" = VUndef ->
  fst (constructor options ls []) = Ret tt /\
  (forall name, name ∈ recognized ->
     (r, name) ∈ listeners (snd (constructor options ls []))) /\
  isDragging (ctl (snd (constructor options ls []))) = VBool false.
Proof.
  intros Hem Hovc Hsz Hdp Hdcz Htz Hkb. unfold constructor.
  destruct (setOptions_run options (mkWorld new_controls ls [])
              (wf_new_controls ls []) ltac:(rewrite Hem; reflexivity))
    as (w' & Hrun & _ & _ & Hv & _ & He & Hsz' & Hdp' & _ & Hdcz' & Htz' & _ & Hkb' & Hsub).
  rewrite Hrun. cbn [fst snd]. split; [reflexivity |]. split.
  - intros name Hn. specialize (Hsub name Hn).
    unfold subscribed in Hsub. rewrite He, Hem in Hsub. cbn [with_default] in Hsub.
    apply Hsub. split; [eauto |].
    rewrite Hv, Hovc. cbn [andb].
    unfold toggle_of. rewrite Hsz', Hdp', Hdcz', Htz', Hkb', Hsz, Hdp, Hdcz, Htz, Hkb.
    cbn [with_default truthy orb].
    unfold recognized, EVENT_TYPES.WHEEL, EVENT_TYPES.PAN, EVENT_TYPES.PINCH,
      EVENT_TYPES.DOUBLE_TAP, EVENT_TYPES.KEYBOARD in Hn. cbn [app] in Hn.
    repeat (apply elem_of_cons in Hn as [-> | Hn]);
      try (apply elem_of_nil in Hn; contradiction); reflexivity.
  - destruct (quiet_setOptions options (mkWorld new_controls ls [])) as (Hst & _).
    rewrite Hrun in Hst. cbn [snd] in Hst. unfold isDragging. rewrite Hst. reflexivity.
Qed.

End lifetime.

(** ** More arithmetic of the wheel and of pan-to-rotate *)

Section more_arithmetic.

Context `{VS : ViewportStateClass} `{HO : Host}.

Lemma saturating_opp (d : R) : saturating (- d) = saturating d.
Proof. unfold saturating. rewrite Rabs_Ropp. reflexivity. Qed.

(** The wheel scale of the opposite delta is the reciprocal scale, so that
    the two compose to 1; delta 0 gives scale 1; a positive delta gives a
    scale above 1 and a negative delta a scale below 1. *)
Theorem wheel_scale_reciprocal (d : R) :
  exists s : R,
    wheelScale d = Fin s /\
    wheelScale (- d) = Fin (1 / s) /\
    0 < s /\
    (d = 0 -> s = 1) /\ (0 < d -> 1 < s) /\ (d < 0 -> s < 1).
Proof.
  pose proof (saturating_bounds d) as [Hlo Hhi].
  destruct (Rtotal_order d 0) as [Hneg | [Hz | Hpos]].
  - exists (1 / saturating d).
    pose proof (inv_saturating_lt_1 d ltac:(lra)) as Hinv.
    pose proof (half_lt_inv_saturating d) as [Hh _].
    rewrite wheelScale_neg by exact Hneg.
    rewrite wheelScale_nonneg by lra. rewrite saturating_opp.
    split; [reflexivity |]. split; [f_equal; field; lra |].
    repeat split; intros; lra.
  - subst d. exists 1. rewrite Ropp_0.
    rewrite wheelScale_nonneg by lra. rewrite saturating_0.
    split; [reflexivity |]. split; [f_equal; lra |].
    repeat split; intros; lra.
  - exists (saturating d).
    pose proof (saturating_gt_1 d ltac:(lra)) as Hgt.
    rewrite wheelScale_nonneg by lra.
    rewrite wheelScale_neg by lra. rewrite saturating_opp.
    split; [reflexivity |]. split; [reflexivity |].
    repeat split; intros; lra.
Qed.

Lemma saturating_increasing (a b : R) :
  0 <= a < b -> saturating a < saturating b.
Proof.
  intros [Ha Hab]. unfold saturating.
  rewrite (Rabs_right a) by lra. rewrite (Rabs_right b) by lra.
  assert (He : exp (- (b * ZOOM_ACCEL)) < exp (- (a * ZOOM_ACCEL))).
  { apply exp_increasing. unfold ZOOM_ACCEL. lra. }
  pose proof (exp_pos (- (b * ZOOM_ACCEL))) as Hb.
  pose proof (exp_pos (- (a * ZOOM_ACCEL))) as Hpa.
  unfold Rdiv. apply Rmult_lt_compat_l; [lra |].
  apply Rinv_lt_contravar; [| lra].
  apply Rmult_lt_0_compat; lra.
Qed.

(** The wheel scale grows strictly with the delta, over negative and
    positive deltas alike. *)
Theorem wheel_scale_increasing (a b : R) :
  a < b ->
  exists sa sb : R, wheelScale a = Fin sa /\ wheelScale b = Fin sb /\ sa < sb.
Proof.
  intros Hab.
  pose proof (saturating_bounds a) as [Hla Hua].
  pose proof (saturating_bounds b) as [Hlb Hub].
  destruct (Rlt_dec a 0) as [Ha | Ha]; destruct (Rlt_dec b 0) as [Hb | Hb].
  - exists (1 / saturating a), (1 / saturating b).
    rewrite !wheelScale_neg by assumption.
    split; [reflexivity |]. split; [reflexivity |].
    assert (Hs : saturating b < saturating a).
    { rewrite <- (saturating_opp a), <- (saturating_opp b).
      apply saturating_increasing. lra. }
    unfold Rdiv. rewrite !Rmult_1_l.
    apply Rinv_lt_contravar; [| exact Hs].
    apply Rmult_lt_0_compat; lra.
  - exists (1 / saturating a), (saturating b).
    rewrite wheelScale_neg by assumption. rewrite wheelScale_nonneg by lra.
    split; [reflexivity |]. split; [reflexivity |].
    pose proof (inv_saturating_lt_1 a ltac:(lra)). lra.
  - lra.
  - exists (saturating a), (saturating b).
    rewrite !wheelScale_nonneg by lra.
    split; [reflexivity |]. split; [reflexivity |].
    apply saturating_increasing. lra.
Qed.

Lemma Rmin_Rmax_id (x : R) : -1 <= x <= 1 -> Rmin 1 (Rmax (-1) x) = x.
Proof.
  intros [H1 H2]. unfold Rmin, Rmax.
  destruct (Rle_dec (-1) x); [| lra]. destruct (Rle_dec 1 x); lra.
Qed.

Lemma Rmin_Rmax_low (x : R) : x <= -1 -> Rmin 1 (Rmax (-1) x) = -1.
Proof.
  intros H. unfold Rmin, Rmax.
  destruct (Rle_dec (-1) x); destruct (Rle_dec 1 _); lra.
Qed.

Lemma Rmin_Rmax_high (x : R) : 1 <= x -> Rmin 1 (Rmax (-1) x) = 1.
Proof.
  intros H. unfold Rmin, Rmax.
  destruct (Rle_dec (-1) x); destruct (Rle_dec 1 _); lra.
Qed.

(** Dragging down on the map-like path, from a point more than 5 pixels
    above the bottom edge of a viewport of height [h]: the pitch fraction is
    negative, it is -1.2 * deltaY / (h - startY) until that reaches -1, and
    it stays at -1 once the drag has covered 1/1.2 of the way to the bottom
    edge. *)
Theorem map_pitch_dragging_down (event : Event) (h : R) :
  let startY := snd (getCenter event) - deltaY event in
  0 < deltaY event ->
  startY < h - 5 ->
  exists y : R,
    mapDeltaScaleY event (Fin h) = Fin y /\
    -1 <= y < 0 /\
    (1.2 * deltaY event <= h - startY -> y = - (1.2 * deltaY event / (h - startY))) /\
    (h - startY <= 1.2 * deltaY event -> y = -1).
Proof.
  intros startY Hd Hs.
  destruct (mapDeltaScaleY_raw event (Fin h)) as (x & Hx & Hdown & _).
  assert (Hfar : Rabs (h - startY) > PITCH_MOUSE_THRESHOLD).
  { unfold PITCH_MOUSE_THRESHOLD. rewrite Rabs_right; lra. }
  specialize (Hdown h eq_refl Hd Hfar). fold startY in Hdown.
  assert (Hx' : x = - (1.2 * deltaY event / (h - startY))).
  { rewrite Hdown. unfold PITCH_ACCEL. field. lra. }
  assert (Hq : 0 < 1.2 * deltaY event / (h - startY)).
  { apply Rdiv_lt_0_compat; lra. }
  exists (Rmin 1 (Rmax (-1) x)). split; [exact Hx |].
  destruct (Rle_dec (1.2 * deltaY event) (h - startY)) as [Hle | Hgt].
  - assert (Hq1 : 1.2 * deltaY event / (h - startY) <= 1).
    { apply Rmult_le_reg_r with (h - startY); [lra |].
      unfold Rdiv. rewrite Rmult_assoc, Rinv_l; lra. }
    rewrite Rmin_Rmax_id by lra.
    split; [lra |]. split; [intros _; exact Hx' |].
    intros Hge. assert (1.2 * deltaY event = h - startY) as Heq by lra.
    rewrite Hx', Heq. field. lra.
  - assert (Hq1 : 1 < 1.2 * deltaY event / (h - startY)).
    { apply Rmult_lt_reg_r with (h - startY); [lra |].
      unfold Rdiv. rewrite Rmult_assoc, Rinv_l; lra. }
    rewrite Rmin_Rmax_low by lra.
    split; [lra |]. split; [intros Hle; lra | intros _; reflexivity].
Qed.

(** Dragging up on the map-like path, from a point more than 5 pixels below
    the top edge: the pitch fraction is positive, it is the part of the way
    to the top edge that the drag has covered, -deltaY / startY, and it is 1
    exactly when the pointer is at or above the top edge. *)
Theorem map_pitch_dragging_up (event : Event) (height : num) :
  let centerY := snd (getCenter event) in
  let startY := centerY - deltaY event in
  deltaY event < 0 ->
  5 < startY ->
  exists y : R,
    mapDeltaScaleY event height = Fin y /\
    0 < y <= 1 /\
    (0 <= centerY -> y = - deltaY event / startY) /\
    (y = 1 <-> centerY <= 0).
Proof.
  intros centerY startY Hd Hs.
  destruct (mapDeltaScaleY_raw event height) as (x & Hx & _ & Hup).
  assert (Hfar : startY > PITCH_MOUSE_THRESHOLD) by (unfold PITCH_MOUSE_THRESHOLD; lra).
  specialize (Hup Hd Hfar). fold centerY startY in Hup.
  assert (Hx' : x = - deltaY event / startY).
  { rewrite Hup. unfold startY. field. fold startY. lra. }
  assert (Hq : 0 < - deltaY event / startY).
  { apply Rdiv_lt_0_compat; lra. }
  exists (Rmin 1 (Rmax (-1) x)). split; [exact Hx |].
  destruct (Rle_dec 0 centerY) as [Hc | Hc].
  - assert (Hq1 : - deltaY event / startY <= 1).
    { apply Rmult_le_reg_r with startY; [lra |].
      unfold Rdiv. rewrite Rmult_assoc, Rinv_l; unfold startY in *; lra. }
    rewrite Rmin_Rmax_id by lra.
    split; [lra |]. split; [intros _; exact Hx' |].
    split.
    + intros H1. rewrite Hx' in H1.
      assert (- deltaY event = startY).
      { apply Rmult_eq_reg_r with (/ startY).
        - rewrite Rinv_r by lra. exact H1.
        - apply Rinv_neq_0_compat. lra. }
      unfold startY in *. lra.
    + intros Hle. assert (centerY = 0) as Hz by lra.
      rewrite Hx'. unfold startY. rewrite Hz. field. lra.
  - assert (Hq1 : 1 < - deltaY event / startY).
    { apply Rmult_lt_reg_r with startY; [lra |].
      unfold Rdiv. rewrite Rmult_assoc, Rinv_l; unfold startY in *; lra. }
    rewrite Rmin_Rmax_high by lra.
    split; [lra |]. split; [intros H0; lra |].
    split; [intros _; lra | intros _; reflexivity].
Qed.

(** The dead zones of the map-like path: no vertical movement, a downward
    drag that starts within 5 pixels of the bottom edge, an upward drag that
    starts within 5 pixels of the top edge, and a viewport whose height is
    not a number, all give the pitch fraction 0. *)
Theorem map_pitch_dead_zones (event : Event) (height : num) :
  let startY := snd (getCenter event) - deltaY event in
  deltaY event = 0 \/
  (0 < deltaY event /\ exists h, height = Fin h /\ Rabs (h - startY) <= 5) \/
  (0 < deltaY event /\ height = NaN) \/
  (deltaY event < 0 /\ startY <= 5) ->
  mapDeltaScaleY event height = Fin 0.
Proof.
  intros startY H. unfold mapDeltaScaleY. cbv zeta. fold startY.
  assert (Hc : JsNum.min (Fin 1) (JsNum.max (Fin (-1)) (Fin 0)) = Fin 0).
  { rewrite clamp_fin. f_equal. apply Rmin_Rmax_id. lra. }
  destruct H as [Hz | [[Hd (h & -> & Hnear)] | [[Hd ->] | [Hd Hnear]]]].
  - rewrite Hz. rewrite (Rltb_false 0 0) by lra. exact Hc.
  - rewrite (Rltb_true 0 (deltaY event)) by exact Hd.
    cbn [JsNum.sub JsNum.neg JsNum.add JsNum.abs JsNum.gtb JsNum.ltb].
    rewrite Rltb_false; [exact Hc |]. unfold PITCH_MOUSE_THRESHOLD.
    unfold Rminus in Hnear. lra.
  - rewrite (Rltb_true 0 (deltaY event)) by exact Hd. exact Hc.
  - rewrite (Rltb_false 0 (deltaY event)) by lra.
    rewrite (Rltb_true (deltaY event) 0) by exact Hd.
    rewrite Rltb_false; [exact Hc |]. unfold PITCH_MOUSE_THRESHOLD. lra.
Qed.

(** Pan-to-rotate on the other variants: the fractions are deltaX / width
    and deltaY / height.  Nothing guards the division: a viewport whose
    width is 0 or is missing reaches [rotate] as a horizontal fraction that
    is not a finite number (an infinity, or NaN when deltaX is 0 too). *)
Theorem standard_rotate_fractions (event : Event) (w : World) (vs : vstate) :
  viewState (ctl w) = Some vs ->
  let width := to_number (get (getViewportProps vs) "width") in
  let height := to_number (get (getViewportProps vs) "height") in
  exists deltaScaleX deltaScaleY : num,
    _onPanRotateStandard event w =
      updateViewport (rotate vs deltaScaleX (Some deltaScaleY))
        (Some NO_TRANSITION_PROPS) {[ "isDragging" := VBool true ]} w /\
    (forall wd, width = Fin wd -> wd <> 0 -> deltaScaleX = Fin (deltaX event / wd)) /\
    (forall ht, height = Fin ht -> ht <> 0 -> deltaScaleY = Fin (deltaY event / ht)) /\
    (width = Fin 0 \/ get (getViewportProps vs) "width" = VUndef ->
     forall x, deltaScaleX <> Fin x).
Proof.
  intros Hvs width height.
  exists (JsNum.div (Fin (deltaX event)) width), (JsNum.div (Fin (deltaY event)) height).
  split; [| split; [| split]].
  - unfold _onPanRotateStandard. unfold_M. mred. rewrite Hvs. reflexivity.
  - intros wd -> Hwd. cbn [JsNum.div]. rewrite Reqb_false by exact Hwd. reflexivity.
  - intros ht -> Hht. cbn [JsNum.div]. rewrite Reqb_false by exact Hht. reflexivity.
  - intros [Hz | Hu] x.
    + rewrite Hz. cbn [JsNum.div]. rewrite Reqb_true by reflexivity.
      unfold JsNum.inf_of_sign. destruct (Rltb 0 _); [discriminate |].
      destruct (Rltb _ 0); discriminate.
    + unfold width. rewrite Hu. cbn [to_number JsNum.div]. discriminate.
Qed.

End more_arithmetic.

(** ** Pinch rotation *)

Section pinch.

Context `{VS : ViewportStateClass} `{HO : Host}.

Lemma get_merged_state_other (c : Controls) (nvs : vstate) (es : Obj) (key : string) :
  getInteractiveState nvs !! key = None ->
  es !! key = None ->
  get (merged_state c nvs es) key = get (_state c) key.
Proof.
  intros Hi He. unfold merged_state.
  rewrite get_assign.
  assert (H : assign (assign ∅ (getInteractiveState nvs)) es !! key = None).
  { unfold assign. rewrite !lookup_union, He, Hi, lookup_empty. reflexivity. }
  rewrite H. reflexivity.
Qed.

Lemma _onPinch_rotates (event : Event) (w : World) (vs : vstate) :
  viewState (ctl w) = Some vs ->
  truthy (touchRotate (ctl w)) = true ->
  _onPinch event w =
  updateViewport
    (rotate (if truthy (touchZoom (ctl w))
             then zoom vs (getCenter event) (Fin (scale event)) else vs)
       (JsNum.div
          (JsNum.neg (JsNum.sub (Fin (rotation event))
                        (to_number (get (_state (ctl w)) "startPinchRotation"))))
          (Fin 180))
       None)
    (Some NO_TRANSITION_PROPS) {[ "isDragging" := VBool true ]} w.
Proof.
  intros Hvs Hr. unfold _onPinch. unfold_M. mred.
  rewrite Hr. rewrite andb_false_r. mred. rewrite Hvs. reflexivity.
Qed.

(** The rotation of a pinch is taken relative to the rotation reported at
    pinchstart: pinchstart records it in [_state.startPinchRotation] (it
    survives the merge of the interaction state unless the ViewportState
    reports a property of that name), and a pinchmove handled with
    touchRotate on asks [rotate] for -(rotation - startRotation) / 180, after
    the zoom by the pinch scale when touchZoom is on too. *)
Theorem pinch_rotation_is_relative (start move : Event) (w : World) :
  type start = "pinchstart" ->
  type move = "pinchmove" ->
  is_callback (onViewportChange (ctl w)) = true ->
  is_callback (onStateChange (ctl w)) = true ->
  truthy (touchRotate (ctl w)) = true ->
  getInteractiveState
    (rotateStart (zoomStart (fresh_viewState (ctl w)) (getCenter start)) (getCenter start))
    !! "startPinchRotation" = None ->
  let w1 := snd (handleEvent start w) in
  let vs1 := fresh_viewState (ctl w1) in
  get (_state (ctl w1)) "startPinchRotation" = VNum (Fin (rotation start)) /\
  handleEvent move w1 =
    updateViewport
      (rotate (if truthy (touchZoom (ctl w))
               then zoom vs1 (getCenter move) (Fin (scale move)) else vs1)
         (Fin (- (rotation move - rotation start) / 180)) None)
      (Some NO_TRANSITION_PROPS) {[ "isDragging" := VBool true ]} (entered w1).
Proof.
  intros Hs Hm Hv Ho Hr Hi w1 vs1.
  assert (Hst : get (_state (ctl w1)) "startPinchRotation" = VNum (Fin (rotation start))).
  { unfold w1. rewrite handleEvent_enter, Hs.
    cbn [switch String.eqb Ascii.eqb Bool.eqb].
    rewrite (_onPinchStart_shape _ _ _ (entered_viewState w)).
    erewrite updateViewport_spec by (try reflexivity; assumption).
    cbn [snd ctl _state set__state].
    rewrite get_merged_state_other; [| exact Hi | reflexivity].
    cbn [_state set__state]. apply get_insert_eq. }
  split; [exact Hst |].
  destruct (keeps_handleEvent start w) as [Hc _]. fold w1 in Hc.
  unfold config in Hc. injection Hc as _ _ _ _ _ _ _ _ _ _ Htz Htr _.
  rewrite handleEvent_enter, Hm. cbn [switch String.eqb Ascii.eqb Bool.eqb].
  rewrite (_onPinch_rotates move (entered w1) vs1);
    [| reflexivity
     | change (touchRotate (ctl (entered w1))) with (touchRotate (ctl w1));
       rewrite Htr; exact Hr].
  change (touchZoom (ctl (entered w1))) with (touchZoom (ctl w1)).
  change (_state (ctl (entered w1))) with (_state (ctl w1)).
  rewrite Htz, Hst.
  cbn [to_number JsNum.sub JsNum.neg JsNum.add JsNum.div].
  rewrite Reqb_false by lra. reflexivity.
Qed.

(** A pinchmove with touchRotate on that no pinchstart has preceded (no
    [startPinchRotation] in [_state]) asks [rotate] for NaN. *)
Theorem pinchmove_without_start_rotates_by_NaN (move : Event) (w : World) :
  type move = "pinchmove" ->
  truthy (touchRotate (ctl w)) = true ->
  get (_state (ctl w)) "startPinchRotation" = VUndef ->
  let vs := fresh_viewState (ctl w) in
  handleEvent move w =
    updateViewport
      (rotate (if truthy (touchZoom (ctl w))
               then zoom vs (getCenter move) (Fin (scale move)) else vs)
         NaN None)
      (Some NO_TRANSITION_PROPS) {[ "isDragging" := VBool true ]} (entered w).
Proof.
  intros Hm Hr Hu vs.
  rewrite handleEvent_enter, Hm. cbn [switch String.eqb Ascii.eqb Bool.eqb].
  rewrite (_onPinch_rotates move (entered w) vs) by (try reflexivity; exact Hr).
  change (_state (ctl (entered w))) with (_state (ctl w)). rewrite Hu.
  reflexivity.
Qed.

(** pinchend puts [startPinchRotation] back to 0 and ends the drag. *)
Theorem pinchend_resets_rotation (finish : Event) (w : World) :
  type finish = "pinchend" ->
  is_callback (onViewportChange (ctl w)) = true ->
  is_callback (onStateChange (ctl w)) = true ->
  getInteractiveState (rotateEnd (zoomEnd (fresh_viewState (ctl w))))
    !! "startPinchRotation" = None ->
  get (_state (ctl (snd (handleEvent finish w)))) "startPinchRotation" = VNum (Fin 0) /\
  isDragging (ctl (snd (handleEvent finish w))) = VBool false.
Proof.
  intros Hf Hv Ho Hi.
  rewrite handleEvent_enter, Hf. cbn [switch String.eqb Ascii.eqb Bool.eqb].
  rewrite (_onPinchEnd_shape _ _ _ (entered_viewState w)).
  erewrite updateViewport_spec by (try reflexivity; assumption).
  cbn [snd ctl _state set__state]. split.
  - rewrite get_merged_state_other; [| exact Hi | reflexivity].
    cbn [_state set__state]. apply get_insert_eq.
  - unfold isDragging. cbn [_state set__state]. apply get_merged_state_isDragging.
Qed.

End pinch.

(** ** Reconfiguring with the same options *)

Section idempotence.

Context `{VS : ViewportStateClass} `{HO : Host}.

Lemma lookup_of_get (o : Obj) (key : string) (v : Value) :
  get o key = v -> v <> VUndef -> o !! key = Some v.
Proof.
  unfold get. destruct (o !! key) as [x |]; cbn; intros H Hv; congruence.
Qed.

(** The values that [setOptions] hands to [toggleEvents] for the five
    groups. *)
Definition enabled_values (options : Obj) : Value * Value * Value * Value * Value :=
  let interactive := VBool (truthy (get options "onViewportChange")) in
  (js_and interactive (with_default (get options "scrollZoom") (VBool true)),
   js_and interactive
     (js_or (with_default (get options "dragPan") (VBool true))
            (with_default (get options "dragRotate") (VBool true))),
   js_and interactive
     (js_or (with_default (get options "touchZoom") (VBool true))
            (with_default (get options "touchRotate") (VBool false))),
   js_and interactive (with_default (get options "doubleClickZoom") (VBool true)),
   js_and interactive (with_default (get options "keyboard") (VBool true))).

Definition records (evs : Obj) (e : Value * Value * Value * Value * Value) : Prop :=
  let '(e1, e2, e3, e4, e5) := e in
  (forall name, name ∈ EVENT_TYPES.WHEEL -> evs !! name = Some e1) /\
  (forall name, name ∈ EVENT_TYPES.PAN -> evs !! name = Some e2) /\
  (forall name, name ∈ EVENT_TYPES.PINCH -> evs !! name = Some e3) /\
  (forall name, name ∈ EVENT_TYPES.DOUBLE_TAP -> evs !! name = Some e4) /\
  (forall name, name ∈ EVENT_TYPES.KEYBOARD -> evs !! name = Some e5).

(** The controller after [setOptions], field by field. *)
Definition configured (options : Obj) (c c' : Controls) : Prop :=
  c' =
  mkControls (viewState c) (Some options)
    (with_default (get options "eventManager") (eventManager c))
    (_events c') (_state c) (events c)
    (get options "onViewportChange")
    (with_default (get options "onStateChange") (onStateChange c))
    (with_default (get options "scrollZoom") (VBool true))
    (with_default (get options "dragPan") (VBool true))
    (with_default (get options "dragRotate") (VBool true))
    (with_default (get options "doubleClickZoom") (VBool true))
    (with_default (get options "touchZoom") (VBool true))
    (with_default (get options "touchRotate") (VBool false))
    (with_default (get options "keyboard") (VBool true)).

Lemma setOptions_settled (options : Obj) (w : World) :
  wf_world w ->
  is_callback (get options "eventManager") = true ->
  exists w',
    setOptions options w = (Ret tt, w') /\
    wf_world w' /\
    calls w' = calls w /\
    configured options (ctl w) (ctl w') /\
    (truthy (eventManager (ctl w')) = false ->
     _events (ctl w') = (if strict_neq (eventManager (ctl w)) (eventManager (ctl w'))
                         then Some ∅ else _events (ctl w)) /\
     listeners w' = listeners w) /\
    forall r, eventManager (ctl w') = VRef r ->
      exists evs, _events (ctl w') = Some evs /\
        tracked r evs (listeners w') /\
        records evs (enabled_values options).
Proof.
  intros [Hevents Hwf] Hopt.
  destruct w as [c ls cs]. cbn [ctl listeners calls] in *.
  unfold setOptions. run_step. cbv zeta.
  set (ovc := get options "onViewportChange").
  set (osc := with_default (get options "onStateChange") (onStateChange c)).
  set (sz := with_default (get options "scrollZoom") (VBool true)).
  set (dp := with_default (get options "dragPan") (VBool true)).
  set (dr := with_default (get options "dragRotate") (VBool true)).
  set (dcz := with_default (get options "doubleClickZoom") (VBool true)).
  set (tz := with_default (get options "touchZoom") (VBool true)).
  set (tr := with_default (get options "touchRotate") (VBool false)).
  set (kb := with_default (get options "keyboard") (VBool true)).
  do 3 run_step. cbn [ctl listeners calls].
  fold osc.
  set (em := with_default (get options "eventManager") (eventManager c)).
  set (c3 := set_viewStateProps (Some options)
               (set_onStateChange osc (set_onViewportChange ovc c))).
  set (c4 := if strict_neq (eventManager c) em
             then set__events (Some ∅) (set_eventManager em c3) else c3).
  assert (Hem_typed : is_callback em = true).
  { apply is_callback_with_default; [exact Hopt |].
    destruct (eventManager c); try reflexivity; contradiction. }
  assert (Hblock :
    (if strict_neq (eventManager c) em
     then update (set_eventManager em) ;;
          update (set__events (Some ∅)) ;;
          toggleEvents (events c) (VBool true)
     else mret tt) (mkWorld c3 ls cs) = (Ret tt, mkWorld c4 ls cs)).
  { unfold c4. destruct (strict_neq (eventManager c) em); [| reflexivity].
    do 2 run_step. rewrite Hevents. unfold toggleEvents.
    cbv [mbind M_bind this forEach mret M_ret update]. cbn [ctl].
    destruct (truthy _); reflexivity. }
  assert (Hc4 : c4 =
    mkControls (viewState c) (Some options) em
      (if strict_neq (eventManager c) em then Some ∅ else _events c)
      (_state c) (events c) ovc osc
      (scrollZoom c) (dragPan c) (dragRotate c) (doubleClickZoom c)
      (touchZoom c) (touchRotate c) (keyboard c)).
  { unfold c4. destruct (strict_neq (eventManager c) em) eqn:E; [reflexivity |].
    apply negb_false_iff in E. apply strict_eq_eq in E.
    rewrite <- E. reflexivity. }
  assert (Htr4 : forall r, em = VRef r ->
            exists evs, _events c4 = Some evs /\ tracked r evs ls).
  { intros r Hr. rewrite Hc4. cbn [_events].
    destruct (strict_neq (eventManager c) em) eqn:E.
    - exists ∅. split; [reflexivity | apply tracked_empty].
    - apply negb_false_iff in E. apply strict_eq_eq in E.
      rewrite E, Hr in Hwf. exact Hwf. }
  clearbody c4.
  rewrite (bind_run _ _ _ _ _ Hblock).
  assert (Hsz : sz <> VUndef) by (apply with_default_not_undef; discriminate).
  assert (Hdr : dr <> VUndef) by (apply with_default_not_undef; discriminate).
  assert (Htrn : tr <> VUndef) by (apply with_default_not_undef; discriminate).
  assert (Hdcz : dcz <> VUndef) by (apply with_default_not_undef; discriminate).
  assert (Hkb : kb <> VUndef) by (apply with_default_not_undef; discriminate).
  assert (Hem4 : eventManager c4 = em) by (rewrite Hc4; reflexivity).
  destruct (truthy em) eqn:Htruthy.
  2:{ assert (Hf : truthy (eventManager (ctl (mkWorld c4 ls cs))) = false)
        by (cbn [ctl]; rewrite Hem4; exact Htruthy).
      rewrite !(bind_run _ _ _ _ _ (toggleEvents_absent _ _ (mkWorld c4 ls cs) Hf)).
      eexists. split; [reflexivity |]. cbn [ctl listeners calls].
      rewrite Hc4. cbn.
      split; [split; [exact Hevents | destruct em; try discriminate; exact I] |].
      split; [reflexivity |]. split; [reflexivity |].
      split; [intros _; split; reflexivity |].
      intros r Hr. rewrite Hr in Htruthy. discriminate. }
  destruct em as [| | b | n | s | r] eqn:Eem; try discriminate.
  - destruct (Htr4 r eq_refl) as (evs4 & Hevs4 & Htrk4).
    match goal with
    | |- context [toggleEvents EVENT_TYPES.WHEEL ?e1 ≫= fun _ =>
                  toggleEvents EVENT_TYPES.PAN ?e2 ≫= fun _ =>
                  toggleEvents EVENT_TYPES.PINCH ?e3 ≫= fun _ =>
                  toggleEvents EVENT_TYPES.DOUBLE_TAP ?e4 ≫= fun _ =>
                  toggleEvents EVENT_TYPES.KEYBOARD ?e5 ≫= fun _ => ?k] =>
        destruct (five_toggles e1 e2 e3 e4 e5 k r c4 evs4 ls cs Hem4 Hevs4 Htrk4)
          as (evs' & ls' & Hrun & Htr' & H1 & H2 & H3 & H4 & H5)
    end.
    rewrite Hrun.
    eexists. split; [reflexivity |]. cbn [ctl listeners calls].
    rewrite Hc4. cbn.
    split.
    { split; [exact Hevents |]. exists evs'. split; [reflexivity | exact Htr']. }
    split; [reflexivity |].
    split; [unfold configured; fold em; rewrite Eem; reflexivity |].
    split; [intros Hf; discriminate |].
    intros r' [= <-]. exists evs'. split; [reflexivity |]. split; [exact Htr' |].
    unfold records, enabled_values. fold ovc sz dp dr dcz tz tr kb.
    repeat split; intros name Hn; apply lookup_of_get;
      try (apply js_and_bool_not_undef; try apply js_or_not_undef; assumption).
    + apply H1; exact Hn.
    + apply H2; exact Hn.
    + apply H3; exact Hn.
    + apply H4; exact Hn.
    + apply H5; exact Hn.
Qed.


Lemma with_default_idem (v d : Value) :
  with_default v (with_default v d) = with_default v d.
Proof. destruct v; reflexivity. Qed.

Lemma strict_neq_callback (v : Value) : is_callback v = true -> strict_neq v v = false.
Proof.
  destruct v as [| | | | | r]; try discriminate; try reflexivity.
  intros _. unfold strict_neq. cbn. rewrite Nat.eqb_refl. reflexivity.
Qed.

(** Toggling to the values that are already recorded changes nothing. *)
Lemma toggleEvents_noop (names : list string) (enabled : Value) (r : nat)
    (c : Controls) (evs : Obj) (ls : gset (nat * string)) (cs : list Call) :
  eventManager c = VRef r ->
  _events c = Some evs ->
  tracked r evs ls ->
  (forall name, name ∈ names -> evs !! name = Some enabled) ->
  toggleEvents names enabled (mkWorld c ls cs) = (Ret tt, mkWorld c ls cs).
Proof.
  intros Hem Hev Htr Hall.
  unfold toggleEvents. cbv [mbind M_bind this]. cbn [ctl]. rewrite Hem. cbn [truthy].
  induction names as [| name names IH]; [reflexivity |].
  cbn [forEach]. cbv [mbind M_bind this]. cbn [ctl]. rewrite Hev.
  assert (Hname : evs !! name = Some enabled) by (apply Hall; set_solver).
  assert (Hget : get evs name = enabled) by (unfold get; rewrite Hname; reflexivity).
  rewrite Hget.
  assert (Hrest : forall n, n ∈ names -> evs !! n = Some enabled)
    by (intros n Hn; apply Hall; set_solver).
  destruct (strict_neq enabled enabled) eqn:Hneq.
  - assert (Hnu : get evs name <> VUndef).
    { rewrite Hget. intros ->. discriminate. }
    specialize (Htr name Hnu). rewrite Hget in Htr.
    cbv [update]. cbn [ctl listeners calls].
    rewrite insert_id by exact Hname.
    rewrite set__events_same by exact Hev.
    rewrite Hem.
    destruct (truthy enabled) eqn:Ht; cbn [em_on em_off ctl listeners calls].
    + replace ({[(r, name)]} ∪ ls) with ls.
      * apply IH. exact Hrest.
      * symmetry. apply subseteq_union_1_L. apply singleton_subseteq_l.
        apply Htr. reflexivity.
    + replace (ls ∖ {[(r, name)]}) with ls.
      * apply IH. exact Hrest.
      * symmetry. apply difference_disjoint_L. apply disjoint_singleton_r.
        intros Hin. apply Htr in Hin. discriminate.
  - cbv [mret M_ret]. apply IH. exact Hrest.
Qed.

(** A second call of [setOptions] with the same options changes nothing:
    it returns, and the controller, the registrations and the calls made are
    what the first call left. *)
Theorem setOptions_idempotent (options : Obj) (w : World) :
  wf_world w ->
  is_callback (get options "eventManager") = true ->
  setOptions options (snd (setOptions options w)) =
  (Ret tt, snd (setOptions options w)).
Proof.
  intros Hwf Hopt.
  destruct (setOptions_settled options w Hwf Hopt)
    as (w' & Hrun & Hwf' & _ & Hconf & _ & Hrec).
  rewrite Hrun. cbn [snd].
  destruct w' as [c' ls' cs']. cbn [ctl listeners calls] in *.
  set (em := with_default (get options "eventManager") (eventManager (ctl w))) in *.
  assert (Hem_typed : is_callback em = true).
  { apply is_callback_with_default; [exact Hopt |].
    destruct Hwf as [_ Hwf]. destruct (eventManager (ctl w)); try reflexivity; contradiction. }
  assert (Hem' : eventManager c' = em) by (rewrite Hconf; reflexivity).
  assert (Hsame :
    set_viewStateProps (Some options)
      (set_onStateChange (with_default (get options "onStateChange") (onStateChange c'))
         (set_onViewportChange (get options "onViewportChange") c')) = c').
  { destruct c'. unfold configured in Hconf. cbn in Hconf.
    injection Hconf as -> -> -> -> -> -> -> -> -> -> -> -> -> ->.
    cbn. rewrite with_default_idem. reflexivity. }
  assert (Hfinal :
    update (set_toggles
              (with_default (get options "scrollZoom") (VBool true))
              (with_default (get options "dragPan") (VBool true))
              (with_default (get options "dragRotate") (VBool true))
              (with_default (get options "doubleClickZoom") (VBool true))
              (with_default (get options "touchZoom") (VBool true))
              (with_default (get options "touchRotate") (VBool false))
              (with_default (get options "keyboard") (VBool true)))
      (mkWorld c' ls' cs') = (Ret tt, mkWorld c' ls' cs')).
  { cbv [update]. cbn [ctl listeners calls]. do 2 f_equal.
    destruct c'. unfold configured in Hconf. cbn in Hconf.
    injection Hconf as -> -> -> -> -> -> -> -> -> -> -> -> -> ->.
    reflexivity. }
  unfold setOptions. run_step. cbv zeta. do 3 run_step. cbn [ctl listeners calls].
  rewrite Hsame, Hem'. unfold em at 2. rewrite with_default_idem. fold em.
  rewrite (strict_neq_callback em Hem_typed).
  run_step.
  destruct (truthy em) eqn:Htruthy.
  - destruct em as [| | b | n | s | r] eqn:Eem; try discriminate.
    destruct (Hrec r Hem') as (evs & Hevs & Htrk & H1 & H2 & H3 & H4 & H5).
    rewrite (bind_run _ _ _ _ _ (toggleEvents_noop _ _ r c' evs ls' cs' Hem' Hevs Htrk H1)).
    rewrite (bind_run _ _ _ _ _ (toggleEvents_noop _ _ r c' evs ls' cs' Hem' Hevs Htrk H2)).
    rewrite (bind_run _ _ _ _ _ (toggleEvents_noop _ _ r c' evs ls' cs' Hem' Hevs Htrk H3)).
    rewrite (bind_run _ _ _ _ _ (toggleEvents_noop _ _ r c' evs ls' cs' Hem' Hevs Htrk H4)).
    rewrite (bind_run _ _ _ _ _ (toggleEvents_noop _ _ r c' evs ls' cs' Hem' Hevs Htrk H5)).
    exact Hfinal.
  - assert (Hf : truthy (eventManager (ctl (mkWorld c' ls' cs'))) = false)
      by (cbn [ctl]; rewrite Hem'; exact Htruthy).
    rewrite !(bind_run _ _ _ _ _ (toggleEvents_absent _ _ (mkWorld c' ls' cs') Hf)).
    exact Hfinal.
Qed.

End idempotence.

(** ** The state each event starts from *)

Section starting_state.

Context `{VS : ViewportStateClass} `{HO : Host}.

(** A computation that leaves [viewState] as it is. *)
Definition keeps_viewState {A : Type} (m : M World A) : Prop :=
  forall w, viewState (ctl (snd (m w))) = viewState (ctl w).

Lemma kv_ret {A : Type} (a : A) : keeps_viewState (mret a : M World A).
Proof. intros w. reflexivity. Qed.

Lemma kv_throw {A : Type} : keeps_viewState (throw : M World A).
Proof. intros w. reflexivity. Qed.

Lemma kv_bind {A B : Type} (m : M World A) (k : A -> M World B) :
  keeps_viewState m -> (forall a, keeps_viewState (k a)) -> keeps_viewState (m ≫= k).
Proof.
  intros Hm Hk w. cbv [mbind M_bind]. specialize (Hm w).
  destruct (m w) as [[a |] w1]; cbn [snd] in *; [| exact Hm].
  rewrite (Hk a w1). exact Hm.
Qed.

Lemma kv_this {B : Type} (k : Controls -> M World B) :
  (forall c, keeps_viewState (k c)) -> keeps_viewState (this ≫= k).
Proof. intros Hk. apply kv_bind; [| exact Hk]. intros w. reflexivity. Qed.

Lemma kv_update (f : Controls -> Controls) :
  (forall c, viewState (f c) = viewState c) -> keeps_viewState (update f).
Proof. intros Hf w. apply Hf. Qed.

Lemma kv_with_viewState {A : Type} (k : vstate -> M World A) :
  (forall vs, keeps_viewState (k vs)) -> keeps_viewState (with_viewState k).
Proof.
  intros Hk. unfold with_viewState. apply kv_this. intros c.
  destruct (viewState c); [apply Hk | apply kv_throw].
Qed.

Lemma kv_updateViewport (nvs : vstate) (ep : option Obj) (es : Obj) :
  keeps_viewState (updateViewport nvs ep es).
Proof.
  unfold updateViewport. apply kv_with_viewState. intros vs.
  apply kv_this. intros c. apply kv_bind.
  - destruct (_ && _); [| apply kv_ret].
    unfold call_onViewportChange. destruct (onViewportChange c); intros w; reflexivity.
  - intros _. apply kv_bind; [| intros _; apply kv_ret].
    unfold setState. apply kv_bind; [apply kv_update; reflexivity |].
    intros _. apply kv_this. intros c'.
    destruct (truthy _); [| apply kv_ret].
    unfold call_onStateChange. destruct (onStateChange c'); intros w; reflexivity.
Qed.

Ltac kv :=
  repeat first
    [ apply kv_updateViewport
    | apply kv_ret
    | apply kv_throw
    | apply kv_with_viewState; intros ?
    | apply kv_this; intros ?
    | apply kv_bind; [| intros ?]
    | apply kv_update; reflexivity
    | progress cbv zeta
    | match goal with
      | |- keeps_viewState (if ?b then _ else _) => destruct b
      | |- keeps_viewState (match ?z with _ => _ end) => destruct z
      end ].

Lemma kv_handlers (event : Event) :
  keeps_viewState
    (switch (type event)
       [ ("panstart", _onPanStart event);
         ("panmove", _onPan event);
         ("panend", _onPanEnd event);
         ("pinchstart", _onPinchStart event);
         ("pinchmove", _onPinch event);
         ("pinchend", _onPinchEnd event);
         ("doubletap", _onDoubleTap event);
         ("wheel", _onWheel event);
         ("keydown", _onKeyDown event) ]
       (mret (VBool false))).
Proof.
  unfold switch.
  repeat match goal with
  | |- keeps_viewState (if String.eqb ?a ?b then _ else _) => destruct (String.eqb a b)
  end; try apply kv_ret.
  - unfold _onPanStart. kv.
  - unfold _onPan, _onPanRotate, _onPanMove, _onPanRotateMap, _onPanRotateStandard. kv.
  - unfold _onPanEnd. kv.
  - unfold _onPinchStart. kv.
  - unfold _onPinch. kv.
  - unfold _onPinchEnd. kv.
  - unfold _onDoubleTap. kv.
  - unfold _onWheel. kv.
  - unfold _onKeyDown. apply kv_this. intros c'.
    destruct (negb _); [apply kv_ret |]. cbv zeta.
    destruct (keyCode (srcEvent event)) as [| p | p]; try apply kv_ret.
    kv.
Qed.

(** The controller keeps no viewport of its own.  After a call of
    [setOptions] and any event, [this.viewState] is the ViewportState
    constructed from the options of that call overlaid with the interaction
    state the controller had: viewport props of earlier calls do not persist,
    and the state that the event proposed to the owner is not kept. *)
Theorem event_starts_from_latest_options (options : Obj) (event : Event) (w : World) :
  wf_world w ->
  is_callback (get options "eventManager") = true ->
  viewState (ctl (snd (handleEvent event (snd (setOptions options w))))) =
    Some (construct (assign (assign ∅ options) (_state (ctl w)))) /\
  viewStateProps (ctl (snd (handleEvent event (snd (setOptions options w))))) =
    Some options.
Proof.
  intros Hwf Hopt.
  destruct (setOptions_settled options w Hwf Hopt) as (w' & Hrun & _ & _ & Hconf & _).
  rewrite Hrun. cbn [snd].
  assert (Hp : viewStateProps (ctl w') = Some options) by (rewrite Hconf; reflexivity).
  assert (Hs : _state (ctl w') = _state (ctl w)) by (rewrite Hconf; reflexivity).
  split.
  - rewrite handleEvent_enter. rewrite (kv_handlers event (entered w')).
    rewrite entered_viewState. unfold fresh_viewState. rewrite Hp, Hs. reflexivity.
  - destruct (keeps_handleEvent event w') as [Hc _]. unfold config in Hc.
    injection Hc as Hv _ _ _ _ _ _ _ _ _ _ _ _. rewrite Hv. exact Hp.
Qed.

(** What panStart and rotateStart record in the interaction state reaches
    the next event: after a panstart, the object from which the next
    ViewportState is constructed holds every interaction property of the
    started state (but isDragging, which is true), in preference to a prop of
    the owner of the same name. *)
Theorem pan_anchor_reaches_next_event (start : Event) (w : World) :
  type start = "panstart" ->
  is_callback (onViewportChange (ctl w)) = true ->
  is_callback (onStateChange (ctl w)) = true ->
  let started :=
    rotateStart (panStart (fresh_viewState (ctl w)) (getCenter start)) (getCenter start) in
  let w1 := snd (handleEvent start w) in
  let next := assign (assign_opt ∅ (viewStateProps (ctl w1))) (_state (ctl w1)) in
  fresh_viewState (ctl w1) = construct next /\
  get next "isDragging" = VBool true /\
  forall key v, key <> "isDragging" ->
    getInteractiveState started !! key = Some v -> get next key = v.
Proof.
  intros Hs Hv Ho started w1 next.
  assert (Hst : _state (ctl w1) =
            merged_state (ctl (entered w)) started {[ "isDragging" := VBool true ]}).
  { unfold w1. rewrite handleEvent_enter, Hs.
    cbn [switch String.eqb Ascii.eqb Bool.eqb].
    rewrite (_onPanStart_acts _ _ _ (entered_viewState w)).
    rewrite (updateViewport_spec (entered w) (fresh_viewState (ctl w)))
      by (try reflexivity; assumption).
    reflexivity. }
  split; [reflexivity |]. split.
  - unfold next. rewrite get_assign, Hst.
    pose proof (get_merged_state_isDragging (ctl (entered w)) started true) as H.
    unfold get in H at 1.
    destruct (merged_state _ _ _ !! "isDragging") as [x |] eqn:E; [exact H | discriminate].
  - intros key v Hk Hi. unfold next. rewrite get_assign, Hst.
    assert (H : merged_state (ctl (entered w)) started {[ "isDragging" := VBool true ]}
                  !! key = Some v).
    { unfold merged_state, assign.
      apply lookup_union_Some_l. rewrite lookup_union_r.
      - apply lookup_union_Some_l. exact Hi.
      - apply lookup_singleton_ne. congruence. }
    rewrite H. reflexivity.
Qed.

End starting_state.

(** ** Toggles, and the events whose handlers test none *)

Section toggles.

Context `{VS : ViewportStateClass} `{HO : Host}.

Lemma handleEvent_starts (event : Event) (w : World) :
  type event ∈ ["panstart"; "pinchstart"] ->
  exists nvs st,
    handleEvent event w =
    updateViewport nvs (Some NO_TRANSITION_PROPS)
      {[ "isDragging" := VBool true ]} (at_update w st).
Proof.
  intros Hty. rewrite handleEvent_enter.
  pose proof (entered_viewState w) as Hvs.
  repeat (apply elem_of_cons in Hty as [E | Hty]);
    try (apply elem_of_nil in Hty; contradiction);
    rewrite E; cbn [switch String.eqb Ascii.eqb Bool.eqb].
  - rewrite (_onPanStart_acts _ _ _ Hvs). eexists. exists (_state (ctl w)).
    rewrite at_update_entered. reflexivity.
  - rewrite (_onPinchStart_shape _ _ _ Hvs). eexists. eexists. reflexivity.
Qed.

(** An event that ends in an [updateViewport] setting [isDragging] is not
    ignored: [handleEvent] returns [undefined], the controller is dragging
    or not as set, and the last call made is the report of the new
    interaction state to onStateChange, when that is set. *)
Lemma handleEvent_reports (event : Event) (w : World) (nvs : vstate)
    (ep : option Obj) (st : Obj) (b : bool) :
  handleEvent event w =
    updateViewport nvs ep {[ "isDragging" := VBool b ]} (at_update w st) ->
  is_callback (onViewportChange (ctl w)) = true ->
  is_callback (onStateChange (ctl w)) = true ->
  fst (handleEvent event w) = Ret VUndef /\
  isDragging (ctl (snd (handleEvent event w))) = VBool b /\
  forall f, onStateChange (ctl w) = VRef f ->
    exists proposal reported,
      calls (snd (handleEvent event w)) = calls w ++ proposal ++ [StateChange f reported] /\
      get reported "isDragging" = VBool b.
Proof.
  intros H Hv Hs. rewrite H.
  rewrite (updateViewport_spec (at_update w st) (fresh_viewState (ctl w)))
    by (try reflexivity; assumption).
  cbn [fst snd calls ctl at_update].
  split; [reflexivity |]. split.
  - unfold isDragging. cbn [_state set__state]. apply get_merged_state_isDragging.
  - intros f Hf.
    eexists. exists (merged_state (set__state st (ctl (entered w))) nvs
                       {[ "isDragging" := VBool b ]}).
    split.
    + unfold state_call. cbn [onStateChange set__state entered ctl set_viewState].
      rewrite Hf. reflexivity.
    + apply get_merged_state_isDragging.
Qed.

(** C5, as the code has it.  The handlers of panmove, pinchmove, wheel, doubletap and
    keydown test an interaction toggle (dragPan for a plain panmove,
    dragRotate for a panmove with a function key or the right button,
    touchZoom and touchRotate for pinchmove, scrollZoom, doubleClickZoom,
    keyboard), and such an event handled while that toggle is off is
    ignored: [handleEvent] returns [false] and does not throw, calls neither
    callback, and leaves the viewport props, the interaction state and the
    subscriptions as they were.  The handlers of panstart, pinchstart,
    panend and pinchend test no toggle: whatever the toggles are, such an
    event is acted on, [handleEvent] returns [undefined], the controller is
    dragging after a start and not after an end, and onStateChange, when
    set, receives a state that says so. *)
Theorem disabled_toggle_is_ignored (event : Event) (w : World) :
  (toggle_disabled (ctl w) event = true ->
   fst (handleEvent event w) = Ret (VBool false) /\
   calls (snd (handleEvent event w)) = calls w /\
   listeners (snd (handleEvent event w)) = listeners w /\
   viewStateProps (ctl (snd (handleEvent event w))) = viewStateProps (ctl w) /\
   _state (ctl (snd (handleEvent event w))) = _state (ctl w)) /\
  (type event ∈ ["panstart"; "pinchstart"] ->
   is_callback (onViewportChange (ctl w)) = true ->
   is_callback (onStateChange (ctl w)) = true ->
   fst (handleEvent event w) = Ret VUndef /\
   isDragging (ctl (snd (handleEvent event w))) = VBool true /\
   forall f, onStateChange (ctl w) = VRef f ->
     exists proposal reported,
       calls (snd (handleEvent event w)) =
         calls w ++ proposal ++ [StateChange f reported] /\
       get reported "isDragging" = VBool true) /\
  (type event ∈ ["panend"; "pinchend"] ->
   is_callback (onViewportChange (ctl w)) = true ->
   is_callback (onStateChange (ctl w)) = true ->
   fst (handleEvent event w) = Ret VUndef /\
   isDragging (ctl (snd (handleEvent event w))) = VBool false /\
   forall f, onStateChange (ctl w) = VRef f ->
     exists proposal reported,
       calls (snd (handleEvent event w)) =
         calls w ++ proposal ++ [StateChange f reported] /\
       get reported "isDragging" = VBool false).
Proof.
  split; [| split].
  - intros H. rewrite (handleEvent_disabled event w H). repeat split.
  - intros Hty Hv Hs.
    destruct (handleEvent_starts event w Hty) as (nvs & st & H).
    exact (handleEvent_reports event w nvs _ st true H Hv Hs).
  - intros Hty Hv Hs.
    destruct (handleEvent_ends event w Hty) as (st & H).
    exact (handleEvent_reports event w _ _ st false H Hv Hs).
Qed.

End toggles.

(** ** Subscriptions and the event manager of a call *)

Section managers.

Context `{VS : ViewportStateClass} `{HO : Host}.

(** [setOptions] calls [on] and [off] on the event manager it ends with and
    on no other. *)
Lemma setOptions_elsewhere (options : Obj) (w : World) :
  wf_world w ->
  is_callback (get options "eventManager") = true ->
  forall r name,
    eventManager (ctl (snd (setOptions options w))) <> VRef r ->
    ((r, name) ∈ listeners (snd (setOptions options w)) <-> (r, name) ∈ listeners w).
Proof.
  intros Hwf Hopt r name Hne.
  assert (Hem : with_default (get options "eventManager") (eventManager (ctl w)) <> VRef r).
  { destruct (setOptions_run options w Hwf Hopt)
      as (w' & Hrun & _ & _ & _ & _ & He & _).
    rewrite Hrun in Hne. cbn [snd] in Hne. rewrite He in Hne. exact Hne. }
  clear Hne Hwf Hopt. revert name.
  destruct w as [c ls cs]. cbn [ctl listeners] in *.
  unfold setOptions. run_step. cbv zeta. do 3 run_step. cbn [ctl listeners calls].
  set (em := with_default (get options "eventManager") (eventManager c)) in *.
  match goal with
  | |- forall name, _ ∈ listeners (snd ((_ ≫= ?k) ?w3)) <-> _ =>
      assert (Hrest : forall a, spares r (k a))
  end.
  { intros _. repeat (apply spares_bind; [apply spares_toggleEvents | intros _]).
    apply spares_update. reflexivity. }
  destruct (strict_neq (eventManager c) em) eqn:E.
  - rewrite bind_assoc. run_step. cbn [ctl listeners calls].
    match goal with
    | |- forall name, _ ∈ listeners (snd (?m ?w4)) <-> _ =>
        assert (Hall : spares r m)
    end.
    { repeat (apply spares_bind; [| intros _]);
        try apply spares_toggleEvents; try (apply spares_update; reflexivity). }
    intros name. apply Hall. exact Hem.
  - run_step.
    intros name. apply (Hrest tt).
    cbn. apply negb_false_iff in E. apply strict_eq_eq in E. rewrite E. exact Hem.
Qed.

(** C7, as the code has it.  A call of [setOptions] leaves the controller with the
    event manager of the options, or with the one it had when the options
    name none.  On that event manager [handleEvent] is registered for an
    event name exactly when onViewportChange is set and the toggle of its
    group is on (for pan: dragPan or dragRotate, for pinch: touchZoom or
    touchRotate); so after a call that leaves onViewportChange unset it is
    registered there for none of the nine names, whatever the toggles.  On
    every other event manager the registrations are as they were: when the
    call replaces the event manager, or sets it to null, [handleEvent] stays
    registered on the previous one. *)
Theorem interactive_gates_subscriptions (options : Obj) (w : World) :
  wf_world w ->
  is_callback (get options "eventManager") = true ->
  fst (setOptions options w) = Ret tt /\
  eventManager (ctl (snd (setOptions options w))) =
    with_default (get options "eventManager") (eventManager (ctl w)) /\
  (forall r name,
     eventManager (ctl (snd (setOptions options w))) = VRef r ->
     name ∈ recognized ->
     ((r, name) ∈ listeners (snd (setOptions options w)) <->
      truthy (get options "onViewportChange")
        && toggle_of (ctl (snd (setOptions options w))) name = true)) /\
  (truthy (get options "onViewportChange") = false ->
   forall r name,
     eventManager (ctl (snd (setOptions options w))) = VRef r ->
     name ∈ recognized ->
     (r, name) ∉ listeners (snd (setOptions options w))) /\
  (forall r name,
     eventManager (ctl (snd (setOptions options w))) <> VRef r ->
     ((r, name) ∈ listeners (snd (setOptions options w)) <-> (r, name) ∈ listeners w)).
Proof.
  intros Hwf Hopt.
  pose proof (setOptions_elsewhere options w Hwf Hopt) as Helse.
  destruct (setOptions_run options w Hwf Hopt)
    as (w' & Hrun & _ & _ & Hovc & _ & Hem & _ & _ & _ & _ & _ & _ & _ & Hsub).
  rewrite Hrun in *. cbn [fst snd] in *.
  assert (Hreg : forall r name, eventManager (ctl w') = VRef r -> name ∈ recognized ->
            ((r, name) ∈ listeners w' <->
             truthy (get options "onViewportChange") && toggle_of (ctl w') name = true)).
  { intros r name Hr Hn. specialize (Hsub name Hn).
    unfold subscribed in Hsub. rewrite Hr, Hovc in Hsub. rewrite Hsub.
    split; [intros [_ H]; exact H | intros H; split; [eauto | exact H]]. }
  split; [reflexivity |]. split; [exact Hem |]. split; [exact Hreg |].
  split; [| exact Helse].
  intros Hunset r name Hr Hn Hin. apply (Hreg r name Hr Hn) in Hin.
  rewrite Hunset in Hin. discriminate.
Qed.

(** C10, as the code has it.  In a call of [setOptions], an option onStateChange or
    eventManager that is omitted (or undefined) leaves the controller's
    value as it was.  An omitted onViewportChange makes the controller's
    onViewportChange undefined, and [handleEvent] is then registered for
    none of the nine event names on the event manager the call ends with: on
    the controller's event manager when the options name none, which
    disables all interaction.  The registrations on any other event manager
    are left as they were, those on an event manager that the same call
    replaces or sets to null included. *)
Theorem omitted_options (options : Obj) (w : World) :
  wf_world w ->
  is_callback (get options "eventManager") = true ->
  (get options "onStateChange" = VUndef ->
   onStateChange (ctl (snd (setOptions options w))) = onStateChange (ctl w)) /\
  (get options "eventManager" = VUndef ->
   eventManager (ctl (snd (setOptions options w))) = eventManager (ctl w)) /\
  (get options "onViewportChange" = VUndef ->
   onViewportChange (ctl (snd (setOptions options w))) = VUndef /\
   (forall r name,
      eventManager (ctl (snd (setOptions options w))) = VRef r ->
      name ∈ recognized ->
      (r, name) ∉ listeners (snd (setOptions options w))) /\
   (get options "eventManager" = VUndef ->
    forall r name,
      eventManager (ctl w) = VRef r ->
      name ∈ recognized ->
      (r, name) ∉ listeners (snd (setOptions options w))) /\
   (forall r name,
      eventManager (ctl (snd (setOptions options w))) <> VRef r ->
      ((r, name) ∈ listeners (snd (setOptions options w)) <-> (r, name) ∈ listeners w))).
Proof.
  intros Hwf Hopt.
  pose proof (setOptions_elsewhere options w Hwf Hopt) as Helse.
  destruct (setOptions_run options w Hwf Hopt)
    as (w' & Hrun & _ & _ & Hovc & Hosc & Hem & _ & _ & _ & _ & _ & _ & _ & Hsub).
  rewrite Hrun in *. cbn [fst snd] in *.
  split; [| split].
  - intros H. rewrite Hosc, H. reflexivity.
  - intros H. rewrite Hem, H. reflexivity.
  - intros H.
    assert (Hnone : forall r name, eventManager (ctl w') = VRef r -> name ∈ recognized ->
              (r, name) ∉ listeners w').
    { intros r name Hr Hn Hin.
      assert (Hs : subscribed w' name) by (unfold subscribed; rewrite Hr; exact Hin).
      apply (Hsub name Hn) in Hs. destruct Hs as [_ Hs].
      rewrite Hovc, H in Hs. discriminate. }
    split; [rewrite Hovc; exact H |]. split; [exact Hnone |]. split; [| exact Helse].
    intros He r name Hr Hn. apply Hnone; [| exact Hn].
    rewrite Hem, He. exact Hr.
Qed.

End managers.

(** ** The wheel scale in double precision *)

(** JavaScript numbers are IEEE 754 binary64 numbers.  [Binary64.round] is
    the rounding that every arithmetic operation applies to its exact
    result: to the nearest number with 53 significant bits, and to the one
    with an even last bit at a tie; the last place is no lower than 2^-1074
    (the subnormal numbers), and a result of magnitude 2^1024 or more is an
    infinity.  The sign of zero is left out. *)
Module Binary64.

Definition pow2 (e : Z) : R := powerRZ 2 e.

(** The exponent of the leading bit of [x > 0]: the integer part of its
    logarithm in base 2. *)
Definition ilog2 (x : R) : Z := Int_part (ln x / ln 2).

(** The integer nearest to [x]; the even one of the two when [x] lies half
    way. *)
Definition nearest_even (x : R) : Z :=
  let f := Int_part x in
  if Rltb (x - IZR f) (1 / 2) then f
  else if Rltb (1 / 2) (x - IZR f) then (f + 1)%Z
  else if Z.even f then f else (f + 1)%Z.

(** The exponent of the last place of [x > 0]. *)
Definition last_place (x : R) : Z := Z.max (ilog2 x - 52) (-1074).

(** Rounding of a magnitude, before the test for overflow. *)
Definition round_abs (x : R) : R :=
  IZR (nearest_even (x / pow2 (last_place x))) * pow2 (last_place x).

(** The double nearest to the real number [x]. *)
Definition round (x : R) : num :=
  if Reqb x 0 then Fin 0
  else
    let r := round_abs (Rabs x) in
    if Rltb r (pow2 1024) then Fin (if Rltb x 0 then - r else r)
    else if Rltb x 0 then NInf else PInf.

(** An operation on doubles: the exact result, rounded. *)
Definition rounded (a : num) : num :=
  match a with
  | Fin x => round x
  | _ => a
  end.

Definition add (a b : num) : num := rounded (JsNum.add a b).
Definition mul (a b : num) : num := rounded (JsNum.mul a b).
Definition div (a b : num) : num := rounded (JsNum.div a b).

End Binary64.






Section binary64_facts.

Import Binary64.







































End binary64_facts.

Section wheel64_facts.

Import Binary64.

Context `{VS : ViewportStateClass} `{HO : Host}.














End wheel64_facts.

Section representable.

Import Binary64.




End representable.

(** ** The further theorems at concrete inputs *)

Section more_examples.

#[local] Existing Instance example_host.
#[local] Existing Instance SpecMapState.class.

Lemma handled_event_outcome_witness :
  is_callback (onViewportChange (ctl controls_full)) = true /\
  is_callback (onStateChange (ctl controls_full)) = true /\
  exists made,
    calls (snd (handleEvent (wheel_event (0, 0) 50) controls_full)) =
      calls controls_full ++ made /\
    (length made <= 2)%nat.
Proof.
  split; [reflexivity |]. split; [reflexivity |].
  destruct (handled_event_outcome (wheel_event (0, 0) 50) controls_full eq_refl eq_refl)
    as [(_ & Hc & _) | (_ & proposal & Hc & Hp)].
  - exists []. rewrite Hc, app_nil_r. split; [reflexivity | cbn; lia].
  - eexists. split; [exact Hc |].
    rewrite length_app.
    assert (Hs : forall st, (length (state_call (ctl controls_full) st) <= 1)%nat).
    { intros st. unfold state_call. destruct (onStateChange _); cbn; lia. }
    specialize (Hs (_state (ctl (snd (handleEvent (wheel_event (0, 0) 50) controls_full))))).
    destruct Hp as [-> | (f & nv & v & _ & ->)]; cbn [length]; lia.
Defined.

Lemma proposal_carries_transition_witness :
  is_callback (onViewportChange (ctl controls_full)) = true /\
  is_callback (onStateChange (ctl controls_full)) = true /\
  forall f newViewport viewport,
    In (ViewportChange f newViewport viewport)
       (calls (snd (handleEvent (gesture "doubletap" (3, 4) no_keys) controls_full))) ->
    get newViewport "transitionDuration" = VNum (Fin 300).
Proof.
  split; [reflexivity |]. split; [reflexivity |].
  destruct (proposal_carries_transition (gesture "doubletap" (3, 4) no_keys)
              controls_full eq_refl eq_refl) as (made & Hc & Hmade).
  intros f nv v Hin. rewrite Hc in Hin.
  change (calls controls_full) with (@nil Call) in Hin. cbn [app] in Hin.
  destruct (Hmade f nv v Hin) as (_ & Hlin & _).
  apply Hlin. apply (bool_decide_unpack _). reflexivity.
Defined.

Lemma isDragging_after_event_witness :
  is_callback (onViewportChange (ctl controls_full)) = true /\
  is_callback (onStateChange (ctl controls_full)) = true /\
  isDragging (ctl (snd (handleEvent (gesture "pinchstart" (3, 4) no_keys) controls_full))) =
    VBool true.
Proof.
  split; [reflexivity |]. split; [reflexivity |].
  destruct (isDragging_after_event (gesture "pinchstart" (3, 4) no_keys)
              controls_full eq_refl eq_refl) as (Hstart & _ & _).
  apply Hstart. apply (bool_decide_unpack _). reflexivity.
Defined.

(** A reconfiguration that hands the controller another event manager. *)
Definition options_other_manager : Obj :=
  <[ "eventManager" := VRef 13 ]> options_full.

Lemma setOptions_spares_other_managers_witness :
  with_default (get options_other_manager "eventManager")
    (eventManager (ctl controls_full)) <> VRef 12 /\
  forall name,
    (12%nat, name) ∈ listeners (snd (setOptions options_other_manager controls_full)) <->
    (12%nat, name) ∈ listeners controls_full.
Proof.
  assert (H : with_default (get options_other_manager "eventManager")
                (eventManager (ctl controls_full)) <> VRef 12).
  { change (with_default (get options_other_manager "eventManager")
              (eventManager (ctl controls_full))) with (VRef 13).
    discriminate. }
  split; [exact H |].
  exact (setOptions_spares_other_managers options_other_manager controls_full 12 H).
Defined.

(** A controller that is constructed, receives a panstart, is reconfigured
    and receives a wheel event. *)
Definition operations : list Op :=
  [Deliver (gesture "panstart" (3, 4) no_keys); Configure options_bare;
   Deliver (wheel_event (0, 0) 50)].

Lemma subscriptions_follow_options_witness :
  is_callback (get options_full "eventManager") = true /\
  Forall well_typed operations /\
  "wheel" ∈ recognized /\
  (subscribed (lifetime options_full ∅ operations) "wheel" ->
   truthy (onViewportChange (ctl (lifetime options_full ∅ operations))) = true).
Proof.
  assert (Ht : Forall well_typed operations).
  { unfold operations. apply Forall_cons_2; [exact I |].
    apply Forall_cons_2; [reflexivity |].
    apply Forall_cons_2; [exact I | apply Forall_nil_2]. }
  assert (Hn : "wheel" ∈ recognized) by (apply (bool_decide_unpack _); reflexivity).
  split; [reflexivity |]. split; [exact Ht |]. split; [exact Hn |].
  intros Hsub.
  pose proof (subscriptions_follow_options options_full ∅ operations eq_refl Ht "wheel" Hn)
    as [Hfwd _].
  destruct (Hfwd Hsub) as [_ H].
  destruct (truthy (onViewportChange (ctl (lifetime options_full ∅ operations))));
    [reflexivity | discriminate H].
Defined.

Lemma constructor_defaults_subscribe_all_witness :
  get options_full "eventManager" = VRef 12 /\
  truthy (get options_full "onViewportChange") = true /\
  get options_full "scrollZoom" = VUndef /\
  get options_full "dragPan" = VUndef /\
  get options_full "doubleClickZoom" = VUndef /\
  get options_full "touchZoom" = VUndef /\
  get options_full "keyboard" = VUndef /\
  forall name, name ∈ recognized ->
    (12%nat, name) ∈ listeners (snd (constructor options_full ∅ [])).
Proof.
  do 7 (split; [reflexivity |]).
  destruct (constructor_defaults_subscribe_all options_full ∅ 12
              eq_refl eq_refl eq_refl eq_refl eq_refl eq_refl eq_refl) as (_ & H & _).
  exact H.
Defined.

Lemma wheel_scale_increasing_witness :
  -100 < 100 /\
  exists sa sb : R, wheelScale (-100) = Fin sa /\ wheelScale 100 = Fin sb /\ sa < sb.
Proof.
  assert (H : -100 < 100) by lra.
  split; [exact H |]. exact (wheel_scale_increasing (-100) 100 H).
Defined.

Lemma map_pitch_dragging_down_witness :
  0 < deltaY drag_down /\
  snd (getCenter drag_down) - deltaY drag_down < 600 - 5 /\
  mapDeltaScaleY drag_down (Fin 600) = Fin (-0.3).
Proof.
  assert (H1 : 0 < deltaY drag_down) by (cbn; lra).
  assert (H2 : snd (getCenter drag_down) - deltaY drag_down < 600 - 5) by (cbn; lra).
  split; [exact H1 |]. split; [exact H2 |].
  destruct (map_pitch_dragging_down drag_down 600 H1 H2) as (y & Hy & _ & Hlin & _).
  rewrite Hy, Hlin; cbn [deltaY drag_down getCenter offsetCenter snd].
  - f_equal. lra.
  - lra.
Defined.

(** A drag of 100 pixels upwards that ends at (400, 300). *)
Definition drag_up : Event :=
  {| type := "panmove"; offsetCenter := (400, 300); deltaX := 0; deltaY := -100;
     delta := 0; scale := 1; rotation := 0; rightButton := false;
     srcEvent := shift_key |}.

Lemma map_pitch_dragging_up_witness :
  deltaY drag_up < 0 /\
  5 < snd (getCenter drag_up) - deltaY drag_up /\
  mapDeltaScaleY drag_up (Fin 600) = Fin 0.25.
Proof.
  assert (H1 : deltaY drag_up < 0) by (cbn; lra).
  assert (H2 : 5 < snd (getCenter drag_up) - deltaY drag_up) by (cbn; lra).
  split; [exact H1 |]. split; [exact H2 |].
  destruct (map_pitch_dragging_up drag_up (Fin 600) H1 H2) as (y & Hy & _ & Hlin & _).
  rewrite Hy, Hlin; cbn [deltaY drag_up getCenter offsetCenter snd].
  - f_equal. lra.
  - lra.
Defined.

Lemma map_pitch_dead_zones_witness :
  deltaY drag_up < 0 /\
  snd (getCenter drag_up) - deltaY drag_up - 400 <= 5 /\
  mapDeltaScaleY
    {| type := "panmove"; offsetCenter := (400, 3); deltaX := 0; deltaY := -1;
       delta := 0; scale := 1; rotation := 0; rightButton := false;
       srcEvent := shift_key |} (Fin 600) = Fin 0.
Proof.
  split; [cbn; lra |]. split; [cbn; lra |].
  apply map_pitch_dead_zones.
  right. right. right. cbn. split; lra.
Defined.

Lemma standard_rotate_fractions_witness :
  viewState (ctl (entered controls_sized)) = Some (fresh_viewState (ctl controls_sized)) /\
  _onPanRotateStandard drag_down (entered controls_sized) =
    updateViewport
      (rotate (fresh_viewState (ctl controls_sized))
         (Fin (0 / 800)) (Some (Fin (100 / 600))))
      (Some NO_TRANSITION_PROPS) {[ "isDragging" := VBool true ]}
      (entered controls_sized).
Proof.
  split; [reflexivity |].
  destruct (standard_rotate_fractions drag_down (entered controls_sized)
              (fresh_viewState (ctl controls_sized)) eq_refl)
    as (dsx & dsy & Hrun & Hx & Hy & _).
  rewrite Hrun.
  rewrite (Hx 800 eq_refl) by lra.
  rewrite (Hy 600 eq_refl) by lra.
  reflexivity.
Defined.

(** A controller with the touch rotation on, and a two-finger gesture that
    starts at 30 degrees and has turned to 75. *)
Definition controls_touch : World :=
  snd (constructor (<[ "touchRotate" := VBool true ]> options_full) ∅ []).

Definition pinch (ty : string) (angle : R) : Event :=
  {| type := ty; offsetCenter := (400, 300); deltaX := 0; deltaY := 0; delta := 0;
     scale := 1; rotation := angle; rightButton := false; srcEvent := no_keys |}.

Lemma pinch_rotation_is_relative_witness :
  type (pinch "pinchstart" 30) = "pinchstart" /\
  type (pinch "pinchmove" 75) = "pinchmove" /\
  is_callback (onViewportChange (ctl controls_touch)) = true /\
  is_callback (onStateChange (ctl controls_touch)) = true /\
  truthy (touchRotate (ctl controls_touch)) = true /\
  getInteractiveState
    (rotateStart (zoomStart (fresh_viewState (ctl controls_touch))
                    (getCenter (pinch "pinchstart" 30)))
       (getCenter (pinch "pinchstart" 30)))
    !! "startPinchRotation" = None /\
  get (_state (ctl (snd (handleEvent (pinch "pinchstart" 30) controls_touch))))
    "startPinchRotation" = VNum (Fin 30).
Proof.
  do 6 (split; [reflexivity |]).
  destruct (pinch_rotation_is_relative (pinch "pinchstart" 30) (pinch "pinchmove" 75)
              controls_touch eq_refl eq_refl eq_refl eq_refl eq_refl eq_refl)
    as (H & _).
  exact H.
Defined.

Lemma pinchmove_without_start_rotates_by_NaN_witness :
  type (pinch "pinchmove" 75) = "pinchmove" /\
  truthy (touchRotate (ctl controls_touch)) = true /\
  get (_state (ctl controls_touch)) "startPinchRotation" = VUndef /\
  exists vs,
    handleEvent (pinch "pinchmove" 75) controls_touch =
      updateViewport (rotate vs NaN None)
        (Some NO_TRANSITION_PROPS) {[ "isDragging" := VBool true ]}
        (entered controls_touch).
Proof.
  do 3 (split; [reflexivity |]).
  eexists.
  exact (pinchmove_without_start_rotates_by_NaN (pinch "pinchmove" 75) controls_touch
           eq_refl eq_refl eq_refl).
Defined.

Lemma pinchend_resets_rotation_witness :
  type (pinch "pinchend" 75) = "pinchend" /\
  is_callback (onViewportChange (ctl controls_touch)) = true /\
  is_callback (onStateChange (ctl controls_touch)) = true /\
  getInteractiveState (rotateEnd (zoomEnd (fresh_viewState (ctl controls_touch))))
    !! "startPinchRotation" = None /\
  get (_state (ctl (snd (handleEvent (pinch "pinchend" 75) controls_touch))))
    "startPinchRotation" = VNum (Fin 0).
Proof.
  do 4 (split; [reflexivity |]).
  destruct (pinchend_resets_rotation (pinch "pinchend" 75) controls_touch
              eq_refl eq_refl eq_refl eq_refl) as (H & _).
  exact H.
Defined.

Lemma setOptions_idempotent_witness :
  wf_world controls_full /\
  is_callback (get options_bare "eventManager") = true /\
  setOptions options_bare (snd (setOptions options_bare controls_full)) =
  (Ret tt, snd (setOptions options_bare controls_full)).
Proof.
  assert (Hwf : wf_world controls_full) by (apply constructor_wf; reflexivity).
  split; [exact Hwf |]. split; [reflexivity |].
  exact (setOptions_idempotent options_bare controls_full Hwf eq_refl).
Defined.

Lemma event_starts_from_latest_options_witness :
  wf_world controls_full /\
  is_callback (get options_bare "eventManager") = true /\
  viewStateProps
    (ctl (snd (handleEvent (wheel_event (0, 0) 50)
                 (snd (setOptions options_bare controls_full))))) = Some options_bare.
Proof.
  assert (Hwf : wf_world controls_full) by (apply constructor_wf; reflexivity).
  split; [exact Hwf |]. split; [reflexivity |].
  destruct (event_starts_from_latest_options options_bare (wheel_event (0, 0) 50)
              controls_full Hwf eq_refl) as (_ & H).
  exact H.
Defined.

Lemma pan_anchor_reaches_next_event_witness :
  type (gesture "panstart" (3, 4) no_keys) = "panstart" /\
  is_callback (onViewportChange (ctl controls_full)) = true /\
  is_callback (onStateChange (ctl controls_full)) = true /\
  get (assign
         (assign_opt ∅
            (viewStateProps
               (ctl (snd (handleEvent (gesture "panstart" (3, 4) no_keys) controls_full)))))
         (_state (ctl (snd (handleEvent (gesture "panstart" (3, 4) no_keys) controls_full)))))
    "isDragging" = VBool true.
Proof.
  do 3 (split; [reflexivity |]).
  destruct (pan_anchor_reaches_next_event (gesture "panstart" (3, 4) no_keys)
              controls_full eq_refl eq_refl eq_refl) as (_ & H & _).
  exact H.
Defined.

(** *** The wheel scale, the toggles and the subscriptions at concrete inputs *)



(** A controller constructed with dragPan off. *)
Definition controls_no_dragPan : World :=
  snd (constructor (<[ "dragPan" := VBool false ]> (options_at_zoom 10)) ∅ []).

Lemma disabled_toggle_is_ignored_witness :
  toggle_disabled (ctl controls_no_dragPan) (gesture "panmove" (3, 4) no_keys) = true /\
  fst (handleEvent (gesture "panmove" (3, 4) no_keys) controls_no_dragPan) = Ret (VBool false) /\
  calls (snd (handleEvent (gesture "panmove" (3, 4) no_keys) controls_no_dragPan)) = [].
Proof.
  split; [reflexivity |].
  destruct (disabled_toggle_is_ignored (gesture "panmove" (3, 4) no_keys)
              controls_no_dragPan) as (Hoff & _ & _).
  destruct (Hoff eq_refl) as (Hret & Hcalls & _).
  split; [exact Hret | exact Hcalls].
Defined.

(** A controller with both callbacks and an event manager, constructed with
    every toggle off. *)
Definition options_all_off : Obj :=
  <[ "scrollZoom" := VBool false ]>
  (<[ "dragPan" := VBool false ]>
  (<[ "dragRotate" := VBool false ]>
  (<[ "doubleClickZoom" := VBool false ]>
  (<[ "touchZoom" := VBool false ]>
  (<[ "keyboard" := VBool false ]> options_full))))).

Definition controls_all_off : World := snd (constructor options_all_off ∅ []).

(** With dragPan and dragRotate off, and every other toggle too, a panstart
    is not ignored: [handleEvent] returns [undefined] and onStateChange is
    called with isDragging true. *)
Lemma panstart_is_handled_with_toggles_off :
  truthy (dragPan (ctl controls_all_off)) = false /\
  truthy (dragRotate (ctl controls_all_off)) = false /\
  toggle_of (ctl controls_all_off) "panstart" = false /\
  fst (handleEvent (gesture "panstart" (3, 4) no_keys) controls_all_off) = Ret VUndef /\
  exists proposal reported,
    calls (snd (handleEvent (gesture "panstart" (3, 4) no_keys) controls_all_off)) =
      proposal ++ [StateChange 11 reported] /\
    get reported "isDragging" = VBool true.
Proof.
  do 3 (split; [reflexivity |]).
  destruct (handleEvent_starts (gesture "panstart" (3, 4) no_keys) controls_all_off)
    as (nvs & st & H).
  { apply (bool_decide_unpack _). reflexivity. }
  destruct (handleEvent_reports _ _ nvs _ st true H eq_refl eq_refl)
    as (Hret & _ & Hcall).
  destruct (Hcall 11%nat eq_refl) as (proposal & reported & Hcalls & Hdrag).
  split; [exact Hret |]. exists proposal, reported. split; [exact Hcalls | exact Hdrag].
Qed.

(** The controller of the examples is subscribed to the nine event names
    on its event manager. *)
Lemma controls_full_subscribed (name : string) :
  name ∈ recognized -> (12%nat, name) ∈ listeners controls_full.
Proof.
  intros Hn. unfold controls_full, constructor.
  destruct (setOptions_run options_full (mkWorld new_controls ∅ [])
              (wf_new_controls ∅ []) eq_refl)
    as (w' & Hrun & _ & _ & Hv & _ & He & Hsz & Hdp & _ & Hdcz & Htz & _ & Hkb & Hsub).
  rewrite Hrun. cbn [snd]. specialize (Hsub name Hn).
  unfold subscribed in Hsub. rewrite He in Hsub.
  change (with_default (get options_full "eventManager")
            (eventManager (ctl (mkWorld new_controls ∅ [])))) with (VRef 12) in Hsub.
  apply Hsub. split; [eauto |].
  rewrite Hv. change (truthy (get options_full "onViewportChange")) with true.
  cbn [andb]. unfold toggle_of. rewrite Hsz, Hdp, Hdcz, Htz, Hkb.
  unfold recognized, EVENT_TYPES.WHEEL, EVENT_TYPES.PAN, EVENT_TYPES.PINCH,
    EVENT_TYPES.DOUBLE_TAP, EVENT_TYPES.KEYBOARD in Hn. cbn [app] in Hn.
  repeat (apply elem_of_cons in Hn as [-> | Hn]);
    try (apply elem_of_nil in Hn; contradiction); reflexivity.
Qed.

Lemma interactive_gates_subscriptions_witness :
  wf_world controls_full /\
  is_callback (get options_bare "eventManager") = true /\
  fst (setOptions options_bare controls_full) = Ret tt /\
  eventManager (ctl (snd (setOptions options_bare controls_full))) = VRef 12 /\
  forall name, name ∈ recognized ->
    (12%nat, name) ∉ listeners (snd (setOptions options_bare controls_full)).
Proof.
  assert (Hwf : wf_world controls_full) by (apply constructor_wf; reflexivity).
  split; [exact Hwf |]. split; [reflexivity |].
  destruct (interactive_gates_subscriptions options_bare controls_full Hwf eq_refl)
    as (Hret & Hem & _ & Hunset & _).
  split; [exact Hret |]. split; [exact Hem |].
  intros name Hn. exact (Hunset eq_refl 12%nat name Hem Hn).
Defined.

(** A reconfiguration that takes the event manager away and names no
    callback. *)
Definition options_no_manager : Obj := {[ "eventManager" := VNull ]}.

(** After a call of [setOptions] that leaves onViewportChange unset and
    sets the event manager to null, [handleEvent] is still registered for
    the nine event names on the event manager the controller had. *)
Lemma unset_callback_leaves_old_manager_subscribed :
  truthy (get options_no_manager "onViewportChange") = false /\
  eventManager (ctl controls_full) = VRef 12 /\
  forall name, name ∈ recognized ->
    (12%nat, name) ∈ listeners controls_full /\
    (12%nat, name) ∈ listeners (snd (setOptions options_no_manager controls_full)).
Proof.
  split; [reflexivity |]. split; [reflexivity |].
  assert (Hwf : wf_world controls_full) by (apply constructor_wf; reflexivity).
  intros name Hn. split; [exact (controls_full_subscribed name Hn) |].
  apply (setOptions_elsewhere options_no_manager controls_full Hwf eq_refl).
  - destruct (setOptions_run options_no_manager controls_full Hwf eq_refl)
      as (w' & Hrun & _ & _ & _ & _ & He & _).
    rewrite Hrun. cbn [snd]. rewrite He. discriminate.
  - exact (controls_full_subscribed name Hn).
Qed.

Lemma omitted_options_witness :
  wf_world controls_full /\
  is_callback (get options_bare "eventManager") = true /\
  onStateChange (ctl (snd (setOptions options_bare controls_full))) = owner_onStateChange /\
  eventManager (ctl (snd (setOptions options_bare controls_full))) = owner_eventManager /\
  onViewportChange (ctl (snd (setOptions options_bare controls_full))) = VUndef /\
  forall name, name ∈ recognized ->
    (12%nat, name) ∉ listeners (snd (setOptions options_bare controls_full)).
Proof.
  assert (Hwf : wf_world controls_full) by (apply constructor_wf; reflexivity).
  split; [exact Hwf |]. split; [reflexivity |].
  destruct (omitted_options options_bare controls_full Hwf eq_refl)
    as (Hosc & Hem & Hovc).
  destruct (Hovc eq_refl) as (Hu & _ & Hsame & _).
  split; [| split; [| split]].
  - rewrite (Hosc eq_refl). reflexivity.
  - rewrite (Hem eq_refl). reflexivity.
  - exact Hu.
  - intros name Hn. exact (Hsame eq_refl 12%nat name eq_refl Hn).
Defined.

(** A reconfiguration that hands over another event manager and names no
    callback. *)
Definition options_new_manager : Obj := {[ "eventManager" := VRef 13 ]}.

(** After a call of [setOptions] that omits onViewportChange and replaces
    the event manager, [handleEvent] is still registered for the nine event
    names on the previous event manager, and a panstart that it delivers is
    still acted on: onStateChange is called with isDragging true. *)
Lemma omitted_callback_keeps_old_manager_live :
  get options_new_manager "onViewportChange" = VUndef /\
  (forall name, name ∈ recognized ->
     (12%nat, name) ∈ listeners (snd (setOptions options_new_manager controls_full))) /\
  exists reported,
    calls (snd (handleEvent (gesture "panstart" (3, 4) no_keys)
                  (snd (setOptions options_new_manager controls_full)))) =
      [StateChange 11 reported] /\
    get reported "isDragging" = VBool true.
Proof.
  split; [reflexivity |].
  assert (Hwf : wf_world controls_full) by (apply constructor_wf; reflexivity).
  pose proof (setOptions_elsewhere options_new_manager controls_full Hwf eq_refl) as Helse.
  destruct (setOptions_run options_new_manager controls_full Hwf eq_refl)
    as (w' & Hrun & _ & Hcalls & Hv & Hs & He & _).
  rewrite Hrun in *. cbn [snd] in *.
  change (calls controls_full) with (@nil Call) in Hcalls.
  change (get options_new_manager "onViewportChange") with VUndef in Hv.
  change (with_default (get options_new_manager "onStateChange")
            (onStateChange (ctl controls_full))) with (VRef 11) in Hs.
  split.
  - intros name Hn. apply Helse; [rewrite He; discriminate |].
    exact (controls_full_subscribed name Hn).
  - rewrite handleEvent_panstart by reflexivity.
    rewrite (_onPanStart_acts _ _ (fresh_viewState (ctl w'))) by reflexivity.
    rewrite (updateViewport_spec (entered w') (fresh_viewState (ctl w')));
      [| reflexivity
       | change (onViewportChange (ctl (entered w'))) with (onViewportChange (ctl w'));
         rewrite Hv; reflexivity
       | change (onStateChange (ctl (entered w'))) with (onStateChange (ctl w'));
         rewrite Hs; reflexivity ].
    cbn [snd calls]. unfold viewport_call, state_call.
    change (onViewportChange (ctl (entered w'))) with (onViewportChange (ctl w')).
    change (onStateChange (ctl (entered w'))) with (onStateChange (ctl w')).
    change (calls (entered w')) with (calls w').
    rewrite Hv, Hs, Hcalls. cbn [app].
    eexists. split; [reflexivity |]. apply get_merged_state_isDragging.
Qed.

End more_examples.
